(** * The interactive terminal session of the dashboard

    A shallow embedding of the [Terminal] React component: the xterm
    emulator it owns, the WebSocket it opens towards the PTY bridge, the
    traffic sampler, the keepalive timer and the effect that rebuilds all
    of them when the selected target changes.

    The component is event driven and single threaded.  Every callback of
    the source (effect body, effect cleanup, WebSocket handlers, timer
    callbacks, emulator listeners) is a function on an explicit [State];
    the browser and React are the environment, which picks the next
    [Event].  Exceptions are explicit ([Completion]), because JavaScript
    does not roll the store back when a callback throws.

    Conventions.
    - Strings are sequences of bytes, holding the UTF-8 encoding of the
      JavaScript string, so that [new Blob([s]).size] is [String.length].
    - [undefined] is [None]; a parsed JSON number carries its canonical
      decimal rendering (what a template literal prints for it).
    - Times in milliseconds and byte counts are integers ([Z]); the
      displayed rates are IEEE 754 binary64 numbers ([double]), computed
      with the divisions and comparisons of the source.
    - Presentation-only callbacks (theme, font size, fullscreen) touch
      neither the socket nor the timers and are left out of [State]; the
      single thing they do to a session, refitting the emulator, is the
      environment event [Refit].  The theme cycle is modelled on its own
      in [Theme].

    Two small pure parts of the dashboard come after the terminal: the
    breadcrumb computed from the current path ([Breadcrumb]) and the
    choice of the list page for a resource ([Pages]). *)

From stdpp Require Import base option list strings pretty.
From Stdlib Require Import Ascii ZArith SpecFloat.

Set Warnings "-register-all".

(** ** Completions *)

Inductive Completion (A : Type) : Type :=
| Normal (a : A)
| Throw (e : string).
Arguments Normal {A} a.
Arguments Throw {A} e.

Definition is_normal {A} (c : Completion A) : bool :=
  match c with Normal _ => true | Throw _ => false end.

(** ** JavaScript values coming out of [JSON.parse] *)

Module Js.

Inductive Json : Type :=
| JNull
| JBool (b : bool)
| JNum (repr : string)
| JStr (s : string)
| JArr (xs : list Json)
| JObj (fields : list (string * Json)).

(** [o[k]] for an object built by [JSON.parse]: own data properties
    only, and a key that is repeated in the text keeps its last value. *)
Fixpoint own_property (k : string) (fields : list (string * Json)) : option Json :=
  match fields with
  | [] => None
  | (k', v) :: rest =>
      match own_property k rest with
      | Some w => Some w
      | None => if decide (k = k') then Some v else None
      end
  end.

(** [m.type] and [m.data].  Reading a property of [null] throws; neither
    name is defined on a built-in prototype, so on a primitive or an
    array the read gives [undefined]. *)
Definition get_field (k : string) (m : Json) : Completion (option Json) :=
  match m with
  | JNull => Throw "TypeError: Cannot read properties of null"
  | JObj fields => Normal (own_property k fields)
  | _ => Normal None
  end.

(** [ToString], as a template literal applies it.  A plain object prints
    through [Object.prototype.toString] unless the text gave it an own
    [toString] property, which is never callable: then the conversion
    fails.  An array prints its elements joined by commas, with [null]
    printed as the empty string. *)
Fixpoint ToString (v : Json) : Completion string :=
  match v with
  | JNull => Normal "null"
  | JBool b => Normal (if b then "true" else "false")
  | JNum repr => Normal repr
  | JStr s => Normal s
  | JArr xs =>
      (fix join (ys : list Json) : Completion string :=
         match ys with
         | [] => Normal ""
         | y :: ys' =>
             match (match y with JNull => Normal "" | _ => ToString y end) with
             | Throw e => Throw e
             | Normal a =>
                 match ys' with
                 | [] => Normal a
                 | _ :: _ =>
                     match join ys' with
                     | Throw e => Throw e
                     | Normal b => Normal (a +:+ "," +:+ b)
                     end
                 end
             end
         end) xs
  | JObj fields =>
      match own_property "toString" fields with
      | Some _ => Throw "TypeError: Cannot convert object to primitive value"
      | None => Normal "[object Object]"
      end
  end.

(** [`${v}`] *)
Definition template (v : option Json) : Completion string :=
  match v with
  | None => Normal "undefined"
  | Some j => ToString j
  end.

(** [!s] for a string, and for an optional string. *)
Definition falsy (s : string) : bool := bool_decide (s = "").

Definition falsy_opt (s : option string) : bool :=
  match s with None => true | Some s => falsy s end.

(** [`${s}`] for an optional string prop; [null] (a missing
    [localStorage] entry) is handled at its single use. *)
Definition show (s : option string) : string := default "undefined" s.

(** [new Blob([s]).size] *)
Definition Blob_size (s : string) : Z := Z.of_nat (String.length s).

(** The numbers of JavaScript are IEEE 754 binary64 values: 53 bits of
    precision, exponents below 1024. *)
Definition double : Type := spec_float.

(** The double that holds the integer [z] (the nearest one, when [z] is
    too large to be held exactly). *)
Definition Number (z : Z) : double := binary_normalize 53 1024 z 0 false.

(** [x / y], [x < y] and [x <= y] on doubles. *)
Definition divide (x y : double) : double := SFdiv 53 1024 x y.
Definition less (x y : double) : bool := SFltb x y.
Definition at_most (x y : double) : bool := SFleb x y.

#[global] Arguments Number : simpl never.
#[global] Arguments divide : simpl never.
#[global] Arguments less : simpl never.
#[global] Arguments at_most : simpl never.

End Js.
Import Js.

(** ** Outbound frames and [JSON.stringify] *)

Module Wire.

Inductive Frame : Type :=
| stdin (data : string)
| resize (cols rows : N)
| ping.

Definition dquote : string := String "034"%char "".
Definition backslash : string := String "092"%char "".

Definition hex_digit (n : N) : string :=
  String (match n with
          | 0 => "0" | 1 => "1" | 2 => "2" | 3 => "3" | 4 => "4"
          | 5 => "5" | 6 => "6" | 7 => "7" | 8 => "8" | 9 => "9"
          | 10 => "a" | 11 => "b" | 12 => "c" | 13 => "d" | 14 => "e"
          | _ => "f"
          end%N)%char "".

(** One character of a quoted JSON string. *)
Definition escape_char (c : ascii) : string :=
  let n := N_of_ascii c in
  if (n =? 34)%N then backslash +:+ dquote
  else if (n =? 92)%N then backslash +:+ backslash
  else if (n =? 8)%N then backslash +:+ "b"
  else if (n =? 12)%N then backslash +:+ "f"
  else if (n =? 10)%N then backslash +:+ "n"
  else if (n =? 13)%N then backslash +:+ "r"
  else if (n =? 9)%N then backslash +:+ "t"
  else if (n <? 32)%N then
    backslash +:+ "u00" +:+ hex_digit (n / 16) +:+ hex_digit (n mod 16)
  else String c "".

Fixpoint escape (s : string) : string :=
  match s with
  | EmptyString => ""
  | String c rest => escape_char c +:+ escape rest
  end.

Definition quote (s : string) : string := dquote +:+ escape s +:+ dquote.

Definition key (k : string) : string := quote k +:+ ":".

Definition JSON_stringify (f : Frame) : string :=
  match f with
  | stdin data =>
      "{" +:+ key "type" +:+ quote "stdin" +:+ "," +:+ key "data" +:+ quote data +:+ "}"
  | resize cols rows =>
      "{" +:+ key "type" +:+ quote "resize" +:+ "," +:+ key "cols" +:+ pretty cols
          +:+ "," +:+ key "rows" +:+ pretty rows +:+ "}"
  | ping => "{" +:+ key "type" +:+ quote "ping" +:+ "}"
  end.

End Wire.

(** ** ANSI colouring of the status lines *)

Definition ESC : string := String "027"%char "".

Definition colored (sgr : string) (text : string) : string :=
  ESC +:+ "[" +:+ sgr +:+ "m" +:+ text +:+ ESC +:+ "[0m".

Definition red : string -> string := colored "31".
Definition green : string -> string := colored "32".
Definition blue : string -> string := colored "34".

(** ** Props and the page environment *)

Inductive TermType : Type := node | pod.

Global Instance TermType_eq_dec : EqDecision TermType.
Proof. solve_decision. Defined.

Definition type_name (t : TermType) : string :=
  match t with node => "node" | pod => "pod" end.

(** [pods?.[0]?.metadata?.name] only needs the name of a [Pod]. *)
Record Pod : Type := { metadata_name : option string }.

Record Container : Type := { name : string }.

(** An array prop.  React compares dependencies with [Object.is], hence
    arrays by identity. *)
Record Arr (A : Type) : Type := { identity : nat; elems : list A }.
Arguments identity {A} _.
Arguments elems {A} _.

Record TerminalProps : Type := {
  type : option TermType;
  namespace : option string;
  podName : option string;
  nodeName : option string;
  pods : option (Arr Pod);
  containers : option (Arr Container)
}.

(** [type = 'pod'] in the parameter list. *)
Definition type_of (p : TerminalProps) : TermType := default pod (type p).

(** [containers = []] in the parameter list. *)
Definition containers_of (p : TerminalProps) : list Container :=
  match containers p with Some a => elems a | None => [] end.

(** What the effect reads from the page and the JavaScript runtime. *)
Record Runtime : Type := {
  location_protocol : string;
  location_host : string;
  NODE_ENV : string;
  current_cluster : option string;         (* localStorage.getItem('current-cluster') *)
  JSON_parse : string -> option Json       (* [None]: throws a SyntaxError *)
}.

(** ** The objects a session owns *)

Inductive ReadyState : Type := CONNECTING | OPEN | CLOSING | CLOSED.

Global Instance ReadyState_eq_dec : EqDecision ReadyState.
Proof. solve_decision. Defined.

(** The emulator is known through the calls made on it; what it draws is
    the emulation engine's business.  [Write] records its argument as the
    handler passes it. *)
Inductive TermCall : Type :=
| Write (data : option Json)
| Writeln (line : string)
| Clear.

Record XTerm : Type := {
  disposed : bool;
  calls : list TermCall;
  cols : N;
  rows : N
}.

(** [sent] are the messages handed to the network; [discarded] the ones
    [send] swallowed because the socket was closing or closed;
    [closeCalls] the [code] argument of every call of [close]. *)
Record WebSocket : Type := {
  url : string;
  readyState : ReadyState;
  sent : list string;
  discarded : list string;
  closeCalls : list (option Z)
}.

(** One run of the lifecycle effect that got past its guards: the
    emulator and the socket it constructed and what its closures hold. *)
Record Session : Type := {
  terminal : XTerm;
  websocket : WebSocket;
  closure_type : TermType;        (* [type] as the closures captured it *)
  resizeObserver : bool;          (* observing [terminal.element] *)
  resizeTimeout : bool            (* the 100 ms [setTimeout] is pending *)
}.

Inductive TimerKind : Type :=
| SpeedUpdate
| Keepalive (k : nat).            (* the session whose socket it pings *)

Global Instance TimerKind_eq_dec : EqDecision TimerKind.
Proof. solve_decision. Defined.

Record Timer : Type := {
  kind : TimerKind;
  interval : Z;                   (* milliseconds *)
  active : bool
}.

Record NetworkSpeed : Type := { upload : double; download : double }.

Record NetworkStats : Type := {
  lastReset : Z;
  bytesReceived : Z;
  bytesSent : Z;
  lastUpdate : Z
}.

(** The values a committed render closed over. *)
Record Rendered : Type := {
  r_props : TerminalProps;
  r_selectedPod : string;
  r_selectedContainer : string
}.

Record State : Type := {
  (* useState *)
  selectedPod : string;
  selectedContainer : string;
  isConnected : bool;
  networkSpeed : NetworkSpeed;
  (* useRef; [terminalRef] tells whether the container element is attached,
     the other object references are indices into [sessions] and [timers] *)
  terminalRef : bool;
  xtermRef : option nat;
  fitAddonRef : option nat;
  wsRef : option nat;
  networkStatsRef : NetworkStats;
  speedUpdateTimerRef : option nat;
  pingTimerRef : option nat;
  (* the objects the component has created, and the console *)
  sessions : list Session;
  timers : list Timer;
  console : list string;
  (* React's bookkeeping: the last committed render and the cleanup
     returned by the last run of the lifecycle effect *)
  mounted : bool;
  rendered : option Rendered;
  cleanupFn : option nat
}.

(** Field updates. *)

Definition set_selectedPod (v : string) (st : State) : State :=
  {| selectedPod := v; selectedContainer := selectedContainer st;
     isConnected := isConnected st; networkSpeed := networkSpeed st;
     terminalRef := terminalRef st; xtermRef := xtermRef st;
     fitAddonRef := fitAddonRef st; wsRef := wsRef st;
     networkStatsRef := networkStatsRef st;
     speedUpdateTimerRef := speedUpdateTimerRef st;
     pingTimerRef := pingTimerRef st; sessions := sessions st;
     timers := timers st; console := console st; mounted := mounted st;
     rendered := rendered st; cleanupFn := cleanupFn st |}.

Definition set_selectedContainer (v : string) (st : State) : State :=
  {| selectedPod := selectedPod st; selectedContainer := v;
     isConnected := isConnected st; networkSpeed := networkSpeed st;
     terminalRef := terminalRef st; xtermRef := xtermRef st;
     fitAddonRef := fitAddonRef st; wsRef := wsRef st;
     networkStatsRef := networkStatsRef st;
     speedUpdateTimerRef := speedUpdateTimerRef st;
     pingTimerRef := pingTimerRef st; sessions := sessions st;
     timers := timers st; console := console st; mounted := mounted st;
     rendered := rendered st; cleanupFn := cleanupFn st |}.

Definition set_isConnected (v : bool) (st : State) : State :=
  {| selectedPod := selectedPod st;
     selectedContainer := selectedContainer st; isConnected := v;
     networkSpeed := networkSpeed st; terminalRef := terminalRef st;
     xtermRef := xtermRef st; fitAddonRef := fitAddonRef st;
     wsRef := wsRef st; networkStatsRef := networkStatsRef st;
     speedUpdateTimerRef := speedUpdateTimerRef st;
     pingTimerRef := pingTimerRef st; sessions := sessions st;
     timers := timers st; console := console st; mounted := mounted st;
     rendered := rendered st; cleanupFn := cleanupFn st |}.

Definition set_networkSpeed (v : NetworkSpeed) (st : State) : State :=
  {| selectedPod := selectedPod st;
     selectedContainer := selectedContainer st;
     isConnected := isConnected st; networkSpeed := v;
     terminalRef := terminalRef st; xtermRef := xtermRef st;
     fitAddonRef := fitAddonRef st; wsRef := wsRef st;
     networkStatsRef := networkStatsRef st;
     speedUpdateTimerRef := speedUpdateTimerRef st;
     pingTimerRef := pingTimerRef st; sessions := sessions st;
     timers := timers st; console := console st; mounted := mounted st;
     rendered := rendered st; cleanupFn := cleanupFn st |}.

Definition set_terminalRef (v : bool) (st : State) : State :=
  {| selectedPod := selectedPod st;
     selectedContainer := selectedContainer st;
     isConnected := isConnected st; networkSpeed := networkSpeed st;
     terminalRef := v; xtermRef := xtermRef st;
     fitAddonRef := fitAddonRef st; wsRef := wsRef st;
     networkStatsRef := networkStatsRef st;
     speedUpdateTimerRef := speedUpdateTimerRef st;
     pingTimerRef := pingTimerRef st; sessions := sessions st;
     timers := timers st; console := console st; mounted := mounted st;
     rendered := rendered st; cleanupFn := cleanupFn st |}.

Definition set_xtermRef (v : option nat) (st : State) : State :=
  {| selectedPod := selectedPod st;
     selectedContainer := selectedContainer st;
     isConnected := isConnected st; networkSpeed := networkSpeed st;
     terminalRef := terminalRef st; xtermRef := v;
     fitAddonRef := fitAddonRef st; wsRef := wsRef st;
     networkStatsRef := networkStatsRef st;
     speedUpdateTimerRef := speedUpdateTimerRef st;
     pingTimerRef := pingTimerRef st; sessions := sessions st;
     timers := timers st; console := console st; mounted := mounted st;
     rendered := rendered st; cleanupFn := cleanupFn st |}.

Definition set_fitAddonRef (v : option nat) (st : State) : State :=
  {| selectedPod := selectedPod st;
     selectedContainer := selectedContainer st;
     isConnected := isConnected st; networkSpeed := networkSpeed st;
     terminalRef := terminalRef st; xtermRef := xtermRef st;
     fitAddonRef := v; wsRef := wsRef st;
     networkStatsRef := networkStatsRef st;
     speedUpdateTimerRef := speedUpdateTimerRef st;
     pingTimerRef := pingTimerRef st; sessions := sessions st;
     timers := timers st; console := console st; mounted := mounted st;
     rendered := rendered st; cleanupFn := cleanupFn st |}.

Definition set_wsRef (v : option nat) (st : State) : State :=
  {| selectedPod := selectedPod st;
     selectedContainer := selectedContainer st;
     isConnected := isConnected st; networkSpeed := networkSpeed st;
     terminalRef := terminalRef st; xtermRef := xtermRef st;
     fitAddonRef := fitAddonRef st; wsRef := v;
     networkStatsRef := networkStatsRef st;
     speedUpdateTimerRef := speedUpdateTimerRef st;
     pingTimerRef := pingTimerRef st; sessions := sessions st;
     timers := timers st; console := console st; mounted := mounted st;
     rendered := rendered st; cleanupFn := cleanupFn st |}.

Definition set_networkStatsRef (v : NetworkStats) (st : State) : State :=
  {| selectedPod := selectedPod st;
     selectedContainer := selectedContainer st;
     isConnected := isConnected st; networkSpeed := networkSpeed st;
     terminalRef := terminalRef st; xtermRef := xtermRef st;
     fitAddonRef := fitAddonRef st; wsRef := wsRef st; networkStatsRef := v;
     speedUpdateTimerRef := speedUpdateTimerRef st;
     pingTimerRef := pingTimerRef st; sessions := sessions st;
     timers := timers st; console := console st; mounted := mounted st;
     rendered := rendered st; cleanupFn := cleanupFn st |}.

Definition set_speedUpdateTimerRef (v : option nat) (st : State) : State :=
  {| selectedPod := selectedPod st;
     selectedContainer := selectedContainer st;
     isConnected := isConnected st; networkSpeed := networkSpeed st;
     terminalRef := terminalRef st; xtermRef := xtermRef st;
     fitAddonRef := fitAddonRef st; wsRef := wsRef st;
     networkStatsRef := networkStatsRef st; speedUpdateTimerRef := v;
     pingTimerRef := pingTimerRef st; sessions := sessions st;
     timers := timers st; console := console st; mounted := mounted st;
     rendered := rendered st; cleanupFn := cleanupFn st |}.

Definition set_pingTimerRef (v : option nat) (st : State) : State :=
  {| selectedPod := selectedPod st;
     selectedContainer := selectedContainer st;
     isConnected := isConnected st; networkSpeed := networkSpeed st;
     terminalRef := terminalRef st; xtermRef := xtermRef st;
     fitAddonRef := fitAddonRef st; wsRef := wsRef st;
     networkStatsRef := networkStatsRef st;
     speedUpdateTimerRef := speedUpdateTimerRef st; pingTimerRef := v;
     sessions := sessions st; timers := timers st; console := console st;
     mounted := mounted st; rendered := rendered st;
     cleanupFn := cleanupFn st |}.

Definition set_sessions (v : list Session) (st : State) : State :=
  {| selectedPod := selectedPod st;
     selectedContainer := selectedContainer st;
     isConnected := isConnected st; networkSpeed := networkSpeed st;
     terminalRef := terminalRef st; xtermRef := xtermRef st;
     fitAddonRef := fitAddonRef st; wsRef := wsRef st;
     networkStatsRef := networkStatsRef st;
     speedUpdateTimerRef := speedUpdateTimerRef st;
     pingTimerRef := pingTimerRef st; sessions := v; timers := timers st;
     console := console st; mounted := mounted st; rendered := rendered st;
     cleanupFn := cleanupFn st |}.

Definition set_timers (v : list Timer) (st : State) : State :=
  {| selectedPod := selectedPod st;
     selectedContainer := selectedContainer st;
     isConnected := isConnected st; networkSpeed := networkSpeed st;
     terminalRef := terminalRef st; xtermRef := xtermRef st;
     fitAddonRef := fitAddonRef st; wsRef := wsRef st;
     networkStatsRef := networkStatsRef st;
     speedUpdateTimerRef := speedUpdateTimerRef st;
     pingTimerRef := pingTimerRef st; sessions := sessions st; timers := v;
     console := console st; mounted := mounted st; rendered := rendered st;
     cleanupFn := cleanupFn st |}.

Definition set_console (v : list string) (st : State) : State :=
  {| selectedPod := selectedPod st;
     selectedContainer := selectedContainer st;
     isConnected := isConnected st; networkSpeed := networkSpeed st;
     terminalRef := terminalRef st; xtermRef := xtermRef st;
     fitAddonRef := fitAddonRef st; wsRef := wsRef st;
     networkStatsRef := networkStatsRef st;
     speedUpdateTimerRef := speedUpdateTimerRef st;
     pingTimerRef := pingTimerRef st; sessions := sessions st;
     timers := timers st; console := v; mounted := mounted st;
     rendered := rendered st; cleanupFn := cleanupFn st |}.

Definition set_mounted (v : bool) (st : State) : State :=
  {| selectedPod := selectedPod st;
     selectedContainer := selectedContainer st;
     isConnected := isConnected st; networkSpeed := networkSpeed st;
     terminalRef := terminalRef st; xtermRef := xtermRef st;
     fitAddonRef := fitAddonRef st; wsRef := wsRef st;
     networkStatsRef := networkStatsRef st;
     speedUpdateTimerRef := speedUpdateTimerRef st;
     pingTimerRef := pingTimerRef st; sessions := sessions st;
     timers := timers st; console := console st; mounted := v;
     rendered := rendered st; cleanupFn := cleanupFn st |}.

Definition set_rendered (v : option Rendered) (st : State) : State :=
  {| selectedPod := selectedPod st;
     selectedContainer := selectedContainer st;
     isConnected := isConnected st; networkSpeed := networkSpeed st;
     terminalRef := terminalRef st; xtermRef := xtermRef st;
     fitAddonRef := fitAddonRef st; wsRef := wsRef st;
     networkStatsRef := networkStatsRef st;
     speedUpdateTimerRef := speedUpdateTimerRef st;
     pingTimerRef := pingTimerRef st; sessions := sessions st;
     timers := timers st; console := console st; mounted := mounted st;
     rendered := v; cleanupFn := cleanupFn st |}.

Definition set_cleanupFn (v : option nat) (st : State) : State :=
  {| selectedPod := selectedPod st;
     selectedContainer := selectedContainer st;
     isConnected := isConnected st; networkSpeed := networkSpeed st;
     terminalRef := terminalRef st; xtermRef := xtermRef st;
     fitAddonRef := fitAddonRef st; wsRef := wsRef st;
     networkStatsRef := networkStatsRef st;
     speedUpdateTimerRef := speedUpdateTimerRef st;
     pingTimerRef := pingTimerRef st; sessions := sessions st;
     timers := timers st; console := console st; mounted := mounted st;
     rendered := rendered st; cleanupFn := v |}.

Definition live_socket (w : WebSocket) : bool :=
  match readyState w with CONNECTING | OPEN => true | CLOSING | CLOSED => false end.

Definition live_terminal (x : XTerm) : bool := negb (disposed x).

(** ** Methods of the emulator and of the socket *)

Definition XTerm_call (c : TermCall) (x : XTerm) : XTerm :=
  {| disposed := disposed x; calls := calls x ++ [c]; cols := cols x; rows := rows x |}.

Definition XTerm_dispose (x : XTerm) : XTerm :=
  {| disposed := true; calls := calls x; cols := cols x; rows := rows x |}.

Definition XTerm_fit (c r : N) (x : XTerm) : XTerm :=
  {| disposed := disposed x; calls := calls x; cols := c; rows := r |}.

(** [close(code?)]: nothing happens to a closing or closed socket,
    otherwise the closing handshake starts. *)
Definition WebSocket_close (code : option Z) (w : WebSocket) : WebSocket :=
  {| url := url w;
     readyState := (if live_socket w then CLOSING else readyState w);
     sent := sent w; discarded := discarded w;
     closeCalls := closeCalls w ++ [code] |}.

(** [send(msg)]: an [InvalidStateError] while connecting, a silent
    discard once closing. *)
Definition WebSocket_send (msg : string) (w : WebSocket) : Completion WebSocket :=
  match readyState w with
  | CONNECTING => Throw "InvalidStateError"
  | OPEN =>
      Normal {| url := url w; readyState := OPEN; sent := sent w ++ [msg];
                discarded := discarded w; closeCalls := closeCalls w |}
  | r =>
      Normal {| url := url w; readyState := r; sent := sent w;
                discarded := discarded w ++ [msg]; closeCalls := closeCalls w |}
  end.

Definition WebSocket_set_readyState (r : ReadyState) (w : WebSocket) : WebSocket :=
  {| url := url w; readyState := r; sent := sent w; discarded := discarded w;
     closeCalls := closeCalls w |}.

Definition on_terminal (f : XTerm -> XTerm) (s : Session) : Session :=
  {| terminal := f (terminal s); websocket := websocket s;
     closure_type := closure_type s; resizeObserver := resizeObserver s;
     resizeTimeout := resizeTimeout s |}.

Definition on_websocket (f : WebSocket -> WebSocket) (s : Session) : Session :=
  {| terminal := terminal s; websocket := f (websocket s);
     closure_type := closure_type s; resizeObserver := resizeObserver s;
     resizeTimeout := resizeTimeout s |}.

Definition set_resizeObserver (b : bool) (s : Session) : Session :=
  {| terminal := terminal s; websocket := websocket s;
     closure_type := closure_type s; resizeObserver := b;
     resizeTimeout := resizeTimeout s |}.

Definition set_resizeTimeout (b : bool) (s : Session) : Session :=
  {| terminal := terminal s; websocket := websocket s;
     closure_type := closure_type s; resizeObserver := resizeObserver s;
     resizeTimeout := b |}.

Definition Timer_clear (t : Timer) : Timer :=
  {| kind := kind t; interval := interval t; active := false |}.

(** ** Callbacks as state transformers that may throw *)

Definition M (A : Type) : Type := State -> Completion A * State.

Global Instance M_ret : MRet M := fun A a st => (Normal a, st).

Global Instance M_bind : MBind M := fun A B f m st =>
  match m st with
  | (Normal a, st') => f a st'
  | (Throw e, st') => (Throw e, st')
  end.

Definition throw {A} (e : string) : M A := fun st => (Throw e, st).

Definition lift {A} (c : Completion A) : M A := fun st => (c, st).

Definition gets {A} (f : State -> A) : M A := fun st => (Normal (f st), st).

Definition modify (f : State -> State) : M unit := fun st => (Normal tt, f st).

(** [try { body } catch (err) { handler err }] *)
Definition try_catch (body : M unit) (handler : string -> M unit) : M unit :=
  fun st =>
    match body st with
    | (Normal u, st') => (Normal u, st')
    | (Throw e, st') => handler e st'
    end.

Definition when (b : bool) (m : M unit) : M unit := if b then m else mret tt.

Definition on_session (k : nat) (f : Session -> Session) : M unit :=
  modify (fun st => set_sessions (alter f k (sessions st)) st).

(** A closure always refers to a session that exists (the environment
    only runs callbacks of existing objects, see [step]); the defaults
    below are never used. *)
Definition websocket_readyState (k : nat) : M ReadyState :=
  gets (fun st => default CLOSED (readyState ∘ websocket <$> sessions st !! k)).

Definition terminal_write (k : nat) (data : option Json) : M unit :=
  on_session k (on_terminal (XTerm_call (Write data))).

Definition terminal_writeln (k : nat) (line : string) : M unit :=
  on_session k (on_terminal (XTerm_call (Writeln line))).

Definition terminal_dispose (k : nat) : M unit :=
  on_session k (on_terminal XTerm_dispose).

Definition websocket_close (k : nat) : M unit :=
  on_session k (on_websocket (WebSocket_close None)).

Definition websocket_send (k : nat) (msg : string) : M unit :=
  fun st =>
    match sessions st !! k with
    | None => (Normal tt, st)
    | Some s =>
        match WebSocket_send msg (websocket s) with
        | Throw e => (Throw e, st)
        | Normal w =>
            (Normal tt,
             set_sessions (<[k := on_websocket (fun _ => w) s]> (sessions st)) st)
        end
    end.

Definition console_error (msg : string) : M unit :=
  modify (fun st => set_console (console st ++ [msg]) st).

(** The handle of an interval is its index in [timers].  The browser's
    handles are positive numbers, so a reference that holds one is truthy:
    [if (ref.current)] is the test for [Some]. *)
Definition setInterval (kd : TimerKind) (ms : Z) : M nat :=
  fun st =>
    (Normal (length (timers st)),
     set_timers (timers st ++ [{| kind := kd; interval := ms; active := true |}]) st).

Definition clearInterval (t : nat) : M unit :=
  modify (fun st => set_timers (alter Timer_clear t (timers st)) st).

(** [if (ref.current) clearInterval(ref.current)] *)
Definition clear_if_set (ref : State -> option nat) : M unit :=
  r ← gets ref;
  match r with Some t => clearInterval t | None => mret tt end.

Definition setIsConnected (b : bool) : M unit := modify (set_isConnected b).
Definition setNetworkSpeed (s : NetworkSpeed) : M unit := modify (set_networkSpeed s).
Definition setSelectedPod (s : string) : M unit := modify (set_selectedPod s).
Definition setSelectedContainer (s : string) : M unit := modify (set_selectedContainer s).

Definition zero_speed : NetworkSpeed := {| upload := Number 0; download := Number 0 |}.

(** ** The callbacks of the component *)

Section Terminal.

Variable rt : Runtime.

(** [updateNetworkStats(dataSize, isOutgoing)] *)
Definition updateNetworkStats (dataSize : Z) (isOutgoing : bool) : M unit :=
  modify (fun st =>
    let stats := networkStatsRef st in
    set_networkStatsRef
      (if isOutgoing
       then {| lastReset := lastReset stats; bytesReceived := bytesReceived stats;
               bytesSent := bytesSent stats + dataSize; lastUpdate := lastUpdate stats |}
       else {| lastReset := lastReset stats;
               bytesReceived := bytesReceived stats + dataSize;
               bytesSent := bytesSent stats; lastUpdate := lastUpdate stats |}) st).

(** The first effect: [setSelectedPod(podName || pods?.[0]?.metadata?.name || '')]
    and [setSelectedContainer(containers.length > 0 ? containers[0].name : '')]. *)
Definition first_pod_name (p : TerminalProps) : option string :=
  a ← pods p; q ← head (elems a); metadata_name q.

Definition initial_pod (p : TerminalProps) : string :=
  if negb (falsy_opt (podName p)) then default "" (podName p)
  else if negb (falsy_opt (first_pod_name p)) then default "" (first_pod_name p)
  else "".

Definition initial_container (p : TerminalProps) : string :=
  match containers_of p with c :: _ => name c | [] => "" end.

Definition initSelection (p : TerminalProps) : M unit :=
  setSelectedPod (initial_pod p) ;;
  setSelectedContainer (initial_container p).

(** [handleContainerChange] and [handlePodChange] *)
Definition handleContainerChange (containerName : option string) : M unit :=
  match containerName with
  | Some c => when (negb (falsy c)) (setSelectedContainer c)
  | None => mret tt
  end.

Definition handlePodChange (podName : option string) : M unit :=
  setSelectedPod (if falsy_opt podName then "" else default "" podName).

(** [clearTerminal] *)
Definition clearTerminal : M unit :=
  r ← gets xtermRef;
  match r with
  | Some k => on_session k (on_terminal (XTerm_call Clear))
  | None => mret tt
  end.

(** *** Handlers of the socket of session [k] *)

(** The callback of the 500 ms interval.  [timeDiff], the two rates and
    the two tests on [timeDiff] are computed in binary64 arithmetic, as
    the source computes them; [now - stats.lastReset] is a difference of
    two integer times and is exact. *)
Definition speedTick (now : Z) : M unit :=
  stats ← gets networkStatsRef;
  let timeDiff := divide (Number (now - lastReset stats)) (Number 1000) in
  when (less (Number 0) timeDiff)                       (* timeDiff > 0 *)
    (setNetworkSpeed {| upload := divide (Number (bytesSent stats)) timeDiff;
                        download := divide (Number (bytesReceived stats)) timeDiff |} ;;
     when (at_most (Number 3) timeDiff)                 (* timeDiff >= 3 *)
       (modify (set_networkStatsRef
          {| lastReset := now; bytesReceived := 0; bytesSent := 0;
             lastUpdate := lastUpdate stats |}))).

(** The three senders.  Each one looks at [readyState] first. *)
Definition send_frame (k : nat) (f : Wire.Frame) : M unit :=
  let message := Wire.JSON_stringify f in
  websocket_send k message ;;
  updateNetworkStats (Blob_size message) true.

(** The callback of the 30 s interval set up by session [k]. *)
Definition pingTick (k : nat) : M unit :=
  r ← websocket_readyState k;
  when (bool_decide (r = OPEN)) (send_frame k Wire.ping).

(** [terminal.onData] *)
Definition onData (k : nat) (data : string) : M unit :=
  r ← websocket_readyState k;
  when (bool_decide (r = OPEN)) (send_frame k (Wire.stdin data)).

Definition handleTerminalResize (k : nat) : M unit :=
  fit ← gets fitAddonRef;
  r ← websocket_readyState k;
  when (bool_decide (is_Some fit) && bool_decide (r = OPEN))
    (geometry ← gets (fun st =>
        (fun s => (cols (terminal s), rows (terminal s))) <$> sessions st !! k);
     match geometry with
     | Some (c, r) => send_frame k (Wire.resize c r)
     | None => mret tt
     end).

Definition onopen (k : nat) (now : Z) : M unit :=
  setIsConnected true ;;
  modify (set_networkStatsRef
    {| lastReset := now; bytesReceived := 0; bytesSent := 0; lastUpdate := now |}) ;;
  setNetworkSpeed zero_speed ;;
  clear_if_set speedUpdateTimerRef ;;
  t ← setInterval SpeedUpdate 500;
  modify (set_speedUpdateTimerRef (Some t)) ;;
  clear_if_set pingTimerRef ;;
  t ← setInterval (Keepalive k) 30000;
  modify (set_pingTimerRef (Some t)) ;;
  ty ← gets (fun st => default pod (closure_type <$> sessions st !! k));
  terminal_writeln k (green ("Connected to " +:+ type_name ty +:+ " terminal!")) ;;
  terminal_writeln k "".

Definition is_stdio (t : string) : bool :=
  bool_decide (t = "stdout") || bool_decide (t = "stderr").

Definition dispatch (k : nat) (message : Json) (ty : option Json) : M unit :=
  match ty with
  | Some (JStr t) =>
      if is_stdio t then
        data ← lift (get_field "data" message);
        terminal_write k data
      else if bool_decide (t = "info") then
        data ← lift (get_field "data" message);
        line ← lift (template data);
        terminal_writeln k (blue line)
      else if bool_decide (t = "connected") then
        data ← lift (get_field "data" message);
        line ← lift (template data);
        terminal_writeln k (green line)
      else if bool_decide (t = "error") then
        data ← lift (get_field "data" message);
        line ← lift (template data);
        terminal_writeln k (red ("Error: " +:+ line)) ;;
        setIsConnected false
      else mret tt                       (* 'pong' and every other type *)
  | _ => mret tt
  end.

Definition onmessage (k : nat) (data : string) : M unit :=
  try_catch
    (message ← (match JSON_parse rt data with
                | Some m => mret m
                | None => throw "SyntaxError"
                end);
     updateNetworkStats (Blob_size data) false ;;
     ty ← lift (get_field "type" message);
     dispatch k message ty)
    (fun err => console_error ("Failed to parse WebSocket message: " +:+ err)).

Definition onerror (k : nat) : M unit :=
  console_error "WebSocket error:" ;;
  terminal_writeln k (red "WebSocket connection error") ;;
  setIsConnected false.

Definition NORMAL_CLOSURE : Z := 1000.

Definition onclose (k : nat) (code : Z) : M unit :=
  setIsConnected false ;;
  setNetworkSpeed zero_speed ;;
  r ← gets speedUpdateTimerRef;
  match r with
  | Some t => clearInterval t ;; modify (set_speedUpdateTimerRef None)
  | None => mret tt
  end ;;
  r ← gets pingTimerRef;
  match r with
  | Some t => clearInterval t ;; modify (set_pingTimerRef None)
  | None => mret tt
  end ;;
  if bool_decide (code ≠ NORMAL_CLOSURE)
  then terminal_writeln k (red "Connection closed unexpectedly")
  else terminal_writeln k (green "Connection closed").

(** *** The lifecycle effect *)

(** The early returns at the top of the effect, as the source nests them:
    the test of [selectedPod] sits under the test for a missing or empty
    [pods] list. *)
Definition returns_early (p : TerminalProps) (selectedPod selectedContainer : string)
    (terminalRef : bool) : bool :=
  (match type_of p with
   | pod =>
       (match pods p with
        | None => falsy selectedPod
        | Some a => if bool_decide (length (elems a) = 0) then falsy selectedPod else false
        end)
       || falsy selectedContainer
   | node => false
   end)
  || (bool_decide (type_of p = node) && falsy_opt (nodeName p))
  || negb terminalRef.

Definition wsUrl (p : TerminalProps) (selectedPod selectedContainer : string) : string :=
  let protocol :=
    if bool_decide (location_protocol rt = "https:") then "wss:" else "ws:" in
  let isDev := bool_decide (NODE_ENV rt = "development") in
  let host := if isDev then "localhost:8080" else location_host rt in
  let currentCluster := default "null" (current_cluster rt) in
  match type_of p with
  | pod =>
      protocol +:+ "//" +:+ host +:+ "/api/v1/terminal/" +:+ show (namespace p)
        +:+ "/" +:+ selectedPod +:+ "/ws?container=" +:+ selectedContainer
        +:+ "&x-cluster-name=" +:+ currentCluster
  | node =>
      protocol +:+ "//" +:+ host +:+ "/api/v1/node-terminal/" +:+ show (nodeName p)
        +:+ "/ws?x-cluster-name=" +:+ currentCluster
  end.

(** What [new XTerm], [fitAddon.fit()] and [new WebSocket(wsUrl)] leave:
    a fresh emulator with the fitted geometry and a connecting socket
    (both constructors are taken to succeed).  The resize observer is
    always installed, because [fitAddonRef.current] has just been set and
    an opened emulator has an element; the 100 ms timeout is pending. *)
Definition new_session (p : TerminalProps) (u : string) (fit : N * N) : Session :=
  {| terminal := {| disposed := false; calls := []; cols := fit.1; rows := fit.2 |};
     websocket := {| url := u; readyState := CONNECTING; sent := []; discarded := [];
                     closeCalls := [] |};
     closure_type := type_of p;
     resizeObserver := true;
     resizeTimeout := true |}.

(** [if (xtermRef.current) xtermRef.current.dispose()] and
    [if (wsRef.current) wsRef.current.close()] *)
Definition dispose_previous : M unit :=
  x ← gets xtermRef;
  match x with Some k => terminal_dispose k | None => mret tt end ;;
  w ← gets wsRef;
  match w with Some k => websocket_close k | None => mret tt end.

(** The part of the effect after the guards.  [fit] is the geometry that
    [fitAddon.fit()] finds for the new emulator.  The handlers are the
    definitions above, closed over the index [k] of the new session. *)
Definition construct (p : TerminalProps) (selectedPod selectedContainer : string)
    (fit : N * N) : M unit :=
  k ← gets (fun st => length (sessions st));
  modify (fun st =>
    set_sessions
      (sessions st ++ [new_session p (wsUrl p selectedPod selectedContainer) fit]) st) ;;
  modify (set_xtermRef (Some k)) ;;
  modify (set_fitAddonRef (Some k)) ;;
  setIsConnected false ;;
  modify (set_wsRef (Some k)) ;;
  modify (set_cleanupFn (Some k)).

Definition lifecycle (p : TerminalProps) (selectedPod selectedContainer : string)
    (fit : N * N) : M unit :=
  ref ← gets terminalRef;
  if returns_early p selectedPod selectedContainer ref then mret tt
  else dispose_previous ;; construct p selectedPod selectedContainer fit.

(** The function the effect returns, for session [k]. *)
Definition cleanup (k : nat) : M unit :=
  on_session k (set_resizeObserver false) ;;
  terminal_dispose k ;;
  websocket_close k ;;
  clear_if_set speedUpdateTimerRef ;;
  clear_if_set pingTimerRef.

(** *** React: commit of a render, and unmount *)

Definition runCleanup : M unit :=
  c ← gets cleanupFn;
  match c with
  | Some k => cleanup k ;; modify (set_cleanupFn None)
  | None => mret tt
  end.

(** Dependencies [podName, pods, containers] of the first effect. *)
Definition selection_deps_changed (prev : option Rendered) (p : TerminalProps) : bool :=
  match prev with
  | None => true
  | Some r =>
      negb (bool_decide (podName (r_props r) = podName p)
            && bool_decide (identity <$> pods (r_props r) = identity <$> pods p)
            && match containers (r_props r), containers p with
               | Some a, Some b => bool_decide (identity a = identity b)
               | _, _ => false          (* the default [[]] is a fresh array *)
               end)
  end.

(** Dependencies [selectedPod, selectedContainer, namespace, type,
    updateNetworkStats] of the lifecycle effect; the last one is a
    [useCallback] without dependencies and never changes. *)
Definition lifecycle_deps_changed (prev : option Rendered) (p : TerminalProps)
    (selectedPod selectedContainer : string) : bool :=
  match prev with
  | None => true
  | Some r =>
      negb (bool_decide (r_selectedPod r = selectedPod)
            && bool_decide (r_selectedContainer r = selectedContainer)
            && bool_decide (namespace (r_props r) = namespace p)
            && bool_decide (type_of (r_props r) = type_of p))
  end.

(** The effects of one commit, after the cleanups. *)
Definition run_effects (p : TerminalProps) (sp sc : string) (fit : N * N)
    (reselect rebuild : bool) : M unit :=
  when reselect (initSelection p) ;;
  when rebuild (lifecycle p sp sc fit) ;;
  modify (set_rendered
            (Some {| r_props := p; r_selectedPod := sp; r_selectedContainer := sc |})).

(** One render with props [p] and its commit: cleanups of the effects
    whose dependencies changed, then those effects in source order.  The
    effects see the state values of this render; what [initSelection]
    sets is seen by the next render. *)
Definition render (p : TerminalProps) (fit : N * N) : M unit :=
  prev ← gets rendered;
  sp ← gets selectedPod;
  sc ← gets selectedContainer;
  let rebuild := lifecycle_deps_changed prev p sp sc in
  modify (set_terminalRef true) ;;
  when rebuild runCleanup ;;
  run_effects p sp sc fit (selection_deps_changed prev p) rebuild.

Definition unmount : M unit :=
  runCleanup ;;
  modify (set_mounted false) ;;
  modify (set_terminalRef false).

(** ** The environment *)

Inductive Event : Type :=
| Render (p : TerminalProps) (fit : N * N)
| Unmount
| PodChange (podName : option string)         (* the pod selector *)
| ContainerChange (containerName : option string)
| ClearTerminal
| WsOpen (k : nat) (now : Z)                  (* the socket of session [k] opened *)
| WsMessage (k : nat) (data : string)
| WsClose (k : nat) (failed : bool) (code : Z)
| SpeedTick (t : nat) (now : Z)               (* interval [t] fires *)
| PingTick (t : nat)
| ResizeTimeout (k : nat)                     (* the 100 ms timeout of session [k] *)
| ResizeObserved (k : nat)                    (* ResizeObserver notification *)
| TermData (k : nat) (data : string)          (* the user typed *)
| Refit (k : nat) (cols rows : N).            (* [fitAddon.fit()] changed the geometry *)

Definition socket_state (k : nat) (st : State) : option ReadyState :=
  readyState ∘ websocket <$> sessions st !! k.

Definition shown_pods (st : State) : bool :=
  match rendered st with
  | Some r => match pods (r_props r) with
              | Some a => bool_decide (0 < length (elems a))
              | None => false
              end
  | None => false
  end.

Definition shown_containers (st : State) : bool :=
  match rendered st with
  | Some r => bool_decide (1 < length (containers_of (r_props r)))
  | None => false
  end.

(** Which events the browser and React can deliver in a state.
    - The selectors exist only while mounted and when the last render
      showed them.
    - [open] is fired on a connecting socket, [message] on an open one.
    - When a connection ends, the browser sets [readyState] to CLOSED,
      fires [error] if the connection failed and then fires [close]; that
      is one task, and it happens once per socket.
    - A cleared interval does not fire; a disposed emulator reports no
      input and is not refitted; a disconnected observer is silent. *)
Definition enabled (ev : Event) (st : State) : bool :=
  match ev with
  | Render _ _ | Unmount | ClearTerminal => mounted st
  | PodChange _ => mounted st && shown_pods st
  | ContainerChange _ => mounted st && shown_containers st
  | WsOpen k _ => bool_decide (socket_state k st = Some CONNECTING)
  | WsMessage k _ => bool_decide (socket_state k st = Some OPEN)
  | WsClose k _ _ =>
      match socket_state k st with
      | Some CLOSED | None => false
      | Some _ => true
      end
  | SpeedTick t _ =>
      match timers st !! t with
      | Some tm => active tm && bool_decide (kind tm = SpeedUpdate)
      | None => false
      end
  | PingTick t =>
      match timers st !! t with
      | Some tm => active tm && match kind tm with Keepalive _ => true | _ => false end
      | None => false
      end
  | ResizeTimeout k =>
      match sessions st !! k with Some s => resizeTimeout s | None => false end
  | ResizeObserved k =>
      match sessions st !! k with Some s => resizeObserver s | None => false end
  | TermData k _ | Refit k _ _ =>
      match sessions st !! k with Some s => live_terminal (terminal s) | None => false end
  end.

(** What runs when the event is delivered. *)
Definition handler (ev : Event) : M unit :=
  match ev with
  | Render p fit => render p fit
  | Unmount => unmount
  | PodChange v => handlePodChange v
  | ContainerChange v => handleContainerChange v
  | ClearTerminal => clearTerminal
  | WsOpen k now =>
      on_session k (on_websocket (WebSocket_set_readyState OPEN)) ;;
      onopen k now
  | WsMessage k data => onmessage k data
  | WsClose k failed code =>
      on_session k (on_websocket (WebSocket_set_readyState CLOSED)) ;;
      when failed (onerror k) ;;
      onclose k code
  | SpeedTick _ now => speedTick now
  | PingTick t =>
      kd ← gets (fun st => kind <$> timers st !! t);
      match kd with
      | Some (Keepalive k) => pingTick k
      | _ => mret tt
      end
  | ResizeTimeout k =>
      on_session k (set_resizeTimeout false) ;;
      handleTerminalResize k
  | ResizeObserved k => handleTerminalResize k
  | TermData k data => onData k data
  | Refit k c r => on_session k (on_terminal (XTerm_fit c r))
  end.

(** One step: the store after the callback, whether it returned or
    threw. *)
Definition step (ev : Event) (st : State) : option State :=
  if enabled ev st then Some (handler ev st).2 else None.

Fixpoint run (evs : list Event) (st : State) : option State :=
  match evs with
  | [] => Some st
  | ev :: evs' => match step ev st with Some st' => run evs' st' | None => None end
  end.

End Terminal.

(** The component before its first render; [now] is [Date.now()] when
    [networkStatsRef] is initialised. *)
Definition initial (now : Z) : State :=
  {| selectedPod := ""; selectedContainer := ""; isConnected := false;
     networkSpeed := zero_speed;
     terminalRef := false; xtermRef := None; fitAddonRef := None; wsRef := None;
     networkStatsRef := {| lastReset := now; bytesReceived := 0; bytesSent := 0;
                           lastUpdate := now |};
     speedUpdateTimerRef := None; pingTimerRef := None;
     sessions := []; timers := []; console := [];
     mounted := true; rendered := None; cleanupFn := None |}.

Inductive reachable (rt : Runtime) : State -> Prop :=
| reachable_initial now : reachable rt (initial now)
| reachable_step ev st st' :
    reachable rt st -> step rt ev st = Some st' -> reachable rt st'.

(** * Notions used in the statements *)

(** The calls made so far on the emulator of session [k]. *)
Definition terminal_calls (k : nat) (st : State) : list TermCall :=
  default [] (calls ∘ terminal <$> sessions st !! k).

(** The raw output stream of an emulator: the arguments of its [write]
    calls, in order. *)
Definition stream (cs : list TermCall) : list (option Json) :=
  omap (fun c => match c with Write d => Some d | _ => None end) cs.

(** The [data] of an inbound text when it is a frame of type [stdout] or
    [stderr]. *)
Definition stdio_payload (rt : Runtime) (data : string) : option (option Json) :=
  match JSON_parse rt data with
  | Some (JObj fields) =>
      match own_property "type" fields with
      | Some (JStr t) => if is_stdio t then Some (own_property "data" fields) else None
      | _ => None
      end
  | _ => None
  end.

(** The message handler of session [k] run on a sequence of inbound
    texts. *)
Definition deliver (rt : Runtime) (k : nat) (datas : list string) (st : State) : State :=
  foldl (fun st data => (onmessage rt k data st).2) st datas.

Definition at_most_one_live (st : State) : Prop :=
  (forall j k s s',
      sessions st !! j = Some s -> sessions st !! k = Some s' ->
      live_socket (websocket s) = true -> live_socket (websocket s') = true -> j = k)
  /\ (forall j k s s',
      sessions st !! j = Some s -> sessions st !! k = Some s' ->
      live_terminal (terminal s) = true -> live_terminal (terminal s') = true -> j = k).

(** Nothing of any session is left: every emulator is disposed, every
    socket is closing or closed, no interval is running. *)
Definition torn_down (st : State) : Prop :=
  (forall k s, sessions st !! k = Some s ->
      live_terminal (terminal s) = false /\ live_socket (websocket s) = false)
  /\ (forall t tm, timers st !! t = Some tm -> active tm = false).

Definition is_WsOpen (ev : Event) : bool :=
  match ev with WsOpen _ _ => true | _ => false end.

Definition is_keepalive (tm : Timer) : bool :=
  match kind tm with Keepalive _ => true | SpeedUpdate => false end.

Definition interval_of (kd : TimerKind) : Z :=
  match kd with SpeedUpdate => 500 | Keepalive _ => 30000 end.

(** What holds in every reachable state. *)
Record Inv (st : State) : Prop := {
  inv_live : forall k s,
    sessions st !! k = Some s ->
    live_terminal (terminal s) || live_socket (websocket s) = true ->
    cleanupFn st = Some k;
  inv_timer_ref : forall t tm,
    timers st !! t = Some tm -> active tm = true ->
    match kind tm with
    | SpeedUpdate => speedUpdateTimerRef st = Some t
    | Keepalive _ => pingTimerRef st = Some t
    end;
  inv_timer_owner : forall t tm,
    timers st !! t = Some tm -> active tm = true -> is_Some (cleanupFn st);
  inv_interval : forall t tm,
    timers st !! t = Some tm -> interval tm = interval_of (kind tm);
  inv_speed_bound : forall t,
    speedUpdateTimerRef st = Some t -> t < length (timers st);
  inv_ping_bound : forall t,
    pingTimerRef st = Some t -> t < length (timers st);
  inv_discarded : forall k s,
    sessions st !! k = Some s -> discarded (websocket s) = []
}.

(** A change of a session that revives nothing and discards nothing. *)
Definition benign (g : Session -> Session) : Prop :=
  forall s,
    (live_terminal (terminal (g s)) = true -> live_terminal (terminal s) = true)
    /\ (live_socket (websocket (g s)) = true -> live_socket (websocket s) = true)
    /\ discarded (websocket (g s)) = discarded (websocket s).

(** [if (ref.current) clearInterval(ref.current)] on the list of timers. *)
Definition clear_opt (ref : option nat) (l : list Timer) : list Timer :=
  match ref with Some t => alter Timer_clear t l | None => l end.

(** Both intervals of the component cleared. *)
Definition both_cleared (st : State) : list Timer :=
  clear_opt (pingTimerRef st) (clear_opt (speedUpdateTimerRef st) (timers st)).

(** The store after [onopen] has reset the counters and restarted both
    intervals, before it greets. *)
Definition restarted (k : nat) (now : Z) (st : State) : State :=
  let speed := clear_opt (speedUpdateTimerRef st) (timers st)
               ++ [{| kind := SpeedUpdate; interval := 500; active := true |}] in
  let both := clear_opt (pingTimerRef st) speed
              ++ [{| kind := Keepalive k; interval := 30000; active := true |}] in
  set_pingTimerRef (Some (length (clear_opt (pingTimerRef st) speed)))
    (set_timers both
       (set_speedUpdateTimerRef
          (Some (length (clear_opt (speedUpdateTimerRef st) (timers st))))
          (set_networkSpeed zero_speed
             (set_networkStatsRef
                {| lastReset := now; bytesReceived := 0; bytesSent := 0; lastUpdate := now |}
                (set_isConnected true st))))).

(** The traffic meter is at rest: the displayed rates are zero and no
    sampling interval is running. *)
Definition meter_idle (st : State) : Prop :=
  networkSpeed st = zero_speed
  /\ forall t tm, timers st !! t = Some tm -> kind tm = SpeedUpdate -> active tm = false.

(** Between [st0] and [st] no socket was handed a message. *)
Definition same_sent (st0 st : State) : Prop :=
  forall k s0, sessions st0 !! k = Some s0 ->
    exists s, sessions st !! k = Some s /\ sent (websocket s) = sent (websocket s0).

(** Between [st0] and [st] only sockets that were OPEN in [st0] were
    handed messages, and no other socket became OPEN. *)
Definition sent_while_open (st0 st : State) : Prop :=
  forall k s0, sessions st0 !! k = Some s0 ->
    exists s, sessions st !! k = Some s
              /\ (readyState (websocket s0) = OPEN
                  \/ (sent (websocket s) = sent (websocket s0)
                      /\ readyState (websocket s) <> OPEN)).

(** A change of a session that sends nothing and opens nothing. *)
Definition quiet (g : Session -> Session) : Prop :=
  forall s, sent (websocket (g s)) = sent (websocket s)
            /\ (readyState (websocket (g s)) = OPEN -> readyState (websocket s) = OPEN).

(** ** Sample inputs *)

Module Sample.

(** The text of an inbound frame [{"type":ty,"data":data}] and the value
    [JSON.parse] gives for it. *)
Definition frame_text (ty data : string) : string :=
  "{" +:+ Wire.key "type" +:+ Wire.quote ty +:+ "," +:+ Wire.key "data"
      +:+ Wire.quote data +:+ "}".

Definition frame_json (ty data : string) : Json :=
  JObj [("type", JStr ty); ("data", JStr data)].

Definition texts : list (string * Json) :=
  [ (frame_text "connected" "ready", frame_json "connected" "ready");
    (frame_text "stdout" "$ ", frame_json "stdout" "$ ");
    (frame_text "stderr" "sh: ls: not found", frame_json "stderr" "sh: ls: not found");
    (frame_text "info" "resized", frame_json "info" "resized");
    (frame_text "error" "exec failed", frame_json "error" "exec failed");
    ("{" +:+ Wire.key "type" +:+ Wire.quote "pong" +:+ "}", JObj [("type", JStr "pong")]);
    ("null", JNull) ].

Fixpoint assoc (data : string) (l : list (string * Json)) : option Json :=
  match l with
  | [] => None
  | (text, v) :: rest => if decide (text = data) then Some v else assoc data rest
  end.

(** [JSON.parse] restricted to the texts above, and to texts that are
    not JSON at all; the examples feed it nothing else. *)
Definition parse (data : string) : option Json := assoc data texts.

Definition rt : Runtime :=
  {| location_protocol := "https:";
     location_host := "kite.example.com";
     NODE_ENV := "production";
     current_cluster := Some "prod";
     JSON_parse := parse |}.

(** A pod page: two pods, one container. *)
Definition props : TerminalProps :=
  {| type := None;
     namespace := Some "default";
     podName := None;
     nodeName := None;
     pods := Some {| identity := 1;
                     elems := [ {| metadata_name := Some "web-1" |};
                                {| metadata_name := Some "web-2" |} ] |};
     containers := Some {| identity := 2; elems := [ {| name := "app" |} ] |} |}.

Definition fit : N * N := (80, 24)%N.

(** Mount: the first commit sets the selection, the second one builds the
    session for [web-1]/[app]. *)
Definition mount : list Event := [Render props fit; Render props fit].

(** ... then the socket opens. *)
Definition connect : list Event := mount ++ [WsOpen 0 1000].

(** ... then the user picks the other pod and React renders again. *)
Definition switch_pod : list Event := connect ++ [PodChange (Some "web-2"); Render props fit].

(** The pod selector reports an empty selection. *)
Definition clear_pod : list Event := mount ++ [PodChange None; Render props fit].

(** Two notifications of the resize observer while the geometry stays
    80 x 24. *)
Definition observe_twice : list Event := connect ++ [ResizeObserved 0; ResizeObserved 0].

Definition after (evs : list Event) : State := default (initial 0) (run rt evs (initial 0)).

End Sample.

(** ** Further notions: what is sent, what is counted, what is shown *)

(** The text of one of the three outbound frames. *)
Definition is_frame_text (m : string) : Prop := exists f, m = Wire.JSON_stringify f.

(** Every message handed to a socket so far is the text of a frame. *)
Definition frames_only (st : State) : Prop :=
  forall k s, sessions st !! k = Some s -> Forall is_frame_text (sent (websocket s)).

(** The bytes of all the messages handed to the socket of a session, and
    to all the sockets of the component. *)
Definition sent_bytes (s : Session) : Z :=
  foldr (fun m acc => (Blob_size m + acc)%Z) 0%Z (sent (websocket s)).

Definition total_sent (st : State) : Z :=
  foldr (fun s acc => (sent_bytes s + acc)%Z) 0%Z (sessions st).

(** The traffic counters are sound: they are not negative, and the
    counter of sent bytes does not exceed what was really sent. *)
Definition meter_ok (st : State) : Prop :=
  (0 <= bytesSent (networkStatsRef st) <= total_sent st)%Z
  /\ (0 <= bytesReceived (networkStatsRef st))%Z.



(** A socket that has opened and whose close event is still to come. *)
Definition socket_up (s : Session) : Prop :=
  readyState (websocket s) = OPEN \/ readyState (websocket s) = CLOSING.

(** The indicator shows connected only while such a socket exists. *)
Definition indicator_ok (st : State) : Prop :=
  isConnected st = true -> exists k s, sessions st !! k = Some s /\ socket_up s.

(** The three object references hold the session built last, or nothing
    when none was built. *)
Definition refs_newest (st : State) : Prop :=
  wsRef st = xtermRef st /\ fitAddonRef st = xtermRef st
  /\ match xtermRef st with
     | Some k => S k = length (sessions st)
     | None => sessions st = []
     end.

(** A change of a session that leaves the messages sent as they are. *)
Definition keeps_sent (g : Session -> Session) : Prop :=
  forall s, sent (websocket (g s)) = sent (websocket s).

(** A change of a session after which an opened socket is still open or
    closing. *)
Definition keeps_up (g : Session -> Session) : Prop :=
  forall s, socket_up s -> socket_up (g s).

(** * The breadcrumb of the dashboard

    [generateBreadcrumbs] of the [DynamicBreadcrumb] component: a pure
    function of [location.pathname]. *)

Module Breadcrumb.

(** [pathname.split('/')]: the pieces between the slashes, empty ones
    included; the empty string gives one empty piece. *)
Fixpoint split (s : string) : list string :=
  match s with
  | EmptyString => [EmptyString]
  | String c rest =>
      if Ascii.eqb c "/" then EmptyString :: split rest
      else match split rest with
           | seg :: segs => String c seg :: segs
           | [] => [String c EmptyString]
           end
  end.

(** [pathname.split('/').filter(Boolean)] *)
Definition pathSegments (pathname : string) : list string :=
  filter (fun seg => seg <> EmptyString) (split pathname).

(** [segments.join('/')] *)
Definition join (segs : list string) : string := String.concat "/" segs.

Definition resourceLabels : list (string * string) :=
  [ ("pods", "Pods"); ("deployments", "Deployments"); ("services", "Services");
    ("configmaps", "ConfigMaps"); ("secrets", "Secrets"); ("ingresses", "Ingresses");
    ("gateways", "Gateways"); ("httproutes", "HTTPRoutes"); ("jobs", "Jobs");
    ("daemonsets", "DaemonSets"); ("statefulsets", "StatefulSets");
    ("namespaces", "Namespaces"); ("pvcs", "PVCs"); ("crds", "CRDs");
    ("crs", "Custom Resources") ].

(** The names an object literal inherits from [Object.prototype]; the
    value of each is a function or an object, hence truthy. *)
Definition Object_prototype : list string :=
  [ "constructor"; "__defineGetter__"; "__defineSetter__"; "hasOwnProperty";
    "__lookupGetter__"; "__lookupSetter__"; "isPrototypeOf"; "propertyIsEnumerable";
    "toString"; "valueOf"; "__proto__"; "toLocaleString" ].

(** What ends up in the [label] field: a string, or the inherited member
    that the lookup found. *)
Inductive Label : Type :=
| Text (s : string)
| Inherited (member : string).

Record BreadcrumbSegment : Type := { label : Label; href : option string }.

Fixpoint own (k : string) (table : list (string * string)) : option string :=
  match table with
  | [] => None
  | (k', v) :: rest => if decide (k = k') then Some v else own k rest
  end.

(** [resourceLabels[label] || label] *)
Definition lookup_label (segment : string) : Label :=
  match own segment resourceLabels with
  | Some l => if falsy l then Text segment else Text l
  | None =>
      if bool_decide (segment ∈ Object_prototype) then Inherited segment
      else Text segment
  end.

Definition createBreadcrumb (segment : string) (link : option string) : BreadcrumbSegment :=
  {| label := lookup_label segment; href := link |}.

(** [getSafeLink(index)] for the segments of the current path. *)
Definition getSafeLink (segs : list string) (index : nat) : option string :=
  if bool_decide (Z.of_nat index = Z.of_nat (length segs) - 1)%Z then None
  else if bool_decide (segs !! 0 = Some "crds") then
    if bool_decide (index = 0) then Some "/crds"
    else if bool_decide (index = 1) then Some ("/crds/" +:+ show (segs !! 1))
    else if bool_decide (index = 2) then Some ("/crds/" +:+ show (segs !! 1))
    else None
  else
    let isNamespace := bool_decide (length segs = 3) && bool_decide (index = 1) in
    if isNamespace then Some ("/" +:+ show (segs !! 0))
    else Some ("/" +:+ join (take (index + 1) segs)).

Definition generateBreadcrumbs (pathname : string) : list BreadcrumbSegment :=
  let segs := pathSegments pathname in
  if bool_decide (length segs = 0) then []
  else imap (fun index segment => createBreadcrumb segment (getSafeLink segs index)) segs.

(** What the component renders for one crumb: a link when [href] is
    truthy, the page marker otherwise. *)
Inductive Item : Type :=
| LinkTo (to : string) (l : Label)
| Page (l : Label).

Definition render_crumb (c : BreadcrumbSegment) : Item :=
  match href c with
  | Some h => if falsy h then Page (label c) else LinkTo h (label c)
  | None => Page (label c)
  end.

(** A path segment: not empty and without a slash. *)
Fixpoint slash_free (s : string) : bool :=
  match s with
  | EmptyString => true
  | String c rest => negb (Ascii.eqb c "/") && slash_free rest
  end.

Definition segment (s : string) : Prop := s <> EmptyString /\ slash_free s = true.

End Breadcrumb.

(** * The page behind a resource path

    [ResourceList]: the list page the router shows for [/:resource]. *)

Module Pages.

Inductive ListPage : Type :=
| PodListPage | NamespaceListPage | IngressListPage | DeploymentListPage
| ServiceListPage | JobListPage | StatefulSetListPage | DaemonSetListPage
| ConfigMapListPage | SecretListPage | PVCListPage | CRDListPage
| GatewayListPage | HTTPRouteListPage
| SimpleListPage (resourceType : option string).

Definition dedicated : list (string * ListPage) :=
  [ ("pods", PodListPage); ("namespaces", NamespaceListPage);
    ("ingresses", IngressListPage); ("deployments", DeploymentListPage);
    ("services", ServiceListPage); ("jobs", JobListPage);
    ("statefulsets", StatefulSetListPage); ("daemonsets", DaemonSetListPage);
    ("configmaps", ConfigMapListPage); ("secrets", SecretListPage);
    ("persistentvolumeclaims", PVCListPage); ("crds", CRDListPage);
    ("gateways", GatewayListPage); ("httproutes", HTTPRouteListPage) ].

Fixpoint case_of (resource : string) (cases : list (string * ListPage)) : option ListPage :=
  match cases with
  | [] => None
  | (k, page) :: rest => if decide (resource = k) then Some page else case_of resource rest
  end.

(** The [switch (resource)]; [resource] is [undefined] when the route
    has no such parameter. *)
Definition ResourceList (resource : option string) : ListPage :=
  match resource with
  | Some r => default (SimpleListPage resource) (case_of r dedicated)
  | None => SimpleListPage None
  end.

End Pages.

(** * The theme of the terminal

    [cycleTheme] and the part of [handleThemeChange] that sets the state
    and persists it.  The table of themes lives in another module of the
    dashboard; [themes] stands for [Object.keys(TERMINAL_THEMES)].  The
    component renders only with a theme of the table (the render reads
    [TERMINAL_THEMES[terminalTheme].name]), so the statements below are
    about such themes. *)

Module Theme.

Record Settings : Type := {
  terminalTheme : option string;
  saved : option string          (* [localStorage['terminal-theme']] *)
}.

(** The initialiser of the state: [(saved as TerminalTheme) || 'classic']. *)
Definition initial_theme (stored : option string) : string :=
  if falsy_opt stored then "classic" else default "" stored.

(** [themes.indexOf(t)]: the first index, or -1. *)
Fixpoint indexOf (themes : list string) (t : string) : Z :=
  match themes with
  | [] => -1
  | x :: rest =>
      if decide (x = t) then 0
      else let i := indexOf rest t in
           if bool_decide (i = -1)%Z then -1 else i + 1
  end%Z.

(** [themes[(themes.indexOf(current) + 1) % themes.length]]; the
    remainder by zero is [NaN], and [themes[NaN]] is [undefined]. *)
Definition next_theme (themes : list string) (current : option string) : option string :=
  let currentIndex := match current with Some t => indexOf themes t | None => (-1)%Z end in
  if bool_decide (length themes = 0) then None
  else themes !! Z.to_nat (Z.rem (currentIndex + 1) (Z.of_nat (length themes))).

(** [setTerminalTheme(theme)] and
    [localStorage.setItem('terminal-theme', theme)]. *)
Definition handleThemeChange (theme : option string) (s : Settings) : Settings :=
  {| terminalTheme := theme; saved := Some (show theme) |}.

Definition cycleTheme (themes : list string) (s : Settings) : Settings :=
  handleThemeChange (next_theme themes (terminalTheme s)) s.

End Theme.

(** * Properties *)

(** ** Reasoning about callbacks *)

Definition preserves {A} (P : State -> Prop) (m : M A) : Prop :=
  forall st, P st -> P (m st).2.

Definition returns {A} (m : M A) : Prop :=
  forall st, is_normal (m st).1 = true.

Lemma run_bind {A B} (m : M A) (f : A -> M B) st :
  (m ≫= f) st =
  match m st with
  | (Normal a, st') => f a st'
  | (Throw e, st') => (Throw e, st')
  end.
Proof. reflexivity. Qed.

Lemma run_ret {A} (a : A) st : (mret a : M A) st = (Normal a, st).
Proof. reflexivity. Qed.

Section Combinators.

Context (P : State -> Prop).

Lemma preserves_ret {A} (a : A) : preserves P (mret a : M A).
Proof. intros st H. exact H. Qed.

Lemma preserves_bind {A B} (m : M A) (f : A -> M B) :
  preserves P m -> (forall a, preserves P (f a)) -> preserves P (m ≫= f).
Proof.
  intros Hm Hf st H. rewrite run_bind.
  specialize (Hm st H). destruct (m st) as [[a|e] st']; simpl in *.
  - by apply Hf.
  - done.
Qed.

Lemma preserves_gets {A} (f : State -> A) : preserves P (gets f).
Proof. intros st H. exact H. Qed.

Lemma preserves_lift {A} (c : Completion A) : preserves P (lift c).
Proof. intros st H. exact H. Qed.

Lemma preserves_throw {A} e : preserves P (throw e : M A).
Proof. intros st H. exact H. Qed.

Lemma preserves_when b (m : M unit) : preserves P m -> preserves P (when b m).
Proof. intros Hm. destruct b; [exact Hm | apply preserves_ret]. Qed.

Lemma preserves_try_catch body handler :
  preserves P body -> (forall e, preserves P (handler e)) ->
  preserves P (try_catch body handler).
Proof.
  intros Hb Hh st H. unfold try_catch.
  specialize (Hb st H). destruct (body st) as [[u|e] st']; simpl in *.
  - done.
  - by apply Hh.
Qed.

Lemma preserves_modify (f : State -> State) :
  (forall st, P st -> P (f st)) -> preserves P (modify f).
Proof. intros Hf st H. by apply Hf. Qed.

End Combinators.

Lemma returns_ret {A} (a : A) : returns (mret a : M A).
Proof. intros st. reflexivity. Qed.

Lemma returns_bind {A B} (m : M A) (f : A -> M B) :
  returns m -> (forall a, returns (f a)) -> returns (m ≫= f).
Proof.
  intros Hm Hf st. rewrite run_bind. specialize (Hm st).
  destruct (m st) as [[a|e] st']; simpl in *; [apply Hf | done].
Qed.

Lemma returns_gets {A} (f : State -> A) : returns (gets f).
Proof. intros st. reflexivity. Qed.

Lemma returns_modify f : returns (modify f).
Proof. intros st. reflexivity. Qed.

Lemma returns_when b (m : M unit) : returns m -> returns (when b m).
Proof. intros Hm. destruct b; [exact Hm | apply returns_ret]. Qed.

Lemma returns_try_catch body handler :
  (forall e, returns (handler e)) -> returns (try_catch body handler).
Proof.
  intros Hh st. unfold try_catch.
  destruct (body st) as [[u|e] st']; [reflexivity | apply Hh].
Qed.

Create HintDb callbacks.

#[export] Hint Resolve preserves_ret preserves_bind preserves_gets preserves_lift
  preserves_throw preserves_when preserves_try_catch : callbacks.
#[export] Hint Resolve returns_ret returns_bind returns_gets returns_modify
  returns_when returns_try_catch : callbacks.

(** ** The invariant and the primitive operations *)

Lemma Inv_frame st st' :
  Inv st ->
  sessions st' = sessions st -> timers st' = timers st ->
  speedUpdateTimerRef st' = speedUpdateTimerRef st ->
  pingTimerRef st' = pingTimerRef st ->
  cleanupFn st' = cleanupFn st ->
  Inv st'.
Proof.
  intros [H1 H2 H3 H4 H5 H6 H7] Es Et Er Ep Ec.
  split; rewrite ?Es, ?Et, ?Er, ?Ep, ?Ec; assumption.
Qed.

Ltac frame :=
  apply preserves_modify; intros ? ?; eapply Inv_frame; [eassumption | reflexivity ..].

Lemma Inv_setIsConnected b : preserves Inv (setIsConnected b).
Proof. frame. Qed.

Lemma Inv_setNetworkSpeed v : preserves Inv (setNetworkSpeed v).
Proof. frame. Qed.

Lemma Inv_setSelectedPod v : preserves Inv (setSelectedPod v).
Proof. frame. Qed.

Lemma Inv_setSelectedContainer v : preserves Inv (setSelectedContainer v).
Proof. frame. Qed.

Lemma Inv_set_networkStatsRef v : preserves Inv (modify (set_networkStatsRef v)).
Proof. frame. Qed.

Lemma Inv_set_terminalRef v : preserves Inv (modify (set_terminalRef v)).
Proof. frame. Qed.

Lemma Inv_set_xtermRef v : preserves Inv (modify (set_xtermRef v)).
Proof. frame. Qed.

Lemma Inv_set_fitAddonRef v : preserves Inv (modify (set_fitAddonRef v)).
Proof. frame. Qed.

Lemma Inv_set_wsRef v : preserves Inv (modify (set_wsRef v)).
Proof. frame. Qed.

Lemma Inv_set_rendered v : preserves Inv (modify (set_rendered v)).
Proof. frame. Qed.

Lemma Inv_set_mounted v : preserves Inv (modify (set_mounted v)).
Proof. frame. Qed.

Lemma Inv_console_error msg : preserves Inv (console_error msg).
Proof. frame. Qed.

Lemma Inv_updateNetworkStats n b : preserves Inv (updateNetworkStats n b).
Proof. frame. Qed.

Lemma lookup_alter_Some {A} (f : A -> A) (l : list A) i j y :
  alter f i l !! j = Some y ->
  (i = j /\ exists x, l !! j = Some x /\ y = f x) \/ (i <> j /\ l !! j = Some y).
Proof.
  destruct (decide (i = j)) as [->|Hne].
  - rewrite list_lookup_alter_eq. destruct (l !! j) as [x|]; simpl; [|done].
    intros [= <-]. left. eauto.
  - rewrite list_lookup_alter_ne by done. auto.
Qed.

Lemma Inv_on_session k g : benign g -> preserves Inv (on_session k g).
Proof.
  intros Hg st [H1 H2 H3 H4 H5 H6 H7]. split; simpl; try assumption.
  - intros j s' Hj Hlive.
    apply lookup_alter_Some in Hj as [(-> & s & Hs & ->)|[_ Hs]]; [|by eapply H1].
    apply (H1 j s Hs). destruct (Hg s) as (Ht & Hw & _).
    apply orb_true_iff in Hlive as [Hl|Hl]; apply orb_true_iff; auto.
  - intros j s' Hj.
    apply lookup_alter_Some in Hj as [(-> & s & Hs & ->)|[_ Hs]]; [|by eapply H7].
    destruct (Hg s) as (_ & _ & ->). by eapply H7.
Qed.

Lemma benign_call c : benign (on_terminal (XTerm_call c)).
Proof. intros s. simpl. auto. Qed.

Lemma benign_dispose : benign (on_terminal XTerm_dispose).
Proof. intros s. repeat split; simpl; auto. unfold live_terminal; simpl; done. Qed.

Lemma benign_fit c r : benign (on_terminal (XTerm_fit c r)).
Proof. intros s. simpl. auto. Qed.

Lemma benign_close code : benign (on_websocket (WebSocket_close code)).
Proof.
  intros s. repeat split; simpl; auto.
  unfold live_socket at 1. simpl. destruct (live_socket (websocket s)) eqn:E; [done|].
  unfold live_socket in E. destruct (readyState (websocket s)); done.
Qed.

Lemma benign_closed : benign (on_websocket (WebSocket_set_readyState CLOSED)).
Proof. intros s. repeat split; simpl; auto. unfold live_socket; simpl; done. Qed.

Lemma benign_set_resizeObserver b : benign (set_resizeObserver b).
Proof. intros s. simpl. auto. Qed.

Lemma benign_set_resizeTimeout b : benign (set_resizeTimeout b).
Proof. intros s. simpl. auto. Qed.

#[export] Hint Resolve benign_call benign_dispose benign_fit benign_close benign_closed
  benign_set_resizeObserver benign_set_resizeTimeout : callbacks.

Lemma Inv_terminal_write k d : preserves Inv (terminal_write k d).
Proof. apply Inv_on_session; auto with callbacks. Qed.

Lemma Inv_terminal_writeln k l : preserves Inv (terminal_writeln k l).
Proof. apply Inv_on_session; auto with callbacks. Qed.

Lemma Inv_terminal_dispose k : preserves Inv (terminal_dispose k).
Proof. apply Inv_on_session; auto with callbacks. Qed.

Lemma Inv_websocket_close k : preserves Inv (websocket_close k).
Proof. apply Inv_on_session; auto with callbacks. Qed.

Lemma Inv_clearInterval t : preserves Inv (clearInterval t).
Proof.
  intros st [H1 H2 H3 H4 H5 H6 H7]. split; simpl; try assumption.
  - intros j tm' Hj Hact.
    apply lookup_alter_Some in Hj as [(-> & tm & Htm & ->)|[_ Htm]];
      [discriminate Hact | exact (H2 _ _ Htm Hact)].
  - intros j tm' Hj Hact.
    apply lookup_alter_Some in Hj as [(-> & tm & Htm & ->)|[_ Htm]];
      [discriminate Hact | exact (H3 _ _ Htm Hact)].
  - intros j tm' Hj.
    apply lookup_alter_Some in Hj as [(-> & tm & Htm & ->)|[_ Htm]]; exact (H4 _ _ Htm).
  - intros j Hj. rewrite length_alter. auto.
  - intros j Hj. rewrite length_alter. auto.
Qed.

Lemma Inv_clear_if_set ref : preserves Inv (clear_if_set ref).
Proof.
  unfold clear_if_set. apply preserves_bind; [apply preserves_gets|].
  intros [t|]; [apply Inv_clearInterval | apply preserves_ret].
Qed.

#[export] Hint Resolve Inv_setIsConnected Inv_setNetworkSpeed Inv_setSelectedPod
  Inv_setSelectedContainer Inv_set_networkStatsRef Inv_set_terminalRef Inv_set_xtermRef
  Inv_set_fitAddonRef Inv_set_wsRef Inv_set_rendered Inv_set_mounted Inv_console_error
  Inv_updateNetworkStats Inv_on_session Inv_terminal_write Inv_terminal_writeln
  Inv_terminal_dispose Inv_websocket_close Inv_clearInterval Inv_clear_if_set : callbacks.

(** ** The invariant and the callbacks *)

Ltac callbacks :=
  repeat first
    [ progress intros
    | solve [auto with callbacks]
    | match goal with
      | |- preserves _ (_ ≫= _) => apply preserves_bind
      | |- preserves _ (try_catch _ _) => apply preserves_try_catch
      | |- preserves _ (when _ _) => apply preserves_when
      | |- preserves _ (match ?x with _ => _ end) => destruct x
      | |- preserves _ (if ?b then _ else _) => destruct b
      end ].

Lemma Inv_initSelection p : preserves Inv (initSelection p).
Proof. unfold initSelection. callbacks. Qed.

Lemma Inv_handlePodChange v : preserves Inv (handlePodChange v).
Proof. unfold handlePodChange. callbacks. Qed.

Lemma Inv_handleContainerChange v : preserves Inv (handleContainerChange v).
Proof. unfold handleContainerChange. callbacks. Qed.

Lemma Inv_clearTerminal : preserves Inv clearTerminal.
Proof. unfold clearTerminal. callbacks. Qed.

Lemma Inv_speedTick now : preserves Inv (speedTick now).
Proof. unfold speedTick. callbacks. Qed.

Lemma Inv_onmessage rt k data : preserves Inv (onmessage rt k data).
Proof. unfold onmessage, dispatch. callbacks. Qed.

Lemma Inv_onerror k : preserves Inv (onerror k).
Proof. unfold onerror. callbacks. Qed.

(** *** The senders *)

Ltac msimpl := repeat (rewrite run_bind; simpl).

Lemma readyState_OPEN k st :
  default CLOSED (readyState ∘ websocket <$> sessions st !! k) = OPEN ->
  socket_state k st = Some OPEN.
Proof.
  unfold socket_state. destruct (sessions st !! k) as [s|]; simpl; [|done].
  by intros ->.
Qed.

Lemma readyState_not_OPEN k st :
  socket_state k st <> Some OPEN ->
  bool_decide (default CLOSED (readyState ∘ websocket <$> sessions st !! k) = OPEN) = false.
Proof.
  intros H. apply bool_decide_eq_false. intros E. by apply H, readyState_OPEN.
Qed.

(** On an open socket [send_frame] hands exactly one message to the
    network and counts its bytes. *)
Lemma send_frame_OPEN k f st s :
  sessions st !! k = Some s -> readyState (websocket s) = OPEN ->
  send_frame k f st =
  (Normal tt,
   set_networkStatsRef
     {| lastReset := lastReset (networkStatsRef st);
        bytesReceived := bytesReceived (networkStatsRef st);
        bytesSent := bytesSent (networkStatsRef st) + Blob_size (Wire.JSON_stringify f);
        lastUpdate := lastUpdate (networkStatsRef st) |}
     (set_sessions
        (<[k := on_websocket (fun _ =>
                  {| url := url (websocket s); readyState := OPEN;
                     sent := sent (websocket s) ++ [Wire.JSON_stringify f];
                     discarded := discarded (websocket s);
                     closeCalls := closeCalls (websocket s) |}) s]> (sessions st)) st)).
Proof.
  intros Hs Hr. unfold send_frame. rewrite run_bind.
  unfold websocket_send. rewrite Hs. unfold WebSocket_send. rewrite Hr. reflexivity.
Qed.

Lemma Inv_send_frame k f st :
  Inv st -> socket_state k st = Some OPEN -> Inv (send_frame k f st).2.
Proof.
  intros [H1 H2 H3 H4 H5 H6 H7] Hopen. unfold socket_state in Hopen.
  destruct (sessions st !! k) as [s|] eqn:Hs; simpl in Hopen; [|done].
  injection Hopen as Hr. rewrite (send_frame_OPEN k f st s Hs Hr).
  split; simpl; try assumption.
  - intros j s' Hj Hlive.
    apply list_lookup_insert_Some in Hj as [(-> & <- & _)|[_ Hj]]; [|by eapply H1].
    apply (H1 j s Hs). unfold live_socket. rewrite Hr. apply orb_true_r.
  - intros j s' Hj.
    apply list_lookup_insert_Some in Hj as [(-> & <- & _)|[_ Hj]]; [|by eapply H7].
    simpl. by eapply H7.
Qed.

Lemma returns_send_frame k f st :
  socket_state k st = Some OPEN -> is_normal (send_frame k f st).1 = true.
Proof.
  intros Hopen. unfold socket_state in Hopen.
  destruct (sessions st !! k) as [s|] eqn:Hs; simpl in Hopen; [|done].
  injection Hopen as Hr. by rewrite (send_frame_OPEN k f st s Hs Hr).
Qed.

Lemma Inv_pingTick k : preserves Inv (pingTick k).
Proof.
  intros st HI. unfold pingTick. rewrite run_bind. simpl.
  destruct (bool_decide _) eqn:Hr; simpl; [|done].
  apply bool_decide_eq_true in Hr.
  by apply Inv_send_frame, readyState_OPEN.
Qed.

Lemma Inv_onData k data : preserves Inv (onData k data).
Proof.
  intros st HI. unfold onData. rewrite run_bind. simpl.
  destruct (bool_decide _) eqn:Hr; simpl; [|done].
  apply bool_decide_eq_true in Hr.
  by apply Inv_send_frame, readyState_OPEN.
Qed.

Lemma Inv_handleTerminalResize k : preserves Inv (handleTerminalResize k).
Proof.
  intros st HI. unfold handleTerminalResize. msimpl.
  destruct (bool_decide (is_Some (fitAddonRef st))); simpl; [|done].
  destruct (bool_decide _) eqn:Hr; simpl; [|done].
  apply bool_decide_eq_true, readyState_OPEN in Hr.
  msimpl.
  destruct (sessions st !! k) as [s|] eqn:Hs; simpl; [|done].
  by apply Inv_send_frame.
Qed.

Lemma returns_pingTick k : returns (pingTick k).
Proof.
  intros st. unfold pingTick. rewrite run_bind. simpl.
  destruct (bool_decide _) eqn:Hr; simpl; [|done].
  apply bool_decide_eq_true in Hr.
  by apply returns_send_frame, readyState_OPEN.
Qed.

Lemma returns_onData k data : returns (onData k data).
Proof.
  intros st. unfold onData. rewrite run_bind. simpl.
  destruct (bool_decide _) eqn:Hr; simpl; [|done].
  apply bool_decide_eq_true in Hr.
  by apply returns_send_frame, readyState_OPEN.
Qed.

Lemma returns_handleTerminalResize k : returns (handleTerminalResize k).
Proof.
  intros st. unfold handleTerminalResize. msimpl.
  destruct (bool_decide (is_Some (fitAddonRef st))); simpl; [|done].
  destruct (bool_decide _) eqn:Hr; simpl; [|done].
  apply bool_decide_eq_true, readyState_OPEN in Hr.
  msimpl.
  destruct (sessions st !! k) as [s|] eqn:Hs; simpl; [|done].
  by apply returns_send_frame.
Qed.

#[export] Hint Resolve Inv_initSelection Inv_handlePodChange Inv_handleContainerChange
  Inv_clearTerminal Inv_speedTick Inv_onmessage Inv_onerror Inv_pingTick Inv_onData
  Inv_handleTerminalResize : callbacks.
#[export] Hint Resolve returns_pingTick returns_onData returns_handleTerminalResize
  : callbacks.

(** *** Timers: [onopen], [onclose] and the cleanup *)

Lemma clear_opt_lookup ref l t tm :
  clear_opt ref l !! t = Some tm ->
  (ref = Some t /\ active tm = false /\ exists tm0, l !! t = Some tm0 /\ kind tm = kind tm0
                                                   /\ interval tm = interval tm0)
  \/ (ref <> Some t /\ l !! t = Some tm).
Proof.
  destruct ref as [r|]; simpl; [|by right].
  intros H. apply lookup_alter_Some in H as [(-> & tm0 & H0 & ->)|[Hne H0]].
  - left. eauto 10.
  - right. split; [congruence | done].
Qed.

Lemma length_clear_opt ref l : length (clear_opt ref l) = length l.
Proof. destruct ref; simpl; [apply length_alter | done]. Qed.

Lemma both_cleared_lookup st t tm :
  both_cleared st !! t = Some tm ->
  exists tm0, timers st !! t = Some tm0 /\ kind tm = kind tm0 /\ interval tm = interval tm0
              /\ (active tm = true -> active tm0 = true
                  /\ speedUpdateTimerRef st <> Some t /\ pingTimerRef st <> Some t).
Proof.
  unfold both_cleared. intros H.
  apply clear_opt_lookup in H as [(Hp & Hact & tm1 & H1 & Hk & Hi)|[Hp H1]].
  - apply clear_opt_lookup in H1 as [(Hs & _ & tm0 & H0 & Hk0 & Hi0)|[Hs H0]].
    + exists tm0. rewrite Hk, Hi. repeat split; try done; congruence.
    + exists tm1. repeat split; try done; congruence.
  - apply clear_opt_lookup in H1 as [(Hs & Hact & tm0 & H0 & Hk0 & Hi0)|[Hs H0]].
    + exists tm0. repeat split; try done; congruence.
    + exists tm. repeat split; done.
Qed.

(** Once both references are cleared, no interval is running. *)
Lemma both_cleared_inactive st t tm :
  Inv st -> both_cleared st !! t = Some tm -> active tm = false.
Proof.
  intros HI H. apply both_cleared_lookup in H as (tm0 & H0 & Hk & _ & Hact).
  destruct (active tm) eqn:E; [|done]. destruct (Hact eq_refl) as (Ha & Hs & Hp).
  pose proof (inv_timer_ref st HI t tm0 H0 Ha) as Href.
  destruct (kind tm0); congruence.
Qed.

Lemma onclose_run k code st :
  onclose k code st =
  (Normal tt,
   set_sessions
     (alter (on_terminal (XTerm_call (Writeln
         (if bool_decide (code ≠ NORMAL_CLOSURE)
          then red "Connection closed unexpectedly"
          else green "Connection closed")))) k (sessions st))
     (set_pingTimerRef None
        (set_speedUpdateTimerRef None
           (set_timers (both_cleared st)
              (set_networkSpeed zero_speed (set_isConnected false st)))))).
Proof.
  destruct st as [? ? ? ? ? ? ? ? ? sref pref ? ? ? ? ? ?].
  unfold onclose, both_cleared. msimpl.
  destruct sref as [t|]; msimpl; destruct pref as [t'|]; msimpl;
    destruct (bool_decide (code ≠ NORMAL_CLOSURE)); reflexivity.
Qed.

Lemma Inv_onclose k code : preserves Inv (onclose k code).
Proof.
  intros st HI. rewrite onclose_run. simpl.
  apply (Inv_on_session k _ (benign_call _)
           (set_pingTimerRef None (set_speedUpdateTimerRef None
              (set_timers (both_cleared st)
                 (set_networkSpeed zero_speed (set_isConnected false st)))))).
  destruct HI as [H1 H2 H3 H4 H5 H6 H7]. split; simpl; try done.
  - intros t tm H Hact.
    rewrite (both_cleared_inactive st t tm) in Hact; [done| by split |done].
  - intros t tm H Hact.
    rewrite (both_cleared_inactive st t tm) in Hact; [done| by split |done].
  - intros t tm H. apply both_cleared_lookup in H as (tm0 & H0 & -> & -> & _). eauto.
Qed.

Lemma cleanup_run k st :
  cleanup k st =
  (Normal tt,
   set_timers (both_cleared st)
     (set_sessions
        (alter (on_websocket (WebSocket_close None)) k
           (alter (on_terminal XTerm_dispose) k
              (alter (set_resizeObserver false) k (sessions st)))) st)).
Proof.
  destruct st as [? ? ? ? ? ? ? ? ? sref pref ? ? ? ? ? ?].
  unfold cleanup, both_cleared, clear_if_set. msimpl.
  destruct sref as [t|]; msimpl; destruct pref as [t'|]; reflexivity.
Qed.

(** *** Teardown and construction *)

Lemma runCleanup_run st :
  runCleanup st =
  (Normal tt,
   match cleanupFn st with
   | Some k => set_cleanupFn None (cleanup k st).2
   | None => st
   end).
Proof.
  unfold runCleanup. msimpl. destruct (cleanupFn st) as [k|]; [|reflexivity].
  msimpl. by rewrite cleanup_run.
Qed.

Lemma dead_after_cleanup (s : Session) :
  let s' := on_websocket (WebSocket_close None)
              (on_terminal XTerm_dispose (set_resizeObserver false s)) in
  live_terminal (terminal s') = false /\ live_socket (websocket s') = false
  /\ discarded (websocket s') = discarded (websocket s)
  /\ closeCalls (websocket s') = closeCalls (websocket s) ++ [None]
  /\ disposed (terminal s') = true.
Proof.
  simpl. repeat split; try done.
  unfold live_socket at 1. simpl. destruct (live_socket (websocket s)) eqn:E; [done|].
  unfold live_socket in E. destruct (readyState (websocket s)); done.
Qed.

Lemma cleanup_lookup k st j s' :
  sessions (cleanup k st).2 !! j = Some s' ->
  (j = k /\ exists s, sessions st !! k = Some s
                      /\ s' = on_websocket (WebSocket_close None)
                                (on_terminal XTerm_dispose (set_resizeObserver false s)))
  \/ (j <> k /\ sessions st !! j = Some s').
Proof.
  rewrite cleanup_run. simpl. intros H.
  apply lookup_alter_Some in H as [(<- & s2 & H2 & ->)|[Hne H]].
  - left. split; [done|].
    rewrite list_lookup_alter_eq in H2.
    destruct (alter (set_resizeObserver false) k (sessions st) !! k) as [s1|] eqn:H1;
      simpl in H2; [|done]. injection H2 as <-.
    rewrite list_lookup_alter_eq in H1.
    destruct (sessions st !! k) as [s|]; simpl in H1; [|done]. injection H1 as <-.
    eauto.
  - right. split; [done|]. by rewrite !list_lookup_alter_ne in H by done.
Qed.

Lemma Inv_dead st :
  Inv st -> cleanupFn st = None -> torn_down st.
Proof.
  intros HI Hc. split.
  - intros k s Hs.
    destruct (live_terminal (terminal s) || live_socket (websocket s)) eqn:E.
    + pose proof (inv_live st HI k s Hs E). congruence.
    + by apply orb_false_iff in E.
  - intros t tm Ht. destruct (active tm) eqn:E; [|done].
    destruct (inv_timer_owner st HI t tm Ht E) as [k Hk]. congruence.
Qed.

(** After the cleanup nothing is left of any session, the one it belongs
    to included. *)
Lemma runCleanup_torn_down st :
  Inv st -> torn_down (runCleanup st).2.
Proof.
  intros HI. rewrite runCleanup_run. simpl.
  destruct (cleanupFn st) as [k|] eqn:Hc; [|by apply Inv_dead].
  split; simpl.
  - intros j s' Hj. apply cleanup_lookup in Hj as [(-> & s & Hs & ->)|[Hne Hj]].
    + destruct (dead_after_cleanup s) as (? & ? & _). done.
    + destruct (live_terminal (terminal s') || live_socket (websocket s')) eqn:E.
      * pose proof (inv_live st HI j s' Hj E). congruence.
      * by apply orb_false_iff in E.
  - rewrite cleanup_run. simpl. intros t tm. by apply both_cleared_inactive.
Qed.

Lemma Inv_runCleanup : preserves Inv runCleanup.
Proof.
  intros st HI. pose proof (runCleanup_torn_down st HI) as [Hdead Htm].
  rewrite runCleanup_run in *. simpl in *.
  destruct (cleanupFn st) as [k|] eqn:Hc; [|done].
  simpl in *. split; simpl.
  - intros j s Hj Hlive. destruct (Hdead j s Hj) as [E1 E2].
    rewrite E1, E2 in Hlive. done.
  - intros t tm Ht Hact. rewrite (Htm t tm Ht) in Hact. done.
  - intros t tm Ht Hact. rewrite (Htm t tm Ht) in Hact. done.
  - rewrite cleanup_run. simpl. intros t tm Ht.
    apply both_cleared_lookup in Ht as (tm0 & H0 & -> & -> & _).
    by eapply inv_interval.
  - rewrite cleanup_run. simpl. intros t Ht.
    unfold both_cleared. rewrite !length_clear_opt. by eapply inv_speed_bound.
  - rewrite cleanup_run. simpl. intros t Ht.
    unfold both_cleared. rewrite !length_clear_opt. by eapply inv_ping_bound.
  - intros j s' Hj. apply cleanup_lookup in Hj as [(-> & s & Hs & ->)|[Hne Hj]].
    + simpl. by eapply inv_discarded.
    + by eapply inv_discarded.
Qed.

Lemma torn_down_frame st st' :
  torn_down st -> sessions st' = sessions st -> timers st' = timers st -> torn_down st'.
Proof. intros [H1 H2] Es Et. split; rewrite ?Es, ?Et; assumption. Qed.

Lemma torn_down_on_session k g : benign g -> preserves torn_down (on_session k g).
Proof.
  intros Hg st [H1 H2]. split; simpl; [|done].
  intros j s' Hj.
  apply lookup_alter_Some in Hj as [(-> & s & Hs & ->)|[_ Hs]]; [|by eapply H1].
  destruct (H1 j s Hs) as [E1 E2]. destruct (Hg s) as (Ht & Hw & _).
  split.
  - destruct (live_terminal (terminal (g s))); [|done]. rewrite <- E1. symmetry. by apply Ht.
  - destruct (live_socket (websocket (g s))); [|done]. rewrite <- E2. symmetry. by apply Hw.
Qed.

Lemma torn_down_dispose_previous : preserves torn_down dispose_previous.
Proof.
  unfold dispose_previous, terminal_dispose, websocket_close.
  repeat first
    [ progress intros
    | apply preserves_bind
    | apply preserves_gets
    | apply preserves_ret
    | match goal with |- preserves _ (match ?x with _ => _ end) => destruct x end
    | apply torn_down_on_session; solve [auto with callbacks] ].
Qed.

Lemma Inv_dispose_previous : preserves Inv dispose_previous.
Proof. unfold dispose_previous. callbacks. Qed.

Lemma construct_run rt p sp sc fit st :
  construct rt p sp sc fit st =
  (Normal tt,
   set_cleanupFn (Some (length (sessions st)))
     (set_wsRef (Some (length (sessions st)))
        (set_isConnected false
           (set_fitAddonRef (Some (length (sessions st)))
              (set_xtermRef (Some (length (sessions st)))
                 (set_sessions (sessions st ++ [new_session p (wsUrl rt p sp sc) fit]) st)))))).
Proof. reflexivity. Qed.

Lemma Inv_construct rt p sp sc fit st :
  Inv st -> torn_down st -> Inv (construct rt p sp sc fit st).2.
Proof.
  intros [H1 H2 H3 H4 H5 H6 H7] [Hdead Htm]. rewrite construct_run.
  split; simpl; try done.
  - intros j s Hj Hlive. apply lookup_app_Some in Hj as [Hj|[Hlen Hj]].
    + destruct (Hdead j s Hj) as [E1 E2]. rewrite E1, E2 in Hlive. done.
    + f_equal. apply list_lookup_singleton_Some in Hj as [Hj _]. lia.
  - intros j s Hj. apply lookup_app_Some in Hj as [Hj|[Hlen Hj]]; [by eapply H7|].
    apply list_lookup_singleton_Some in Hj as [_ <-]. done.
Qed.

Lemma lifecycle_run rt p sp sc fit st :
  lifecycle rt p sp sc fit st =
  (Normal tt,
   if returns_early p sp sc (terminalRef st) then st
   else (construct rt p sp sc fit (dispose_previous st).2).2).
Proof.
  destruct st as [? ? ? ? tref xref ? wref ? ? ? ? ? ? ? ? ?].
  unfold lifecycle. msimpl. destruct (returns_early p sp sc tref); [done|].
  msimpl. unfold dispose_previous, terminal_dispose, websocket_close. msimpl.
  destruct xref; msimpl; destruct wref; reflexivity.
Qed.

Lemma Inv_lifecycle rt p sp sc fit st :
  Inv st -> torn_down st -> Inv (lifecycle rt p sp sc fit st).2.
Proof.
  intros HI Hdead. rewrite lifecycle_run. simpl.
  destruct (returns_early p sp sc (terminalRef st)); [done|].
  apply Inv_construct; [by apply Inv_dispose_previous | by apply torn_down_dispose_previous].
Qed.

Lemma onopen_run k now st :
  onopen k now st =
  (Normal tt,
   (terminal_writeln k ""
      (terminal_writeln k
         (green ("Connected to "
                 +:+ type_name (default pod (closure_type <$> sessions st !! k))
                 +:+ " terminal!"))
         (restarted k now st)).2).2).
Proof.
  destruct st as [? ? ? ? ? ? ? ? ? sref pref ? ? ? ? ? ?].
  unfold onopen, restarted, clear_if_set. msimpl.
  destruct sref as [t|]; msimpl; destruct pref as [t'|]; msimpl; reflexivity.
Qed.

Lemma Inv_restarted k now st :
  Inv st -> is_Some (cleanupFn st) -> Inv (restarted k now st).
Proof.
  intros HI Hc. pose proof HI as [H1 H2 H3 H4 H5 H6 H7].
  assert (Hold : forall t tm,
    clear_opt (pingTimerRef st)
      (clear_opt (speedUpdateTimerRef st) (timers st)
       ++ [{| kind := SpeedUpdate; interval := 500; active := true |}]) !! t = Some tm ->
    (t < length (timers st) /\ active tm = false
     /\ interval tm = interval_of (kind tm))
    \/ (t = length (timers st)
        /\ tm = {| kind := SpeedUpdate; interval := 500; active := true |})).
  { intros t tm Ht.
    assert (Hsame : clear_opt (pingTimerRef st)
              (clear_opt (speedUpdateTimerRef st) (timers st)
               ++ [{| kind := SpeedUpdate; interval := 500; active := true |}])
            = both_cleared st
              ++ [{| kind := SpeedUpdate; interval := 500; active := true |}]).
    { unfold both_cleared. destruct (pingTimerRef st) as [r|] eqn:Hr; simpl; [|done].
      apply alter_app_l. rewrite length_clear_opt. by apply H6. }
    rewrite Hsame in Ht. apply lookup_app_Some in Ht as [Ht|[Hlen Ht]].
    - left. split; [|split].
      + apply lookup_lt_Some in Ht. unfold both_cleared in Ht.
        by rewrite !length_clear_opt in Ht.
      + by eapply both_cleared_inactive.
      + apply both_cleared_lookup in Ht as (tm0 & H0 & -> & -> & _). eauto.
    - right. apply list_lookup_singleton_Some in Ht as [Hz <-].
      unfold both_cleared in *. rewrite !length_clear_opt in *. split; [lia|done]. }
  unfold restarted. split; simpl; try done.
  - intros t tm Ht Hact. apply lookup_app_Some in Ht as [Ht|[Hlen Ht]].
    + apply Hold in Ht as [(_ & E & _)|(-> & ->)]; [congruence|].
      simpl. by rewrite length_clear_opt.
    + apply list_lookup_singleton_Some in Ht as [Hz <-]. simpl.
      f_equal. lia.
  - intros t tm Ht. apply lookup_app_Some in Ht as [Ht|[Hlen Ht]].
    + apply Hold in Ht as [(_ & _ & E)|(-> & ->)]; done.
    + apply list_lookup_singleton_Some in Ht as [_ <-]. done.
  - intros t [= <-]. rewrite length_app, !length_clear_opt, length_app, length_clear_opt.
    simpl. lia.
  - intros t [= <-]. rewrite length_app. simpl. lia.
Qed.

Lemma Inv_onopen k now st :
  Inv st -> is_Some (cleanupFn st) -> Inv (onopen k now st).2.
Proof.
  intros HI Hc. rewrite onopen_run. cbn [snd].
  by apply Inv_terminal_writeln, Inv_terminal_writeln, Inv_restarted.
Qed.

(** The [open] event turns a connecting socket into an open one. *)
Lemma Inv_opened k st :
  Inv st -> socket_state k st = Some CONNECTING ->
  Inv (on_session k (on_websocket (WebSocket_set_readyState OPEN)) st).2
  /\ is_Some (cleanupFn st).
Proof.
  intros HI Hk. unfold socket_state in Hk.
  destruct (sessions st !! k) as [s|] eqn:Hs; simpl in Hk; [|done].
  injection Hk as Hr.
  assert (Hc : cleanupFn st = Some k).
  { apply (inv_live st HI k s Hs). unfold live_socket. rewrite Hr. apply orb_true_r. }
  split; [|by rewrite Hc].
  destruct HI as [H1 H2 H3 H4 H5 H6 H7]. split; simpl; try done.
  - intros j s' Hj Hlive.
    apply lookup_alter_Some in Hj as [(-> & s0 & Hs0 & ->)|[_ Hj]];
      [done | exact (H1 _ _ Hj Hlive)].
  - intros j s' Hj.
    apply lookup_alter_Some in Hj as [(-> & s0 & Hs0 & ->)|[_ Hj]];
      [exact (H7 _ _ Hs0) | exact (H7 _ _ Hj)].
Qed.

(** *** Every step *)

Lemma returns_unit (m : M unit) st : returns m -> m st = (Normal tt, (m st).2).
Proof.
  intros H. specialize (H st). destruct (m st) as [[[]|e] st']; [done | discriminate H].
Qed.

Lemma run_seq {B} (m : M unit) (f : unit -> M B) st :
  returns m -> (m ≫= f) st = f tt (m st).2.
Proof. intros H. by rewrite run_bind, (returns_unit m st H). Qed.

Lemma returns_initSelection p : returns (initSelection p).
Proof. intros st. reflexivity. Qed.

Lemma returns_lifecycle rt p sp sc fit : returns (lifecycle rt p sp sc fit).
Proof. intros st. by rewrite lifecycle_run. Qed.

Lemma returns_runCleanup : returns runCleanup.
Proof. intros st. by rewrite runCleanup_run. Qed.

Lemma returns_run_effects rt p sp sc fit a b : returns (run_effects rt p sp sc fit a b).
Proof.
  unfold run_effects.
  auto 10 using returns_initSelection, returns_lifecycle with callbacks.
Qed.

(** A commit first runs the cleanup (when the lifecycle effect is to run
    again) and only then the effects. *)
Lemma render_run rt p fit st :
  let rebuild := lifecycle_deps_changed (rendered st) p (selectedPod st) (selectedContainer st) in
  render rt p fit st =
  (Normal tt,
   (run_effects rt p (selectedPod st) (selectedContainer st) fit
      (selection_deps_changed (rendered st) p) rebuild
      (if rebuild then (runCleanup (set_terminalRef true st)).2
       else set_terminalRef true st)).2).
Proof.
  simpl. unfold render. msimpl.
  destruct (lifecycle_deps_changed _ _ _ _); simpl.
  - rewrite (returns_unit runCleanup _ returns_runCleanup). simpl.
    apply returns_unit, returns_run_effects.
  - apply returns_unit, returns_run_effects.
Qed.

Lemma torn_down_initSelection p : preserves torn_down (initSelection p).
Proof. intros st H. by eapply torn_down_frame. Qed.

Lemma Inv_run_effects rt p sp sc fit reselect rebuild st :
  Inv st -> (rebuild = true -> torn_down st) ->
  Inv (run_effects rt p sp sc fit reselect rebuild st).2.
Proof.
  intros HI Hdead. unfold run_effects.
  rewrite run_seq by apply returns_when, returns_initSelection.
  rewrite run_seq by apply returns_when, returns_lifecycle.
  apply Inv_set_rendered.
  assert (HI1 : Inv (when reselect (initSelection p) st).2).
  { revert HI. apply preserves_when, Inv_initSelection. }
  destruct rebuild; [|exact HI1].
  apply Inv_lifecycle; [exact HI1|].
  specialize (Hdead eq_refl). revert Hdead.
  apply preserves_when, torn_down_initSelection.
Qed.

Lemma Inv_render rt p fit : preserves Inv (render rt p fit).
Proof.
  intros st HI. rewrite render_run. simpl.
  assert (HI1 : Inv (set_terminalRef true st)) by (eapply Inv_frame; [exact HI | reflexivity ..]).
  apply Inv_run_effects.
  - destruct (lifecycle_deps_changed _ _ _ _); [by apply Inv_runCleanup | done].
  - intros ->. by apply runCleanup_torn_down.
Qed.

#[export] Hint Resolve Inv_runCleanup Inv_onclose : callbacks.

Lemma Inv_unmount : preserves Inv unmount.
Proof. unfold unmount. callbacks. Qed.

Lemma Inv_initial now : Inv (initial now).
Proof. split; simpl; intros; done. Qed.

Lemma Inv_closing rt k failed code : preserves Inv (handler rt (WsClose k failed code)).
Proof. simpl. callbacks. Qed.

Lemma Inv_pinging rt t : preserves Inv (handler rt (PingTick t)).
Proof. simpl. callbacks. Qed.

Lemma Inv_resize_timeout rt k : preserves Inv (handler rt (ResizeTimeout k)).
Proof. simpl. callbacks. Qed.

Lemma Inv_step rt ev st st' : Inv st -> step rt ev st = Some st' -> Inv st'.
Proof.
  intros HI. unfold step. destruct (enabled ev st) eqn:En; [|done].
  intros [= <-]. destruct ev.
  - by apply Inv_render.
  - by apply Inv_unmount.
  - by apply Inv_handlePodChange.
  - by apply Inv_handleContainerChange.
  - by apply Inv_clearTerminal.
  - apply bool_decide_eq_true in En. destruct (Inv_opened k st HI En) as [HI1 Hc].
    simpl. rewrite run_bind. simpl. by apply Inv_onopen.
  - by apply Inv_onmessage.
  - by apply Inv_closing.
  - by apply Inv_speedTick.
  - by apply Inv_pinging.
  - by apply Inv_resize_timeout.
  - by apply Inv_handleTerminalResize.
  - by apply Inv_onData.
  - revert HI. apply Inv_on_session. auto with callbacks.
Qed.

Lemma reachable_Inv rt st : reachable rt st -> Inv st.
Proof.
  induction 1 as [now | ev st st' _ IH Hstep]; [apply Inv_initial | by eapply Inv_step].
Qed.

Lemma run_reachable rt evs st st' :
  reachable rt st -> run rt evs st = Some st' -> reachable rt st'.
Proof.
  revert st. induction evs as [|ev evs IH]; intros st Hr; simpl.
  - by intros [= <-].
  - destruct (step rt ev st) as [st1|] eqn:E; [|done].
    apply IH. by eapply reachable_step.
Qed.

(** * The claims *)

(** ** Rebuilding the session *)

Lemma Inv_at_most_one_live st : Inv st -> at_most_one_live st.
Proof.
  intros HI. split; intros j k s s' Hj Hk Lj Lk.
  - assert (cleanupFn st = Some j) as Ej
      by (apply (inv_live st HI j s Hj); rewrite Lj; apply orb_true_r).
    assert (cleanupFn st = Some k) as Ek
      by (apply (inv_live st HI k s' Hk); rewrite Lk; apply orb_true_r).
    congruence.
  - assert (cleanupFn st = Some j) as Ej
      by (apply (inv_live st HI j s Hj); by rewrite Lj).
    assert (cleanupFn st = Some k) as Ek
      by (apply (inv_live st HI k s' Hk); by rewrite Lk).
    congruence.
Qed.

Lemma runCleanup_sessions st k s :
  cleanupFn st = Some k -> sessions st !! k = Some s ->
  sessions (runCleanup st).2 !! k
  = Some (on_websocket (WebSocket_close None)
            (on_terminal XTerm_dispose (set_resizeObserver false s))).
Proof.
  intros Hc Hs. rewrite runCleanup_run. simpl. rewrite Hc. simpl.
  rewrite cleanup_run. simpl.
  rewrite !list_lookup_alter_eq, Hs. reflexivity.
Qed.

Lemma runCleanup_length st : length (sessions (runCleanup st).2) = length (sessions st).
Proof.
  rewrite runCleanup_run. simpl. destruct (cleanupFn st) as [k|]; [|done].
  simpl. rewrite cleanup_run. simpl. by rewrite !length_alter.
Qed.

Lemma dispose_previous_length st :
  length (sessions (dispose_previous st).2) = length (sessions st).
Proof.
  destruct st as [? ? ? ? ? xref ? wref ? ? ? ? ? ? ? ? ?].
  unfold dispose_previous, terminal_dispose, websocket_close. msimpl.
  destruct xref; msimpl; destruct wref; simpl; by rewrite ?length_alter.
Qed.

Lemma run_effects_length rt p sp sc fit a b st :
  length (sessions (run_effects rt p sp sc fit a b st).2) <= S (length (sessions st)).
Proof.
  unfold run_effects.
  rewrite run_seq by apply returns_when, returns_initSelection.
  rewrite run_seq by apply returns_when, returns_lifecycle.
  assert (E : sessions (when a (initSelection p) st).2 = sessions st)
    by (by destruct a).
  simpl. destruct b; simpl; [|rewrite E; lia].
  rewrite lifecycle_run. simpl.
  destruct (returns_early _ _ _ _); [rewrite E; lia|].
  simpl. rewrite length_app, dispose_previous_length, E. simpl. lia.
Qed.

(** C1, amended.  In every reachable state at most one socket is
    connecting or open and at most one emulator is not disposed.  A commit
    that runs the lifecycle effect again first runs the cleanup of the
    previous run; in the store the cleanup leaves, every emulator is
    disposed, every socket is closing or closed and no interval is running;
    the emulator of the previous run is disposed and its socket got one
    [close()] without a close code; no object was constructed yet.  Only
    from that store do the effects run, constructing at most one new
    session.  Unmounting runs the same cleanup and constructs nothing. *)
Theorem rebuild_tears_down_first rt st :
  reachable rt st ->
  at_most_one_live st
  /\ (forall p fit,
        lifecycle_deps_changed (rendered st) p (selectedPod st) (selectedContainer st) = true ->
        let mid := (runCleanup (set_terminalRef true st)).2 in
        torn_down mid
        /\ length (sessions mid) = length (sessions st)
        /\ (forall k s, cleanupFn st = Some k -> sessions st !! k = Some s ->
              exists s', sessions mid !! k = Some s'
                         /\ disposed (terminal s') = true
                         /\ live_socket (websocket s') = false
                         /\ closeCalls (websocket s') = closeCalls (websocket s) ++ [None])
        /\ (render rt p fit st).2
           = (run_effects rt p (selectedPod st) (selectedContainer st) fit
                (selection_deps_changed (rendered st) p) true mid).2
        /\ length (sessions (render rt p fit st).2) <= S (length (sessions st)))
  /\ (torn_down (unmount st).2
      /\ length (sessions (unmount st).2) = length (sessions st)).
Proof.
  intros Hr. pose proof (reachable_Inv rt st Hr) as HI.
  assert (HI1 : Inv (set_terminalRef true st))
    by (eapply Inv_frame; [exact HI | reflexivity ..]).
  split; [by apply Inv_at_most_one_live|]. split.
  - intros p fit Hdeps mid. subst mid.
    split; [by apply runCleanup_torn_down|].
    split; [by rewrite runCleanup_length|].
    split.
    + intros k s Hc Hs.
      rewrite (runCleanup_sessions (set_terminalRef true st) k s Hc Hs).
      eexists. split; [reflexivity|].
      destruct (dead_after_cleanup s) as (_ & ? & _ & ? & ?). done.
    + assert (E : (render rt p fit st).2
                  = (run_effects rt p (selectedPod st) (selectedContainer st) fit
                       (selection_deps_changed (rendered st) p) true
                       (runCleanup (set_terminalRef true st)).2).2).
      { rewrite render_run. simpl. by rewrite Hdeps. }
      split; [exact E|]. rewrite E.
      etrans; [apply run_effects_length|]. by rewrite runCleanup_length.
  - unfold unmount.
    rewrite run_seq by apply returns_runCleanup. simpl.
    split.
    + eapply torn_down_frame; [by apply (runCleanup_torn_down st) | reflexivity ..].
    + apply runCleanup_length.
Qed.

Lemma rebuild_tears_down_first_witness :
  let st := Sample.after (Sample.connect ++ [PodChange (Some "web-2")]) in
  reachable Sample.rt st
  /\ lifecycle_deps_changed (rendered st) Sample.props (selectedPod st) (selectedContainer st)
     = true
  /\ at_most_one_live st
  /\ torn_down (runCleanup (set_terminalRef true st)).2.
Proof.
  intros st.
  assert (Hr : reachable Sample.rt st).
  { apply (run_reachable Sample.rt (Sample.connect ++ [PodChange (Some "web-2")]) (initial 0));
      [apply reachable_initial | vm_compute; reflexivity]. }
  assert (Hd : lifecycle_deps_changed (rendered st) Sample.props (selectedPod st)
                 (selectedContainer st) = true) by (vm_compute; reflexivity).
  destruct (rebuild_tears_down_first Sample.rt st Hr) as (Hone & Hrebuild & _).
  destruct (Hrebuild Sample.props Sample.fit Hd) as (Hdead & _).
  exact (conj Hr (conj Hd (conj Hone Hdead))).
Defined.

(** C1 as stated fails: the cleanup (and the next run of the effect)
    call [close()] with no argument, so no call carries the code 1000. *)
Lemma rebuild_closes_without_code :
  let st := Sample.after Sample.switch_pod in
  run Sample.rt Sample.switch_pod (initial 0) = Some st
  /\ exists s, sessions st !! 0 = Some s
               /\ disposed (terminal s) = true
               /\ readyState (websocket s) = CLOSING
               /\ closeCalls (websocket s) = [None; None]
               /\ ~ Some NORMAL_CLOSURE ∈ closeCalls (websocket s).
Proof.
  split; [vm_compute; reflexivity|].
  eexists. split; [vm_compute; reflexivity|].
  repeat split; try (vm_compute; reflexivity).
  simpl. intros H. apply elem_of_cons in H as [H|H]; [discriminate H|].
  apply elem_of_cons in H as [H|H]; [discriminate H|]. by apply elem_of_nil in H.
Qed.

(** ** Inbound messages *)

Lemma stream_snoc cs c :
  stream (cs ++ [c]) = stream cs ++ match c with Write d => [d] | _ => [] end.
Proof. unfold stream. rewrite omap_app. by destruct c. Qed.

Lemma onmessage_stream rt k data st s :
  sessions st !! k = Some s ->
  exists s', sessions (onmessage rt k data st).2 !! k = Some s'
             /\ websocket s' = websocket s
             /\ stream (calls (terminal s'))
                = stream (calls (terminal s)) ++ option_list (stdio_payload rt data).
Proof.
  intros Hs.
  assert (Hsame : exists s', sessions st !! k = Some s' /\ websocket s' = websocket s
                    /\ stream (calls (terminal s')) = stream (calls (terminal s)) ++ [])
    by (exists s; by rewrite app_nil_r).
  assert (Hline : forall l, exists s',
            alter (on_terminal (XTerm_call (Writeln l))) k (sessions st) !! k = Some s'
            /\ websocket s' = websocket s
            /\ stream (calls (terminal s')) = stream (calls (terminal s)) ++ []).
  { intros l. eexists. split; [by rewrite list_lookup_alter_eq, Hs|].
    split; [done|]. simpl. by rewrite stream_snoc. }
  unfold onmessage, stdio_payload, try_catch. rewrite run_bind.
  destruct (JSON_parse rt data) as [m|]; simpl; [|exact Hsame].
  msimpl.
  destruct m; simpl; try exact Hsame.
  destruct (own_property "type" fields) as [[]|]; simpl; try exact Hsame.
  destruct (is_stdio s0) eqn:Hio.
  - msimpl. eexists. split; [by rewrite list_lookup_alter_eq, Hs|].
    split; [done|]. simpl. by rewrite stream_snoc.
  - repeat (destruct (bool_decide _); msimpl;
            [destruct (template (own_property "data" fields)); msimpl;
              first [exact Hsame | apply Hline] |]).
    exact Hsame.
Qed.

Lemma deliver_stream rt k datas : forall st s,
  sessions st !! k = Some s ->
  stream (terminal_calls k (deliver rt k datas st))
  = stream (calls (terminal s)) ++ omap (stdio_payload rt) datas.
Proof.
  induction datas as [|data datas IH]; intros st s Hs; simpl.
  - unfold terminal_calls. rewrite Hs. simpl. by rewrite app_nil_r.
  - destruct (onmessage_stream rt k data st s Hs) as (s' & Hs' & _ & Hst).
    rewrite (IH _ s' Hs'), Hst, <- app_assoc. f_equal.
    by destruct (stdio_payload rt data).
Qed.

Lemma onmessage_stdio rt k data st s d :
  sessions st !! k = Some s -> stdio_payload rt data = Some d ->
  sessions (onmessage rt k data st).2 !! k = Some (on_terminal (XTerm_call (Write d)) s).
Proof.
  intros Hs. unfold stdio_payload, onmessage, try_catch. rewrite run_bind.
  destruct (JSON_parse rt data) as [[| | | | |fields]|]; try done. simpl. msimpl.
  destruct (own_property "type" fields) as [[| | |t| |]|]; try done.
  simpl. destruct (is_stdio t); [|done]. intros [= <-]. msimpl.
  by rewrite list_lookup_alter_eq, Hs.
Qed.

Lemma deliver_stdio rt k datas payloads :
  Forall2 (fun data d => stdio_payload rt data = Some d) datas payloads ->
  forall st s, sessions st !! k = Some s ->
  terminal_calls k (deliver rt k datas st) = calls (terminal s) ++ map Write payloads.
Proof.
  induction 1 as [|data d datas payloads Hd _ IH]; intros st s Hs; simpl.
  - unfold terminal_calls. rewrite Hs. simpl. by rewrite app_nil_r.
  - rewrite (IH _ _ (onmessage_stdio rt k data st s d Hs Hd)). simpl.
    by rewrite <- app_assoc.
Qed.

(** C2.  For a sequence of inbound frames of type [stdout] or [stderr]
    the message handler of a session makes exactly one [write] call per
    frame on its emulator, with exactly the frame's payload, in arrival
    order, and no other call.  Whatever texts arrive, in whatever mix of
    frame types, the arguments of the [write] calls are the payloads of the
    [stdout] and [stderr] frames among them, in arrival order: no other
    frame contributes to the raw output. *)
Theorem stdio_frames_written_in_order rt k datas st s :
  sessions st !! k = Some s ->
  (forall payloads,
     Forall2 (fun data d => stdio_payload rt data = Some d) datas payloads ->
     terminal_calls k (deliver rt k datas st) = calls (terminal s) ++ map Write payloads)
  /\ stream (terminal_calls k (deliver rt k datas st))
     = stream (calls (terminal s)) ++ omap (stdio_payload rt) datas.
Proof.
  intros Hs. split; [|by apply deliver_stream].
  intros payloads Hall. by apply deliver_stdio.
Qed.

Lemma stdio_frames_written_in_order_witness :
  let st := Sample.after Sample.connect in
  let datas := [Sample.frame_text "connected" "ready";
                Sample.frame_text "stdout" "$ ";
                "not json";
                Sample.frame_text "stderr" "sh: ls: not found"] in
  exists s, sessions st !! 0 = Some s
            /\ stream (calls (terminal s)) = []
            /\ stream (terminal_calls 0 (deliver Sample.rt 0 datas st))
               = [Some (JStr "$ "); Some (JStr "sh: ls: not found")].
Proof.
  intros st datas.
  assert (Hs : sessions st !! 0 = Some (default (new_session Sample.props "" Sample.fit)
                                          (sessions st !! 0)))
    by (vm_compute; reflexivity).
  eexists. split; [exact Hs|]. split; [vm_compute; reflexivity|].
  destruct (stdio_frames_written_in_order Sample.rt 0 datas st _ Hs) as [_ H].
  rewrite H. vm_compute. reflexivity.
Defined.

Lemma returns_onmessage rt k data : returns (onmessage rt k data).
Proof. unfold onmessage. apply returns_try_catch. intros e st. reflexivity. Qed.

(** C3, amended.  No text makes the handler throw.  A text that
    [JSON.parse] rejects is reported on the console and dropped: the store
    is the one before the message with one more console entry, so the
    connection flag, the rates, the byte counters, the emulators and
    sockets and the timers are what they were.  A text that is valid JSON
    but not the expected record is counted before the handler looks at
    it: the counter of received bytes has grown by its byte length and
    nothing else has changed, except that for [null] the failure is
    reported on the console like a parse failure. *)
Theorem malformed_message_is_discarded rt k data st :
  let st' := (onmessage rt k data st).2 in
  let counted := (updateNetworkStats (Blob_size data) false st).2 in
  is_normal (onmessage rt k data st).1 = true
  /\ (JSON_parse rt data = None ->
      onmessage rt k data st
      = (Normal tt,
         set_console (console st ++ ["Failed to parse WebSocket message: SyntaxError"]) st)
      /\ isConnected st' = isConnected st
      /\ networkSpeed st' = networkSpeed st
      /\ networkStatsRef st' = networkStatsRef st
      /\ sessions st' = sessions st
      /\ timers st' = timers st)
  /\ (JSON_parse rt data = Some JNull ->
      st' = set_console
              (console st
               ++ ["Failed to parse WebSocket message: "
                   +:+ "TypeError: Cannot read properties of null"]) counted)
  /\ (forall m, JSON_parse rt data = Some m -> m <> JNull ->
        (forall fields, m = JObj fields ->
           forall t, own_property "type" fields <> Some (JStr t)) ->
        st' = counted)
  /\ (forall m, JSON_parse rt data = Some m ->
        (forall fields, m = JObj fields ->
           forall t, own_property "type" fields <> Some (JStr t)) ->
        bytesReceived (networkStatsRef st')
        = (bytesReceived (networkStatsRef st) + Blob_size data)%Z
        /\ bytesSent (networkStatsRef st') = bytesSent (networkStatsRef st)
        /\ isConnected st' = isConnected st
        /\ networkSpeed st' = networkSpeed st
        /\ sessions st' = sessions st
        /\ timers st' = timers st).
Proof.
  intros st' counted. subst st' counted.
  assert (Hnull : JSON_parse rt data = Some JNull ->
            (onmessage rt k data st).2
            = set_console
                (console st
                 ++ ["Failed to parse WebSocket message: "
                     +:+ "TypeError: Cannot read properties of null"])
                (updateNetworkStats (Blob_size data) false st).2).
  { intros Hp. unfold onmessage, try_catch. rewrite run_bind, Hp. reflexivity. }
  assert (Hother : forall m, JSON_parse rt data = Some m -> m <> JNull ->
            (forall fields, m = JObj fields ->
               forall t, own_property "type" fields <> Some (JStr t)) ->
            (onmessage rt k data st).2 = (updateNetworkStats (Blob_size data) false st).2).
  { intros m Hp Hn Hty. unfold onmessage, try_catch. rewrite run_bind, Hp. simpl.
    destruct m as [| | | | |fields]; try done.
    simpl. specialize (Hty fields eq_refl).
    destruct (own_property "type" fields) as [[| | |t| |]|]; try done.
    by destruct (Hty t). }
  split; [apply returns_onmessage|]. split; [|split; [exact Hnull|split; [exact Hother|]]].
  - intros Hp.
    assert (E : onmessage rt k data st
                = (Normal tt,
                   set_console
                     (console st ++ ["Failed to parse WebSocket message: SyntaxError"]) st)).
    { unfold onmessage, try_catch. rewrite run_bind, Hp. reflexivity. }
    rewrite E. repeat split.
  - intros m Hp Hty.
    assert (Hm : m = JNull \/ m <> JNull) by (destruct m; auto).
    destruct Hm as [->|Hn].
    + rewrite (Hnull Hp). repeat split.
    + rewrite (Hother m Hp Hn Hty). repeat split.
Qed.

Lemma malformed_message_is_discarded_witness :
  let st := Sample.after Sample.connect in
  JSON_parse Sample.rt "not json" = None
  /\ onmessage Sample.rt 0 "not json" st
     = (Normal tt,
        set_console (console st ++ ["Failed to parse WebSocket message: SyntaxError"]) st)
  /\ JSON_parse Sample.rt "null" = Some JNull
  /\ isConnected (onmessage Sample.rt 0 "null" st).2 = isConnected st
  /\ sessions (onmessage Sample.rt 0 "null" st).2 = sessions st
  /\ bytesReceived (networkStatsRef (onmessage Sample.rt 0 "null" st).2)
     = (bytesReceived (networkStatsRef st) + 4)%Z.
Proof.
  intros st.
  assert (Hp : JSON_parse Sample.rt "not json" = None) by (vm_compute; reflexivity).
  assert (Hn : JSON_parse Sample.rt "null" = Some JNull) by (vm_compute; reflexivity).
  destruct (malformed_message_is_discarded Sample.rt 0 "not json" st) as (_ & Hbad & _).
  destruct (malformed_message_is_discarded Sample.rt 0 "null" st) as (_ & _ & _ & _ & Hval).
  destruct (Hval JNull Hn ltac:(discriminate)) as (Hr & _ & Hc & _ & Hs & _).
  exact (conj Hp (conj (proj1 (Hbad Hp)) (conj Hn (conj Hc (conj Hs Hr))))).
Defined.

(** C3 as stated fails: [null] is valid JSON but not the expected record;
    the handler reports it like a parse failure, and the counter of
    received bytes has changed. *)
Lemma null_payload_is_counted :
  let st := Sample.after Sample.connect in
  let st' := (onmessage Sample.rt 0 "null" st).2 in
  JSON_parse Sample.rt "null" = Some JNull
  /\ console st'
     = console st
       ++ ["Failed to parse WebSocket message: TypeError: Cannot read properties of null"]
  /\ bytesReceived (networkStatsRef st) = 0%Z
  /\ bytesReceived (networkStatsRef st') = 4%Z
  /\ networkStatsRef st' <> networkStatsRef st.
Proof.
  intros st st'.
  split; [vm_compute; reflexivity|]. split; [vm_compute; reflexivity|].
  split; [vm_compute; reflexivity|]. split; [vm_compute; reflexivity|].
  intros E. apply (f_equal bytesReceived) in E. vm_compute in E. discriminate E.
Qed.

(** ** Outbound frames *)

Ltac returning :=
  repeat first
    [ progress intros
    | solve [auto with callbacks]
    | match goal with
      | |- returns (_ ≫= _) => apply returns_bind
      | |- returns (when _ _) => apply returns_when
      | |- returns (modify _) => apply returns_modify
      | |- returns (match ?x with _ => _ end) => destruct x
      | |- returns (if ?b then _ else _) => destruct b
      end ].

Lemma returns_onopen k now : returns (onopen k now).
Proof. intros st. by rewrite onopen_run. Qed.

Lemma returns_onclose k code : returns (onclose k code).
Proof. intros st. by rewrite onclose_run. Qed.

Lemma returns_render rt p fit : returns (render rt p fit).
Proof. intros st. by rewrite render_run. Qed.

Lemma returns_on_session k g : returns (on_session k g).
Proof. intros st. reflexivity. Qed.

#[export] Hint Resolve returns_onopen returns_onclose returns_render returns_on_session
  returns_onmessage returns_runCleanup : callbacks.

(** No callback of the component lets an exception escape. *)
Lemma returns_handler rt ev : returns (handler rt ev).
Proof.
  destruct ev; simpl;
    unfold unmount, handlePodChange, handleContainerChange, clearTerminal, onerror,
      speedTick, setSelectedPod, setSelectedContainer, setNetworkSpeed, setIsConnected,
      console_error, terminal_writeln;
    returning.
Qed.

Lemma senders_drop k st :
  socket_state k st <> Some OPEN ->
  (forall data, onData k data st = (Normal tt, st))
  /\ handleTerminalResize k st = (Normal tt, st)
  /\ pingTick k st = (Normal tt, st).
Proof.
  intros Hk. pose proof (readyState_not_OPEN k st Hk) as E. repeat split.
  - intros data. unfold onData. rewrite run_bind. simpl. by rewrite E.
  - unfold handleTerminalResize. msimpl. by rewrite E, andb_false_r.
  - unfold pingTick. rewrite run_bind. simpl. by rewrite E.
Qed.

(** *** Only an open socket is handed a message *)

Ltac walk leaf :=
  repeat first
    [ progress intros
    | match goal with
      | |- preserves _ (_ ≫= _) => apply preserves_bind
      | |- preserves _ (try_catch _ _) => apply preserves_try_catch
      | |- preserves _ (when _ _) => apply preserves_when
      | |- preserves _ (gets _) => apply preserves_gets
      | |- preserves _ (mret _) => apply preserves_ret
      | |- preserves _ (lift _) => apply preserves_lift
      | |- preserves _ (throw _) => apply preserves_throw
      | |- preserves _ (match ?x with _ => _ end) => destruct x
      | |- preserves _ (if ?b then _ else _) => destruct b
      end
    | leaf ].

Lemma quiet_on_terminal f : quiet (on_terminal f).
Proof. intros s. simpl. auto. Qed.

Lemma quiet_close code : quiet (on_websocket (WebSocket_close code)).
Proof.
  intros s. simpl. split; [done|].
  unfold live_socket. by destruct (readyState (websocket s)).
Qed.

Lemma quiet_closed : quiet (on_websocket (WebSocket_set_readyState CLOSED)).
Proof. intros s. simpl. split; done. Qed.

Lemma quiet_set_resizeObserver b : quiet (set_resizeObserver b).
Proof. intros s. simpl. auto. Qed.

Lemma quiet_set_resizeTimeout b : quiet (set_resizeTimeout b).
Proof. intros s. simpl. auto. Qed.

#[export] Hint Resolve quiet_on_terminal quiet_close quiet_closed quiet_set_resizeObserver
  quiet_set_resizeTimeout : callbacks.

Section SentWhileOpen.

Variable st0 : State.

Lemma swo_frame st st' :
  sent_while_open st0 st -> sessions st' = sessions st -> sent_while_open st0 st'.
Proof. intros H E k s0 Hk. rewrite E. by apply H. Qed.

Lemma swo_on_session k g : quiet g -> preserves (sent_while_open st0) (on_session k g).
Proof.
  intros Hg st H j s0 Hj. destruct (H j s0 Hj) as (s & Hs & Hor). simpl.
  destruct (decide (k = j)) as [->|Hne].
  - exists (g s). split; [by rewrite list_lookup_alter_eq, Hs|].
    destruct (Hg s) as [Hsent Hopen].
    destruct Hor as [?|[E Hno]]; [by left | right]. split; [congruence | auto].
  - exists s. split; [by rewrite list_lookup_alter_ne | done].
Qed.

Lemma swo_websocket_send k msg : preserves (sent_while_open st0) (websocket_send k msg).
Proof.
  intros st H j s0 Hj. destruct (H j s0 Hj) as (s & Hs & Hor).
  unfold websocket_send. destruct (sessions st !! k) as [sk|] eqn:Hk; [|eauto].
  unfold WebSocket_send.
  destruct (readyState (websocket sk)) eqn:Hr; simpl; [by eauto| | |];
    (destruct (decide (k = j)) as [->|Hne];
     [ rewrite list_lookup_insert_eq by (by eapply lookup_lt_Some);
       eexists; split; [reflexivity|]; simpl;
       assert (sk = s) as -> by congruence;
       destruct Hor as [?|[E Hno]]; [by left | first [congruence | right; split; congruence]]
     | rewrite list_lookup_insert_ne by done; eauto ]).
Qed.

Lemma swo_append st x :
  sent_while_open st0 st ->
  sent_while_open st0 (set_sessions (sessions st ++ [x]) st).
Proof.
  intros H j s0 Hj. destruct (H j s0 Hj) as (s & Hs & Hor).
  exists s. split; [|done]. simpl. by apply lookup_app_l_Some.
Qed.

End SentWhileOpen.

Ltac swo_leaf :=
  idtac;
  match goal with
  | |- preserves _ (on_session _ _) => apply swo_on_session; solve [auto with callbacks]
  | |- preserves _ (websocket_send _ _) => apply swo_websocket_send
  | |- preserves _ (modify (fun st => set_sessions (sessions st ++ _) st)) =>
      apply preserves_modify; intros ? ?; by apply swo_append
  | |- preserves _ (modify _) =>
      apply preserves_modify; intros ? ?; eapply swo_frame; [eassumption | reflexivity]
  end.

Lemma swo_handler rt st0 ev :
  is_WsOpen ev = false -> preserves (sent_while_open st0) (handler rt ev).
Proof.
  intros Hopen. destruct ev; try done; simpl;
    unfold render, unmount, run_effects, runCleanup, cleanup, lifecycle, dispose_previous,
      construct, initSelection, handlePodChange, handleContainerChange, clearTerminal,
      onmessage, dispatch, onerror, onclose, speedTick, pingTick, onData,
      handleTerminalResize, send_frame, clear_if_set, clearInterval, updateNetworkStats,
      console_error, terminal_write, terminal_writeln, terminal_dispose, websocket_close,
      websocket_readyState, setIsConnected, setNetworkSpeed, setSelectedPod,
      setSelectedContainer;
    walk swo_leaf.
Qed.

Lemma swo_refl st : sent_while_open st st.
Proof.
  intros k s Hs. exists s. split; [done|].
  destruct (decide (readyState (websocket s) = OPEN)); auto.
Qed.

Lemma same_sent_opened k now st :
  same_sent st
    (onopen k now (on_session k (on_websocket (WebSocket_set_readyState OPEN)) st).2).2.
Proof.
  intros j s0 Hj. rewrite onopen_run. simpl.
  destruct (decide (k = j)) as [->|Hne].
  - eexists. split; [by rewrite !list_lookup_alter_eq, Hj|]. done.
  - exists s0. split; [by rewrite !list_lookup_alter_ne|done].
Qed.

(** Whatever the event, a socket's list of sent messages changes only if
    the socket was OPEN when the event was delivered. *)
Lemma step_sends_only_open rt ev st st' :
  step rt ev st = Some st' ->
  forall k s, sessions st !! k = Some s ->
    exists s', sessions st' !! k = Some s'
               /\ (sent (websocket s') = sent (websocket s)
                   \/ readyState (websocket s) = OPEN).
Proof.
  unfold step. destruct (enabled ev st); [|done]. intros [= <-] k s Hs.
  destruct (is_WsOpen ev) eqn:Hopen.
  - destruct ev; try done. simpl. rewrite run_seq by apply returns_on_session.
    destruct (same_sent_opened k0 now st k s Hs) as (s' & Hs' & E). eauto.
  - destruct (swo_handler rt st ev Hopen st (swo_refl st) k s Hs) as (s' & Hs' & Hor).
    exists s'. split; [done|]. destruct Hor as [?|[? _]]; auto.
Qed.

(** C4.  A sender that finds the socket in any state but OPEN returns at
    once: nothing is handed to the socket, no byte is counted, nothing
    else changes and nothing is thrown; this holds for the three senders
    (terminal input, resize, ping).  Whatever event is delivered, the
    messages sent on a socket change only if the socket was OPEN at that
    moment.  Along every run of the component no callback throws (so
    [send] was never called on a connecting socket) and no socket ever
    discarded a message (so [send] was never called on a closing or closed
    one). *)
Theorem no_frame_unless_open rt st :
  reachable rt st ->
  (forall k, socket_state k st <> Some OPEN ->
     (forall data, onData k data st = (Normal tt, st))
     /\ handleTerminalResize k st = (Normal tt, st)
     /\ pingTick k st = (Normal tt, st))
  /\ (forall ev st' k s,
        step rt ev st = Some st' -> sessions st !! k = Some s ->
        readyState (websocket s) <> OPEN ->
        exists s', sessions st' !! k = Some s' /\ sent (websocket s') = sent (websocket s))
  /\ (forall ev, is_normal (handler rt ev st).1 = true)
  /\ (forall k s, sessions st !! k = Some s -> discarded (websocket s) = []).
Proof.
  intros Hr. split; [intros k; apply senders_drop|].
  split.
  { intros ev st' k s Hstep Hs Hno.
    destruct (step_sends_only_open rt ev st st' Hstep k s Hs) as (s' & Hs' & [E|E]);
      [eauto | done]. }
  split; [intros ev; apply returns_handler|].
  apply inv_discarded. by eapply reachable_Inv.
Qed.

Lemma no_frame_unless_open_witness :
  let st := Sample.after Sample.switch_pod in
  reachable Sample.rt st
  /\ socket_state 0 st = Some CLOSING
  /\ onData 0 "ls" st = (Normal tt, st)
  /\ handleTerminalResize 0 st = (Normal tt, st)
  /\ pingTick 0 st = (Normal tt, st).
Proof.
  intros st.
  assert (Hr : reachable Sample.rt st).
  { apply (run_reachable Sample.rt Sample.switch_pod (initial 0));
      [apply reachable_initial | vm_compute; reflexivity]. }
  assert (Hk : socket_state 0 st = Some CLOSING) by (vm_compute; reflexivity).
  destruct (no_frame_unless_open Sample.rt st Hr) as (Hdrop & _).
  destruct (Hdrop 0 ltac:(rewrite Hk; discriminate)) as (Hd & Hz & Hp).
  exact (conj Hr (conj Hk (conj (Hd "ls") (conj Hz Hp)))).
Defined.

(** ** The entry guard *)

(** For a pod terminal the effect goes on exactly when this holds. *)
Lemma pod_guard p sp sc :
  type_of p = pod ->
  returns_early p sp sc true
  = (match pods p with
     | Some a => bool_decide (length (elems a) = 0) && falsy sp
     | None => falsy sp
     end) || falsy sc.
Proof.
  intros Hty. unfold returns_early. rewrite Hty. simpl.
  destruct (pods p) as [a|]; [destruct (bool_decide (length (elems a) = 0))|];
    simpl; by rewrite ?orb_false_r.
Qed.

(** With a non-empty [pods] list an empty pod selection passes the guard. *)
Lemma guard_skips_pod_test p a sc :
  type_of p = pod -> pods p = Some a -> elems a <> [] -> sc <> "" ->
  returns_early p "" sc true = false.
Proof.
  intros Hty Hp Ha Hsc. rewrite pod_guard by done. rewrite Hp.
  destruct (elems a) as [|q l] eqn:E; [done|]. simpl.
  unfold falsy. by rewrite bool_decide_eq_false_2.
Qed.

(** Without a container, and without a pod when there is no [pods] list,
    the effect returns before it touches anything. *)
Lemma guard_blocks_unresolved rt p sp sc fit st :
  type_of p = pod ->
  sc = "" \/ (sp = "" /\ (pods p = None \/ exists a, pods p = Some a /\ elems a = [])) ->
  lifecycle rt p sp sc fit st = (Normal tt, st).
Proof.
  intros Hty H. rewrite lifecycle_run.
  assert (E : returns_early p sp sc (terminalRef st) = true); [|by rewrite E].
  unfold returns_early. rewrite Hty. apply orb_true_iff. left. apply orb_true_iff. left.
  destruct H as [->|[-> H]]; [apply orb_true_r|].
  apply orb_true_iff. left.
  destruct H as [->|(a & -> & ->)]; done.
Qed.

(** C5, what the code does at the failing input: with [pods] non-empty
    and the pod selection emptied by the selector, the effect passes its
    guard and opens a socket for an empty pod name. *)
Theorem connects_with_unresolved_pod :
  let st := Sample.after Sample.clear_pod in
  run Sample.rt Sample.clear_pod (initial 0) = Some st
  /\ selectedPod st = ""
  /\ selectedContainer st = "app"
  /\ exists s, sessions st !! 1 = Some s
               /\ readyState (websocket s) = CONNECTING
               /\ url (websocket s)
                  = "wss://kite.example.com/api/v1/terminal/default//ws?container=app&x-cluster-name=prod".
Proof.
  split; [vm_compute; reflexivity|].
  split; [vm_compute; reflexivity|].
  split; [vm_compute; reflexivity|].
  eexists. split; [vm_compute; reflexivity|].
  split; vm_compute; reflexivity.
Qed.

(** ** Closing *)

Lemma terminal_calls_alter k c st s :
  sessions st !! k = Some s ->
  terminal_calls k (set_sessions (alter (on_terminal (XTerm_call c)) k (sessions st)) st)
  = calls (terminal s) ++ [c].
Proof.
  intros Hs. unfold terminal_calls. simpl. by rewrite list_lookup_alter_eq, Hs.
Qed.

Lemma onclose_calls k code st s :
  sessions st !! k = Some s ->
  terminal_calls k (onclose k code st).2
  = calls (terminal s)
    ++ [Writeln (if bool_decide (code ≠ NORMAL_CLOSURE)
                 then red "Connection closed unexpectedly"
                 else green "Connection closed")].
Proof.
  intros Hs. rewrite onclose_run. unfold terminal_calls. simpl.
  by rewrite list_lookup_alter_eq, Hs.
Qed.

(** The store in which [onclose] runs when the close event of socket [k]
    is delivered: the socket is CLOSED and, if the connection failed,
    [onerror] has run. *)
Lemma closing_run rt k failed code st :
  handler rt (WsClose k failed code) st
  = onclose k code
      (when failed (onerror k)
         (on_session k (on_websocket (WebSocket_set_readyState CLOSED)) st).2).2.
Proof.
  simpl. rewrite run_seq by apply returns_on_session.
  rewrite run_seq; [done|].
  apply returns_when. unfold onerror, console_error, terminal_writeln, setIsConnected.
  returning.
Qed.

(** C6.  The close handler writes exactly one line to the emulator of
    its session: the red "Connection closed unexpectedly" when the code is
    not 1000, the green "Connection closed" when it is.  When the browser
    delivers the close of a failed connection, the error handler's line
    comes before it. *)
Theorem close_writes_one_status_line rt k failed code st s :
  sessions st !! k = Some s ->
  (code <> 1000%Z ->
   terminal_calls k (onclose k code st).2
   = calls (terminal s) ++ [Writeln (red "Connection closed unexpectedly")])
  /\ (code = 1000%Z ->
      terminal_calls k (onclose k code st).2
      = calls (terminal s) ++ [Writeln (green "Connection closed")])
  /\ terminal_calls k (handler rt (WsClose k failed code) st).2
     = calls (terminal s)
       ++ (if failed then [Writeln (red "WebSocket connection error")] else [])
       ++ [Writeln (if bool_decide (code = 1000%Z)
                    then green "Connection closed"
                    else red "Connection closed unexpectedly")].
Proof.
  intros Hs. split; [|split].
  - intros Hc. rewrite (onclose_calls k code st s Hs).
    by rewrite bool_decide_eq_true_2.
  - intros Hc. rewrite (onclose_calls k code st s Hs).
    by rewrite bool_decide_eq_false_2 by (intros H; by apply H).
  - rewrite closing_run.
    set (line := if bool_decide (code = 1000%Z) then _ else _).
    assert (Hline : (if bool_decide (code ≠ NORMAL_CLOSURE)
                     then red "Connection closed unexpectedly"
                     else green "Connection closed") = line).
    { subst line. unfold NORMAL_CLOSURE.
      destruct (decide (code = 1000%Z)) as [E|E].
      - rewrite bool_decide_eq_false_2 by (intros H; by apply H).
        by rewrite bool_decide_eq_true_2.
      - rewrite bool_decide_eq_true_2 by done. by rewrite bool_decide_eq_false_2. }
    destruct failed; simpl.
    + rewrite (onclose_calls k code _
                 (on_terminal (XTerm_call (Writeln (red "WebSocket connection error")))
                    (on_websocket (WebSocket_set_readyState CLOSED) s)))
        by (simpl; by rewrite !list_lookup_alter_eq, Hs).
      simpl. by rewrite Hline, <- app_assoc.
    + rewrite (onclose_calls k code _ (on_websocket (WebSocket_set_readyState CLOSED) s))
        by (simpl; by rewrite list_lookup_alter_eq, Hs).
      simpl. by rewrite Hline.
Qed.

Lemma close_writes_one_status_line_witness :
  let st := Sample.after Sample.connect in
  exists s, sessions st !! 0 = Some s
            /\ (1006 <> 1000)%Z
            /\ terminal_calls 0 (onclose 0 1006 st).2
               = calls (terminal s) ++ [Writeln (red "Connection closed unexpectedly")].
Proof.
  intros st.
  assert (Hs : sessions st !! 0 = Some (default (new_session Sample.props "" Sample.fit)
                                          (sessions st !! 0)))
    by (vm_compute; reflexivity).
  assert (Hc : (1006 <> 1000)%Z) by lia.
  eexists. split; [exact Hs|]. split; [exact Hc|].
  exact (proj1 (close_writes_one_status_line Sample.rt 0 false 1006 st _ Hs) Hc).
Defined.

(** ** Resizing *)

(** C7 as stated fails: with the socket open and the geometry unchanged
    at 80 x 24, two notifications of the resize observer send two
    identical resize frames. *)
Lemma resize_sent_twice_for_one_geometry :
  let st := Sample.after Sample.observe_twice in
  run Sample.rt Sample.observe_twice (initial 0) = Some st
  /\ exists s, sessions st !! 0 = Some s
               /\ readyState (websocket s) = OPEN
               /\ (cols (terminal s), rows (terminal s)) = (80, 24)%N
               /\ sent (websocket s)
                  = [Wire.JSON_stringify (Wire.resize 80 24);
                     Wire.JSON_stringify (Wire.resize 80 24)].
Proof.
  split; [vm_compute; reflexivity|].
  eexists. split; [vm_compute; reflexivity|].
  repeat split; vm_compute; reflexivity.
Qed.

(** C7, amended.  Every run of the resize handler (it runs on the 100 ms
    timeout and on each notification of the resize observer) sends one
    resize frame with the current geometry of its emulator when
    the socket is OPEN, and does nothing at all otherwise.  There is no
    debouncing and no comparison with the geometry sent before; refitting
    the emulator sends nothing by itself. *)
Theorem resize_handler_sends_current_geometry rt k st s :
  sessions st !! k = Some s -> is_Some (fitAddonRef st) ->
  (readyState (websocket s) = OPEN ->
   handleTerminalResize k st
   = send_frame k (Wire.resize (cols (terminal s)) (rows (terminal s))) st
   /\ exists s', sessions (handleTerminalResize k st).2 !! k = Some s'
                 /\ sent (websocket s')
                    = sent (websocket s)
                      ++ [Wire.JSON_stringify
                            (Wire.resize (cols (terminal s)) (rows (terminal s)))])
  /\ (readyState (websocket s) <> OPEN -> handleTerminalResize k st = (Normal tt, st))
  /\ handler rt (ResizeObserved k) st = handleTerminalResize k st
  /\ (forall c r, exists s', sessions (handler rt (Refit k c r) st).2 !! k = Some s'
                             /\ sent (websocket s') = sent (websocket s)).
Proof.
  intros Hs Hfit. split; [|split; [|split]].
  - intros Hopen.
    assert (E : handleTerminalResize k st
                = send_frame k (Wire.resize (cols (terminal s)) (rows (terminal s))) st).
    { unfold handleTerminalResize. msimpl. rewrite Hs. simpl. rewrite Hopen.
      rewrite !bool_decide_eq_true_2 by done. simpl. msimpl. by rewrite Hs. }
    split; [exact E|]. rewrite E, (send_frame_OPEN k _ st s Hs Hopen). simpl.
    eexists. split; [apply list_lookup_insert_eq; by eapply lookup_lt_Some|]. done.
  - intros Hno. apply senders_drop. unfold socket_state. rewrite Hs. simpl. congruence.
  - reflexivity.
  - intros c r. simpl. eexists. split; [by rewrite list_lookup_alter_eq, Hs|]. done.
Qed.

Lemma resize_handler_sends_current_geometry_witness :
  let st := Sample.after Sample.connect in
  exists s, sessions st !! 0 = Some s
            /\ is_Some (fitAddonRef st)
            /\ readyState (websocket s) = OPEN
            /\ handleTerminalResize 0 st
               = send_frame 0 (Wire.resize (cols (terminal s)) (rows (terminal s))) st.
Proof.
  intros st.
  assert (Hs : sessions st !! 0 = Some (default (new_session Sample.props "" Sample.fit)
                                          (sessions st !! 0)))
    by (vm_compute; reflexivity).
  assert (Hfit : is_Some (fitAddonRef st)) by (exists 0; vm_compute; reflexivity).
  assert (Hopen : readyState (websocket (default (new_session Sample.props "" Sample.fit)
                                           (sessions st !! 0))) = OPEN)
    by (vm_compute; reflexivity).
  eexists. split; [exact Hs|]. split; [exact Hfit|]. split; [exact Hopen|].
  exact (proj1 (proj1 (resize_handler_sends_current_geometry Sample.rt 0 st _ Hs Hfit) Hopen)).
Defined.

(** ** The traffic meter after a close *)

Lemma idle_frame st st' :
  meter_idle st -> networkSpeed st' = networkSpeed st -> timers st' = timers st ->
  meter_idle st'.
Proof. intros [H1 H2] En Et. split; rewrite ?En, ?Et; assumption. Qed.

Lemma idle_clearInterval t : preserves meter_idle (clearInterval t).
Proof.
  intros st [H1 H2]. split; simpl; [done|].
  intros j tm' Hj Hk.
  apply lookup_alter_Some in Hj as [(-> & tm & Htm & ->)|[_ Htm]]; [done | by eapply H2].
Qed.

Lemma idle_zero : preserves meter_idle (setNetworkSpeed zero_speed).
Proof. intros st [H1 H2]. split; simpl; done. Qed.

Lemma idle_websocket_send k msg : preserves meter_idle (websocket_send k msg).
Proof.
  intros st H. unfold websocket_send.
  destruct (sessions st !! k) as [s|]; [|done].
  destruct (WebSocket_send msg (websocket s)); [|done].
  by eapply idle_frame.
Qed.

Ltac idle_leaf :=
  idtac;
  match goal with
  | |- preserves _ (clearInterval _) => apply idle_clearInterval
  | |- preserves _ (setNetworkSpeed zero_speed) => apply idle_zero
  | |- preserves _ (websocket_send _ _) => apply idle_websocket_send
  | |- preserves _ (modify _) =>
      apply preserves_modify; intros ? ?; eapply idle_frame; [eassumption | reflexivity ..]
  end.

(** Nothing but [onopen] starts the sampler, and nothing but the sampler
    and [onopen] change the rates. *)
Lemma idle_handler rt ev :
  is_WsOpen ev = false -> (forall t now, ev <> SpeedTick t now) ->
  preserves meter_idle (handler rt ev).
Proof.
  intros Hopen Htick. destruct ev; try done; simpl;
    unfold render, unmount, run_effects, runCleanup, cleanup, lifecycle, dispose_previous,
      construct, initSelection, handlePodChange, handleContainerChange, clearTerminal,
      onmessage, dispatch, onerror, onclose, pingTick, onData, handleTerminalResize,
      send_frame, clear_if_set, updateNetworkStats, console_error,
      terminal_write, terminal_writeln, terminal_dispose, websocket_close, on_session,
      websocket_readyState, setIsConnected, setSelectedPod, setSelectedContainer;
    walk idle_leaf.
  exfalso. by eapply Htick.
Qed.

Lemma idle_step rt ev st st' :
  meter_idle st -> is_WsOpen ev = false -> step rt ev st = Some st' -> meter_idle st'.
Proof.
  intros Hidle Hopen. unfold step. destruct (enabled ev st) eqn:En; [|done].
  intros [= <-].
  assert (Hne : forall t now, ev <> SpeedTick t now).
  { intros t now ->. simpl in En. destruct (timers st !! t) as [tm|] eqn:Ht; [|done].
    apply andb_true_iff in En as [Hact Hk]. apply bool_decide_eq_true in Hk.
    destruct Hidle as [_ Hoff]. rewrite (Hoff t tm Ht Hk) in Hact. done. }
  by apply idle_handler.
Qed.

Lemma idle_run rt evs : forall st st',
  meter_idle st -> forallb (fun ev => negb (is_WsOpen ev)) evs = true ->
  run rt evs st = Some st' -> meter_idle st'.
Proof.
  induction evs as [|ev evs IH]; intros st st' Hidle Hevs; simpl.
  - by intros [= <-].
  - simpl in Hevs. apply andb_true_iff in Hevs as [Hev Hevs].
    destruct (step rt ev st) as [st1|] eqn:E; [|done].
    apply IH; [|done]. eapply idle_step; [done | by apply negb_true_iff | done].
Qed.

Lemma Inv_closing_mid k failed st :
  Inv st ->
  Inv (when failed (onerror k)
         (on_session k (on_websocket (WebSocket_set_readyState CLOSED)) st).2).2.
Proof.
  intros HI. apply preserves_when; [apply Inv_onerror|].
  revert HI. apply Inv_on_session. auto with callbacks.
Qed.

(** After the close event of any socket both references are cleared and
    no interval of the component is running. *)
Lemma closed_timers rt k failed code st :
  Inv st ->
  let st' := (handler rt (WsClose k failed code) st).2 in
  networkSpeed st' = zero_speed
  /\ speedUpdateTimerRef st' = None
  /\ pingTimerRef st' = None
  /\ forall t tm, timers st' !! t = Some tm -> active tm = false.
Proof.
  intros HI st'. subst st'. rewrite closing_run, onclose_run. simpl.
  repeat split. intros t tm. apply both_cleared_inactive. by apply Inv_closing_mid.
Qed.

(** C8.  When the close event of a socket has been handled, the displayed
    rates are zero, the reference to the sampling interval is cleared and
    no sampling tick can fire; whatever happens next, the rates stay zero
    until a socket opens. *)
Theorem rates_zero_after_close rt st k failed code st1 :
  reachable rt st ->
  step rt (WsClose k failed code) st = Some st1 ->
  networkSpeed st1 = zero_speed
  /\ speedUpdateTimerRef st1 = None
  /\ (forall t now, enabled (SpeedTick t now) st1 = false)
  /\ (forall evs st2,
        forallb (fun ev => negb (is_WsOpen ev)) evs = true ->
        run rt evs st1 = Some st2 ->
        networkSpeed st2 = zero_speed).
Proof.
  intros Hr Hstep. pose proof (reachable_Inv rt st Hr) as HI.
  unfold step in Hstep. destruct (enabled _ st); [|done]. injection Hstep as <-.
  destruct (closed_timers rt k failed code st HI) as (Hz & Hs & _ & Hoff).
  assert (Hidle : meter_idle (handler rt (WsClose k failed code) st).2).
  { split; [exact Hz|]. intros t tm Ht _. by eapply Hoff. }
  split; [exact Hz|]. split; [exact Hs|]. split.
  - intros t now. simpl. destruct (timers _ !! t) as [tm|] eqn:Ht; [|done].
    by rewrite (Hoff t tm Ht).
  - intros evs st2 Hevs Hrun. by destruct (idle_run rt evs _ st2 Hidle Hevs Hrun).
Qed.

Lemma rates_zero_after_close_witness :
  let st := Sample.after (Sample.connect ++ [TermData 0 "ls"; SpeedTick 0 1500]) in
  let st1 := Sample.after (Sample.connect ++ [TermData 0 "ls"; SpeedTick 0 1500;
                                              WsClose 0 false 1000]) in
  reachable Sample.rt st
  /\ step Sample.rt (WsClose 0 false 1000) st = Some st1
  /\ networkSpeed st <> zero_speed
  /\ networkSpeed st1 = zero_speed.
Proof.
  intros st st1.
  assert (Hr : reachable Sample.rt st).
  { apply (run_reachable Sample.rt (Sample.connect ++ [TermData 0 "ls"; SpeedTick 0 1500])
             (initial 0)); [apply reachable_initial | vm_compute; reflexivity]. }
  assert (Hstep : step Sample.rt (WsClose 0 false 1000) st = Some st1)
    by (vm_compute; reflexivity).
  assert (Hne : networkSpeed st <> zero_speed) by (vm_compute; discriminate).
  exact (conj Hr (conj Hstep (conj Hne
           (proj1 (rates_zero_after_close Sample.rt st 0 false 1000 st1 Hr Hstep))))).
Defined.

(** ** Keepalive *)

(** C9.  Keepalive intervals have a period of 30000 ms.  Their callback
    sends a ping when the socket it closes over is OPEN and does nothing
    otherwise.  When the close event of a socket has been handled, the
    reference to the keepalive interval is cleared, no interval is running
    and no ping tick can fire. *)
Theorem keepalive_follows_the_channel rt st :
  reachable rt st ->
  (forall t tm, timers st !! t = Some tm -> is_keepalive tm = true ->
                interval tm = 30000%Z)
  /\ (forall k, socket_state k st <> Some OPEN -> pingTick k st = (Normal tt, st))
  /\ (forall k s, sessions st !! k = Some s -> readyState (websocket s) = OPEN ->
        exists s', sessions (pingTick k st).2 !! k = Some s'
                   /\ sent (websocket s')
                      = sent (websocket s) ++ [Wire.JSON_stringify Wire.ping])
  /\ (forall k failed code st',
        step rt (WsClose k failed code) st = Some st' ->
        pingTimerRef st' = None
        /\ (forall t tm, timers st' !! t = Some tm -> active tm = false)
        /\ (forall t, enabled (PingTick t) st' = false)).
Proof.
  intros Hr. pose proof (reachable_Inv rt st Hr) as HI.
  split; [|split; [|split]].
  - intros t tm Ht Hk. rewrite (inv_interval st HI t tm Ht).
    unfold is_keepalive in Hk. by destruct (kind tm).
  - intros k Hk. by apply senders_drop.
  - intros k s Hs Hopen.
    assert (E : pingTick k st = send_frame k Wire.ping st).
    { unfold pingTick. rewrite run_bind. simpl. rewrite Hs. simpl. rewrite Hopen.
      by rewrite bool_decide_eq_true_2. }
    rewrite E, (send_frame_OPEN k _ st s Hs Hopen). simpl.
    eexists. split; [apply list_lookup_insert_eq; by eapply lookup_lt_Some|]. done.
  - intros k failed code st' Hstep.
    unfold step in Hstep. destruct (enabled _ st); [|done]. injection Hstep as <-.
    destruct (closed_timers rt k failed code st HI) as (_ & _ & Hp & Hoff).
    split; [exact Hp|]. split; [exact Hoff|].
    intros t. simpl. destruct (timers _ !! t) as [tm|] eqn:Ht; [|done].
    by rewrite (Hoff t tm Ht).
Qed.

Lemma keepalive_follows_the_channel_witness :
  let st := Sample.after Sample.connect in
  let st' := Sample.after (Sample.connect ++ [WsClose 0 true 1006]) in
  reachable Sample.rt st
  /\ step Sample.rt (WsClose 0 true 1006) st = Some st'
  /\ pingTimerRef st = Some 1
  /\ (timers st !! 1 = Some {| kind := Keepalive 0; interval := 30000; active := true |})
  /\ pingTimerRef st' = None
  /\ enabled (PingTick 1) st' = false.
Proof.
  intros st st'.
  assert (Hr : reachable Sample.rt st).
  { apply (run_reachable Sample.rt Sample.connect (initial 0));
      [apply reachable_initial | vm_compute; reflexivity]. }
  assert (Hstep : step Sample.rt (WsClose 0 true 1006) st = Some st')
    by (vm_compute; reflexivity).
  destruct (keepalive_follows_the_channel Sample.rt st Hr) as (_ & _ & _ & Hclose).
  destruct (Hclose 0 true 1006%Z st' Hstep) as (Hp & _ & Hoff).
  refine (conj Hr (conj Hstep (conj _ (conj _ (conj Hp (Hoff 1)))))); vm_compute; reflexivity.
Defined.

(** ** An error frame *)

(** C10.  A frame of type [error] with text [text] makes the handler
    write the red line "Error: text" and set the connection flag to false.
    The socket of the session is untouched (same [readyState], no call of
    [close]), and so are the timers and the references to them: sampling
    and keepalive go on until the socket closes. *)
Theorem error_frame_leaves_socket_open rt k data fields text st s :
  sessions st !! k = Some s ->
  JSON_parse rt data = Some (JObj fields) ->
  own_property "type" fields = Some (JStr "error") ->
  own_property "data" fields = Some (JStr text) ->
  let st' := (onmessage rt k data st).2 in
  is_normal (onmessage rt k data st).1 = true
  /\ isConnected st' = false
  /\ (exists s', sessions st' !! k = Some s'
                 /\ calls (terminal s')
                    = calls (terminal s) ++ [Writeln (red ("Error: " +:+ text))]
                 /\ websocket s' = websocket s)
  /\ (forall j, j <> k -> sessions st' !! j = sessions st !! j)
  /\ timers st' = timers st
  /\ speedUpdateTimerRef st' = speedUpdateTimerRef st
  /\ pingTimerRef st' = pingTimerRef st.
Proof.
  intros Hs Hp Hty Hd st'. subst st'.
  assert (E : onmessage rt k data st
              = (Normal tt,
                 set_isConnected false
                   (set_sessions
                      (alter (on_terminal (XTerm_call (Writeln (red ("Error: " +:+ text)))))
                         k (sessions st))
                      (updateNetworkStats (Blob_size data) false st).2))).
  { unfold onmessage, try_catch. rewrite run_bind, Hp. simpl. msimpl.
    rewrite Hty. simpl. msimpl. rewrite Hd. reflexivity. }
  rewrite E. simpl. repeat split.
  - eexists. split; [by rewrite list_lookup_alter_eq, Hs|]. done.
  - intros j Hj. by rewrite list_lookup_alter_ne.
Qed.

Lemma error_frame_leaves_socket_open_witness :
  let st := Sample.after Sample.connect in
  let data := Sample.frame_text "error" "exec failed" in
  let st' := (onmessage Sample.rt 0 data st).2 in
  isConnected st = true
  /\ isConnected st' = false
  /\ socket_state 0 st' = Some OPEN
  /\ timers st' = timers st.
Proof.
  intros st data st'.
  assert (Hs : sessions st !! 0 = Some (default (new_session Sample.props "" Sample.fit)
                                          (sessions st !! 0)))
    by (vm_compute; reflexivity).
  assert (Hp : JSON_parse Sample.rt data
               = Some (JObj [("type", JStr "error"); ("data", JStr "exec failed")]))
    by (vm_compute; reflexivity).
  destruct (error_frame_leaves_socket_open Sample.rt 0 data _ "exec failed" st _
              Hs Hp eq_refl eq_refl) as (_ & Hc & _ & _ & Ht & _).
  refine (conj _ (conj Hc (conj _ Ht))); vm_compute; reflexivity.
Defined.

(** * The scenarios of the specification, run on the model *)

(** The socket opens, the server greets and sends a prompt: the emulator
    shows the two lines of [onopen], the green "ready" line and the prompt;
    the indicator shows connected. *)
Example scenario_connected :
  let st := Sample.after (Sample.connect
                            ++ [WsMessage 0 (Sample.frame_text "connected" "ready");
                                WsMessage 0 (Sample.frame_text "stdout" "$ ")]) in
  url <$> (websocket <$> sessions st !! 0)
  = Some "wss://kite.example.com/api/v1/terminal/default/web-1/ws?container=app&x-cluster-name=prod"
  /\ terminal_calls 0 st
     = [Writeln (green "Connected to pod terminal!"); Writeln "";
        Writeln (green "ready"); Write (Some (JStr "$ "))]
  /\ isConnected st = true.
Proof. repeat split; vm_compute; reflexivity. Qed.

(** The server closes with code 1000: a green line, the indicator shows
    disconnected, the rates are zero. *)
Example scenario_normal_close :
  let st := Sample.after (Sample.connect ++ [WsClose 0 false 1000]) in
  terminal_calls 0 st
  = [Writeln (green "Connected to pod terminal!"); Writeln "";
     Writeln (green "Connection closed")]
  /\ isConnected st = false
  /\ networkSpeed st = zero_speed.
Proof. repeat split; vm_compute; reflexivity. Qed.

(** The connection is lost (code 1006): a red line. *)
Example scenario_abnormal_close :
  let st := Sample.after (Sample.connect ++ [WsClose 0 false 1006]) in
  terminal_calls 0 st
  = [Writeln (green "Connected to pod terminal!"); Writeln "";
     Writeln (red "Connection closed unexpectedly")]
  /\ isConnected st = false.
Proof. repeat split; vm_compute; reflexivity. Qed.

(** * Further properties of the terminal session *)

(** ** Intervals never pile up *)

Lemma restarted_timers k now st :
  Inv st ->
  timers (restarted k now st)
  = both_cleared st
    ++ [{| kind := SpeedUpdate; interval := 500; active := true |};
        {| kind := Keepalive k; interval := 30000; active := true |}]
  /\ speedUpdateTimerRef (restarted k now st) = Some (length (timers st))
  /\ pingTimerRef (restarted k now st) = Some (S (length (timers st))).
Proof.
  intros HI. unfold restarted. simpl.
  assert (Hsame : clear_opt (pingTimerRef st)
            (clear_opt (speedUpdateTimerRef st) (timers st)
             ++ [{| kind := SpeedUpdate; interval := 500; active := true |}])
          = both_cleared st
            ++ [{| kind := SpeedUpdate; interval := 500; active := true |}]).
  { unfold both_cleared. destruct (pingTimerRef st) as [r|] eqn:Hr; simpl; [|done].
    apply alter_app_l. rewrite length_clear_opt. by apply (inv_ping_bound st HI). }
  rewrite Hsame, <- app_assoc. split; [done|].
  rewrite !length_clear_opt. split; [done|].
  f_equal. unfold both_cleared. rewrite length_app, !length_clear_opt. simpl. lia.
Qed.

(** X1.  At any time at most one sampling interval and at most one
    keepalive interval are running.  When a socket opens, whatever was
    running is stopped and exactly two intervals run afterwards: a sampler
    of period 500 ms and a keepalive of period 30000 ms for that socket,
    and the two references hold them. *)
Theorem intervals_never_pile_up rt st :
  reachable rt st ->
  (forall t t' tm tm',
     timers st !! t = Some tm -> timers st !! t' = Some tm' ->
     active tm = true -> active tm' = true ->
     is_keepalive tm = is_keepalive tm' -> t = t')
  /\ (forall k now st',
        step rt (WsOpen k now) st = Some st' ->
        let n := length (timers st) in
        timers st' !! n = Some {| kind := SpeedUpdate; interval := 500; active := true |}
        /\ timers st' !! S n
           = Some {| kind := Keepalive k; interval := 30000; active := true |}
        /\ speedUpdateTimerRef st' = Some n
        /\ pingTimerRef st' = Some (S n)
        /\ (forall t tm, timers st' !! t = Some tm -> active tm = true ->
                         t = n \/ t = S n)).
Proof.
  intros Hr. pose proof (reachable_Inv rt st Hr) as HI. split.
  - intros t t' tm tm' Ht Ht' Ha Ha' Hk.
    pose proof (inv_timer_ref st HI t tm Ht Ha) as E.
    pose proof (inv_timer_ref st HI t' tm' Ht' Ha') as E'.
    unfold is_keepalive in Hk. destruct (kind tm), (kind tm'); try done; congruence.
  - intros k now st' Hstep n. subst n.
    unfold step in Hstep. destruct (enabled _ st) eqn:En; [|done].
    injection Hstep as <-. apply bool_decide_eq_true in En.
    destruct (Inv_opened k st HI En) as [HI1 _].
    set (st1 := (on_session k (on_websocket (WebSocket_set_readyState OPEN)) st).2) in *.
    assert (E : (handler rt (WsOpen k now) st).2
                = (terminal_writeln k ""
                     (terminal_writeln k
                        (green ("Connected to "
                                +:+ type_name (default pod (closure_type <$> sessions st1 !! k))
                                +:+ " terminal!"))
                        (restarted k now st1)).2).2).
    { simpl. rewrite run_seq by apply returns_on_session. by rewrite onopen_run. }
    change ((on_session k (on_websocket (WebSocket_set_readyState OPEN))
             ≫= λ _ : (), onopen k now) st)
      with (handler rt (WsOpen k now) st).
    rewrite E.
    change (timers (terminal_writeln _ _ (terminal_writeln _ _ (restarted k now st1)).2).2)
      with (timers (restarted k now st1)).
    change (speedUpdateTimerRef
              (terminal_writeln _ _ (terminal_writeln _ _ (restarted k now st1)).2).2)
      with (speedUpdateTimerRef (restarted k now st1)).
    change (pingTimerRef
              (terminal_writeln _ _ (terminal_writeln _ _ (restarted k now st1)).2).2)
      with (pingTimerRef (restarted k now st1)).
    destruct (restarted_timers k now st1 HI1) as (Ht & Hs & Hp).
    change (timers st1) with (timers st) in Hs, Hp.
    rewrite Ht, Hs, Hp.
    assert (Hlen : length (both_cleared st1) = length (timers st))
      by (unfold both_cleared; by rewrite !length_clear_opt).
    split; [by rewrite lookup_app_r, Hlen, Nat.sub_diag by lia|].
    split.
    { rewrite lookup_app_r by lia. rewrite Hlen.
      by replace (S (length (timers st)) - length (timers st)) with 1 by lia. }
    split; [done|]. split; [done|].
    intros t tm Hl Ha. apply lookup_app_Some in Hl as [Hl|[Hge Hl]].
    + rewrite (both_cleared_inactive st1 t tm HI1 Hl) in Ha. done.
    + rewrite Hlen in *. apply lookup_lt_Some in Hl as Hlt. simpl in Hlt. lia.
Qed.

Lemma intervals_never_pile_up_witness :
  let st := Sample.after Sample.mount in
  let st' := Sample.after Sample.connect in
  reachable Sample.rt st
  /\ step Sample.rt (WsOpen 0 1000) st = Some st'
  /\ timers st' !! 1 = Some {| kind := Keepalive 0; interval := 30000; active := true |}
  /\ pingTimerRef st' = Some 1.
Proof.
  intros st st'.
  assert (Hr : reachable Sample.rt st).
  { apply (run_reachable Sample.rt Sample.mount (initial 0));
      [apply reachable_initial | vm_compute; reflexivity]. }
  assert (Hstep : step Sample.rt (WsOpen 0 1000) st = Some st') by (vm_compute; reflexivity).
  destruct (intervals_never_pile_up Sample.rt st Hr) as [_ Hopen].
  destruct (Hopen 0 1000%Z st' Hstep) as (_ & Hk & _ & Hp & _).
  exact (conj Hr (conj Hstep (conj Hk Hp))).
Defined.

(** ** Nothing but frames is sent *)

Lemma keeps_sent_on_terminal f : keeps_sent (on_terminal f).
Proof. intros s. reflexivity. Qed.

Lemma keeps_sent_close code : keeps_sent (on_websocket (WebSocket_close code)).
Proof. intros s. reflexivity. Qed.

Lemma keeps_sent_readyState r : keeps_sent (on_websocket (WebSocket_set_readyState r)).
Proof. intros s. reflexivity. Qed.

Lemma keeps_sent_resizeObserver b : keeps_sent (set_resizeObserver b).
Proof. intros s. reflexivity. Qed.

Lemma keeps_sent_resizeTimeout b : keeps_sent (set_resizeTimeout b).
Proof. intros s. reflexivity. Qed.

#[export] Hint Resolve keeps_sent_on_terminal keeps_sent_close keeps_sent_readyState
  keeps_sent_resizeObserver keeps_sent_resizeTimeout : callbacks.

Lemma frames_frame st st' :
  frames_only st -> sessions st' = sessions st -> frames_only st'.
Proof. intros H E k s. rewrite E. apply H. Qed.

Lemma frames_on_session k g : keeps_sent g -> preserves frames_only (on_session k g).
Proof.
  intros Hg st H j s' Hj. simpl in Hj.
  apply lookup_alter_Some in Hj as [(-> & s & Hs & ->)|[_ Hs]]; [|by eapply H].
  rewrite Hg. by eapply H.
Qed.

Lemma frames_websocket_send k f :
  preserves frames_only (websocket_send k (Wire.JSON_stringify f)).
Proof.
  intros st H j s' Hj. unfold websocket_send in Hj.
  destruct (sessions st !! k) as [s|] eqn:Hs; [|by eapply H].
  unfold WebSocket_send in Hj.
  destruct (readyState (websocket s)); simpl in Hj; [by eapply H | | |];
    (apply list_lookup_insert_Some in Hj as [(-> & <- & _)|[_ Hj]]; [|by eapply H]);
    simpl; try (by eapply H).
  apply Forall_app. split; [by eapply H|]. apply Forall_singleton. by exists f.
Qed.

Lemma frames_append st x :
  sent (websocket x) = [] -> frames_only st ->
  frames_only (set_sessions (sessions st ++ [x]) st).
Proof.
  intros Hx H j s Hj. simpl in Hj. apply lookup_app_Some in Hj as [Hj|[_ Hj]]; [by eapply H|].
  apply list_lookup_singleton_Some in Hj as [_ <-]. rewrite Hx. constructor.
Qed.

Lemma frames_setInterval kd ms : preserves frames_only (setInterval kd ms).
Proof. intros st H. by eapply frames_frame. Qed.

Ltac frames_leaf :=
  idtac;
  match goal with
  | |- preserves _ (on_session _ _) => apply frames_on_session; solve [auto with callbacks]
  | |- preserves _ (websocket_send _ _) => apply frames_websocket_send
  | |- preserves _ (setInterval _ _) => apply frames_setInterval
  | |- preserves _ (modify (fun st => set_sessions (sessions st ++ _) st)) =>
      apply preserves_modify; intros ? ?; by apply frames_append
  | |- preserves _ (modify _) =>
      apply preserves_modify; intros ? ?; eapply frames_frame; [eassumption | reflexivity]
  end.

Lemma frames_handler rt ev : preserves frames_only (handler rt ev).
Proof.
  destruct ev; simpl;
    unfold render, unmount, run_effects, runCleanup, cleanup, lifecycle, dispose_previous,
      construct, initSelection, handlePodChange, handleContainerChange, clearTerminal,
      onopen, onmessage, dispatch, onerror, onclose, speedTick, pingTick, onData,
      handleTerminalResize, send_frame, clear_if_set, clearInterval, updateNetworkStats,
      console_error, terminal_write, terminal_writeln, terminal_dispose, websocket_close,
      websocket_readyState, setIsConnected, setNetworkSpeed, setSelectedPod,
      setSelectedContainer;
    walk frames_leaf.
Qed.

(** X2.  Whatever the component has handed to any of its sockets is the
    [JSON.stringify] text of a [stdin], [resize] or [ping] frame: nothing
    else is ever sent. *)
Theorem only_frames_are_sent rt st :
  reachable rt st ->
  forall k s m, sessions st !! k = Some s -> m ∈ sent (websocket s) ->
    exists f, m = Wire.JSON_stringify f.
Proof.
  intros Hr. assert (H : frames_only st).
  { induction Hr as [now | ev st st' _ IH Hstep].
    - intros k s Hk. done.
    - unfold step in Hstep. destruct (enabled ev st); [|done]. injection Hstep as <-.
      by apply frames_handler. }
  intros k s m Hs Hm. specialize (H k s Hs).
  rewrite Forall_forall in H. by apply H.
Qed.

Lemma only_frames_are_sent_witness :
  let st := Sample.after (Sample.connect ++ [TermData 0 "ls"; PingTick 1]) in
  reachable Sample.rt st
  /\ exists s, sessions st !! 0 = Some s
     /\ sent (websocket s)
        = [Wire.JSON_stringify (Wire.stdin "ls"); Wire.JSON_stringify Wire.ping]
     /\ exists f, Wire.JSON_stringify Wire.ping = Wire.JSON_stringify f.
Proof.
  intros st.
  assert (Hr : reachable Sample.rt st).
  { apply (run_reachable Sample.rt (Sample.connect ++ [TermData 0 "ls"; PingTick 1])
             (initial 0)); [apply reachable_initial | vm_compute; reflexivity]. }
  assert (Hs : sessions st !! 0 = Some (default (new_session Sample.props "" Sample.fit)
                                          (sessions st !! 0)))
    by (vm_compute; reflexivity).
  split; [exact Hr|]. eexists. split; [exact Hs|]. split; [vm_compute; reflexivity|].
  apply (only_frames_are_sent Sample.rt st Hr 0 _ _ Hs).
  vm_compute. apply list_elem_of_In. right. left. reflexivity.
Defined.

(** ** The traffic meter is sound *)

Lemma Blob_size_nonneg m : (0 <= Blob_size m)%Z.
Proof. unfold Blob_size. lia. Qed.

Lemma sent_bytes_nonneg s : (0 <= sent_bytes s)%Z.
Proof.
  unfold sent_bytes. induction (sent (websocket s)) as [|m l IH]; simpl; [lia|].
  pose proof (Blob_size_nonneg m). lia.
Qed.

Lemma total_sent_nonneg st : (0 <= total_sent st)%Z.
Proof.
  unfold total_sent. induction (sessions st) as [|s l IH]; simpl; [lia|].
  pose proof (sent_bytes_nonneg s). lia.
Qed.

Lemma sent_bytes_keeps g s : keeps_sent g -> sent_bytes (g s) = sent_bytes s.
Proof. intros Hg. unfold sent_bytes. by rewrite Hg. Qed.

Lemma total_alter g k (l : list Session) :
  keeps_sent g ->
  foldr (fun s acc => (sent_bytes s + acc)%Z) 0%Z (alter g k l)
  = foldr (fun s acc => (sent_bytes s + acc)%Z) 0%Z l.
Proof.
  intros Hg. revert k. induction l as [|s l IH]; intros [|k]; simpl; try done.
  - by rewrite sent_bytes_keeps.
  - f_equal. apply IH.
Qed.

Lemma total_insert k s s' (l : list Session) :
  l !! k = Some s ->
  foldr (fun s acc => (sent_bytes s + acc)%Z) 0%Z (<[k := s']> l)
  = (foldr (fun s acc => (sent_bytes s + acc)%Z) 0%Z l + (sent_bytes s' - sent_bytes s))%Z.
Proof.
  revert k. induction l as [|x l IH]; intros [|k]; simpl; try done.
  - intros [= ->]. lia.
  - intros Hk. rewrite (IH k Hk). lia.
Qed.

Lemma total_snoc x (l : list Session) :
  foldr (fun s acc => (sent_bytes s + acc)%Z) 0%Z (l ++ [x])
  = (foldr (fun s acc => (sent_bytes s + acc)%Z) 0%Z l + sent_bytes x)%Z.
Proof. induction l as [|s l IH]; simpl; [lia|]. rewrite IH. lia. Qed.

Lemma sent_bytes_snoc (l : list string) m :
  foldr (fun m acc => (Blob_size m + acc)%Z) 0%Z (l ++ [m])
  = (foldr (fun m acc => (Blob_size m + acc)%Z) 0%Z l + Blob_size m)%Z.
Proof. induction l as [|x l IH]; simpl; [lia|]. rewrite IH. lia. Qed.

Lemma meter_frame st st' :
  meter_ok st -> sessions st' = sessions st ->
  networkStatsRef st' = networkStatsRef st ->
  meter_ok st'.
Proof.
  unfold meter_ok, total_sent. intros H Es En. by rewrite Es, En.
Qed.

Lemma meter_on_session k g : keeps_sent g -> preserves meter_ok (on_session k g).
Proof.
  intros Hg st H. unfold meter_ok, total_sent in *. simpl. by rewrite total_alter.
Qed.

Lemma meter_append st x :
  sent (websocket x) = [] -> meter_ok st ->
  meter_ok (set_sessions (sessions st ++ [x]) st).
Proof.
  intros Hx H. unfold meter_ok, total_sent in *. simpl. rewrite total_snoc.
  unfold sent_bytes at 2. rewrite Hx. simpl. by rewrite Z.add_0_r.
Qed.

Lemma meter_zero_speed : preserves meter_ok (setNetworkSpeed zero_speed).
Proof. intros st H. by eapply meter_frame. Qed.

Lemma meter_received data : preserves meter_ok (updateNetworkStats (Blob_size data) false).
Proof.
  intros st (H1 & H2). pose proof (Blob_size_nonneg data).
  repeat split; simpl; try done; try apply H1. lia.
Qed.

Lemma meter_reset a b :
  preserves meter_ok
    (modify (set_networkStatsRef
       {| lastReset := a; bytesReceived := 0; bytesSent := 0; lastUpdate := b |})).
Proof.
  intros st (H1 & H2). pose proof (total_sent_nonneg st).
  repeat split; simpl; try done.
Qed.

Lemma meter_setInterval kd ms : preserves meter_ok (setInterval kd ms).
Proof. intros st H. by eapply meter_frame. Qed.

Lemma meter_speedTick now : preserves meter_ok (speedTick now).
Proof.
  intros st (H1 & H2). pose proof (total_sent_nonneg st) as Ht.
  unfold speedTick. msimpl.
  destruct (less _ _); simpl; [|done]. msimpl.
  destruct (at_most _ _); simpl; repeat split; simpl; try done; apply H1.
Qed.

(** What a sender does: nothing, or one [send_frame] on an open socket. *)
Lemma sender_cases (h : M unit) k :
  (h = pingTick k \/ (exists data, h = onData k data) \/ h = handleTerminalResize k) ->
  forall st,
    h st = (Normal tt, st)
    \/ exists f s, sessions st !! k = Some s /\ readyState (websocket s) = OPEN
                   /\ h st = send_frame k f st.
Proof.
  intros Hh st.
  destruct (decide (socket_state k st = Some OPEN)) as [Hopen|Hno].
  - unfold socket_state in Hopen.
    destruct (sessions st !! k) as [s|] eqn:Hs; simpl in Hopen; [|done].
    injection Hopen as Hr.
    destruct Hh as [->|[[data ->]| ->]].
    + right. exists Wire.ping, s. repeat split; try done.
      unfold pingTick. rewrite run_bind. simpl. rewrite Hs. simpl. rewrite Hr.
      by rewrite bool_decide_eq_true_2.
    + right. exists (Wire.stdin data), s. repeat split; try done.
      unfold onData. rewrite run_bind. simpl. rewrite Hs. simpl. rewrite Hr.
      by rewrite bool_decide_eq_true_2.
    + destruct (fitAddonRef st) as [r|] eqn:Hf.
      * right. exists (Wire.resize (cols (terminal s)) (rows (terminal s))), s.
        repeat split; try done.
        unfold handleTerminalResize. msimpl. rewrite Hs, Hf. simpl. rewrite Hr.
        rewrite !bool_decide_eq_true_2 by eauto. simpl. msimpl. by rewrite Hs.
      * left. unfold handleTerminalResize. msimpl. rewrite Hf.
        by rewrite bool_decide_eq_false_2 by (by intros [? ?]).
  - left. destruct (senders_drop k st Hno) as (Hd & Hz & Hp).
    destruct Hh as [->|[[data ->]| ->]]; auto.
Qed.

Lemma meter_send_frame k f st s :
  sessions st !! k = Some s -> readyState (websocket s) = OPEN ->
  meter_ok st -> meter_ok (send_frame k f st).2.
Proof.
  intros Hs Hr (H1 & H2). rewrite (send_frame_OPEN k f st s Hs Hr).
  pose proof (Blob_size_nonneg (Wire.JSON_stringify f)).
  unfold meter_ok, total_sent in *. simpl. rewrite (total_insert k s _ _ Hs).
  unfold sent_bytes at 2 3. simpl. rewrite sent_bytes_snoc.
  repeat split; try done; lia.
Qed.

Lemma meter_sender (h : M unit) k :
  (h = pingTick k \/ (exists data, h = onData k data) \/ h = handleTerminalResize k) ->
  preserves meter_ok h.
Proof.
  intros Hh st H. destruct (sender_cases h k Hh st) as [->|(f & s & Hs & Hr & ->)];
    [done | by eapply meter_send_frame].
Qed.

Ltac meter_leaf :=
  idtac;
  match goal with
  | |- preserves _ (on_session _ _) => apply meter_on_session; solve [auto with callbacks]
  | |- preserves _ (pingTick ?k) => apply (meter_sender _ k); auto
  | |- preserves _ (onData ?k _) => apply (meter_sender _ k); eauto
  | |- preserves _ (handleTerminalResize ?k) => apply (meter_sender _ k); auto
  | |- preserves _ (speedTick _) => apply meter_speedTick
  | |- preserves _ (setInterval _ _) => apply meter_setInterval
  | |- preserves _ (setNetworkSpeed zero_speed) => apply meter_zero_speed
  | |- preserves _ (updateNetworkStats (Blob_size _) false) => apply meter_received
  | |- preserves _ (modify (set_networkStatsRef _)) => apply meter_reset
  | |- preserves _ (modify (fun st => set_sessions (sessions st ++ _) st)) =>
      apply preserves_modify; intros ? ?; by apply meter_append
  | |- preserves _ (modify _) =>
      apply preserves_modify; intros ? ?; eapply meter_frame; [eassumption | reflexivity ..]
  end.

Lemma meter_handler rt ev : preserves meter_ok (handler rt ev).
Proof.
  destruct ev; simpl;
    unfold render, unmount, run_effects, runCleanup, cleanup, lifecycle, dispose_previous,
      construct, initSelection, handlePodChange, handleContainerChange, clearTerminal,
      onopen, onmessage, dispatch, onerror, onclose, clear_if_set, clearInterval,
      console_error, terminal_write, terminal_writeln, terminal_dispose, websocket_close,
      setIsConnected, setSelectedPod, setSelectedContainer;
    walk meter_leaf.
Qed.

Lemma reachable_meter_ok rt st : reachable rt st -> meter_ok st.
Proof.
  induction 1 as [now | ev st st' _ IH Hstep].
  - unfold meter_ok, total_sent. simpl. repeat split; done.
  - unfold step in Hstep. destruct (enabled ev st); [|done]. injection Hstep as <-.
    by apply meter_handler.
Qed.

(** X3.  The byte counters are never negative, and the counter of sent
    bytes never exceeds the bytes of the messages that were really handed
    to the sockets: a sender counts a frame only when it has sent it.  On
    an open socket each sender hands over exactly one message and adds
    exactly its byte length to the counter of sent bytes. *)
Theorem counters_follow_the_traffic rt st :
  reachable rt st ->
  (0 <= bytesSent (networkStatsRef st) <= total_sent st)%Z
  /\ (0 <= bytesReceived (networkStatsRef st))%Z
  /\ (forall k s f, sessions st !! k = Some s -> readyState (websocket s) = OPEN ->
        let st' := (send_frame k f st).2 in
        bytesSent (networkStatsRef st')
        = (bytesSent (networkStatsRef st) + Blob_size (Wire.JSON_stringify f))%Z
        /\ bytesReceived (networkStatsRef st') = bytesReceived (networkStatsRef st)
        /\ total_sent st' = (total_sent st + Blob_size (Wire.JSON_stringify f))%Z).
Proof.
  intros Hr. destruct (reachable_meter_ok rt st Hr) as (H1 & H2).
  split; [exact H1|]. split; [exact H2|].
  intros k s f Hs Hopen st'. subst st'. rewrite (send_frame_OPEN k f st s Hs Hopen).
  simpl. split; [done|]. split; [done|].
  unfold total_sent. simpl. rewrite (total_insert k s _ _ Hs).
  unfold sent_bytes at 2 3. simpl. rewrite sent_bytes_snoc. lia.
Qed.

Lemma counters_follow_the_traffic_witness :
  let st := Sample.after (Sample.connect ++ [TermData 0 "ls"; PingTick 1]) in
  reachable Sample.rt st
  /\ bytesSent (networkStatsRef st) = 43%Z
  /\ total_sent st = 43%Z
  /\ (0 <= bytesSent (networkStatsRef st) <= total_sent st)%Z.
Proof.
  intros st.
  assert (Hr : reachable Sample.rt st).
  { apply (run_reachable Sample.rt (Sample.connect ++ [TermData 0 "ls"; PingTick 1])
             (initial 0)); [apply reachable_initial | vm_compute; reflexivity]. }
  split; [exact Hr|]. split; [vm_compute; reflexivity|]. split; [vm_compute; reflexivity|].
  exact (proj1 (counters_follow_the_traffic Sample.rt st Hr)).
Defined.





(** ** A late close event *)

(** The close event of socket [k] touches no other session. *)
Lemma closing_other_sessions rt k failed code st j :
  j <> k -> sessions (handler rt (WsClose k failed code) st).2 !! j = sessions st !! j.
Proof.
  intros Hne. rewrite closing_run, onclose_run. simpl.
  rewrite list_lookup_alter_ne by done.
  destruct failed; simpl; by rewrite ?list_lookup_alter_ne by done.
Qed.

(** X5.  The handlers of a socket act on the component's shared flag and
    timer references, not on their own session's.  So when the close
    event of a replaced socket [k] arrives while the socket [j] of the
    current session is open, socket [j] stays open and still carries what
    the user types, but the indicator is set to disconnected, the rates
    are zeroed, and both intervals are stopped: no keepalive ping and no
    sampling tick can fire for [j] any more. *)
Theorem late_close_silences_the_open_session rt st k j sj failed code st' :
  reachable rt st ->
  j <> k ->
  sessions st !! j = Some sj -> readyState (websocket sj) = OPEN ->
  step rt (WsClose k failed code) st = Some st' ->
  sessions st' !! j = Some sj
  /\ isConnected st' = false
  /\ networkSpeed st' = zero_speed
  /\ pingTimerRef st' = None /\ speedUpdateTimerRef st' = None
  /\ (forall t, enabled (PingTick t) st' = false)
  /\ (forall t now, enabled (SpeedTick t now) st' = false)
  /\ (forall data, exists s',
        sessions (onData j data st').2 !! j = Some s'
        /\ sent (websocket s') = sent (websocket sj) ++ [Wire.JSON_stringify (Wire.stdin data)]).
Proof.
  intros Hr Hne Hj Hopen Hstep. pose proof (reachable_Inv rt st Hr) as HI.
  assert (Est : st' = (handler rt (WsClose k failed code) st).2).
  { unfold step in Hstep. destruct (enabled _ st); [|done]. by injection Hstep. }
  clear Hstep. subst st'.
  destruct (closed_timers rt k failed code st HI) as (Hz & Hs & Hp & Hoff).
  assert (Hj' : sessions (handler rt (WsClose k failed code) st).2 !! j = Some sj)
    by (by rewrite closing_other_sessions).
  assert (Hc : isConnected (handler rt (WsClose k failed code) st).2 = false)
    by (by rewrite closing_run, onclose_run).
  set (st1 := (handler rt (WsClose k failed code) st).2) in *. clearbody st1.
  split; [exact Hj'|]. split; [exact Hc|].
  split; [exact Hz|]. split; [exact Hp|]. split; [exact Hs|]. split; [|split].
  - intros t. simpl. destruct (timers _ !! t) as [tm|] eqn:Ht; [|done].
    by rewrite (Hoff t tm Ht).
  - intros t now. simpl. destruct (timers _ !! t) as [tm|] eqn:Ht; [|done].
    by rewrite (Hoff t tm Ht).
  - intros data.
    assert (E : onData j data st1 = send_frame j (Wire.stdin data) st1).
    { unfold onData. rewrite run_bind. simpl. rewrite Hj'. simpl. rewrite Hopen.
      by rewrite bool_decide_eq_true_2. }
    rewrite E, (send_frame_OPEN j _ _ sj Hj' Hopen). simpl.
    eexists. split; [apply list_lookup_insert_eq; by eapply lookup_lt_Some|]. done.
Qed.

Lemma late_close_silences_the_open_session_witness :
  let st := Sample.after (Sample.switch_pod ++ [WsOpen 1 2000]) in
  let st' := Sample.after (Sample.switch_pod ++ [WsOpen 1 2000; WsClose 0 false 1005]) in
  reachable Sample.rt st
  /\ socket_state 1 st = Some OPEN
  /\ isConnected st = true
  /\ step Sample.rt (WsClose 0 false 1005) st = Some st'
  /\ socket_state 1 st' = Some OPEN
  /\ isConnected st' = false
  /\ (forall t, enabled (PingTick t) st' = false).
Proof.
  intros st st'.
  assert (Hr : reachable Sample.rt st).
  { apply (run_reachable Sample.rt (Sample.switch_pod ++ [WsOpen 1 2000]) (initial 0));
      [apply reachable_initial | vm_compute; reflexivity]. }
  assert (Hj : sessions st !! 1
               = Some (default (new_session Sample.props "" Sample.fit) (sessions st !! 1)))
    by (vm_compute; reflexivity).
  assert (Hstep : step Sample.rt (WsClose 0 false 1005) st = Some st')
    by (vm_compute; reflexivity).
  destruct (late_close_silences_the_open_session Sample.rt st 0 1 _ false 1005%Z st'
              Hr ltac:(lia) Hj ltac:(vm_compute; reflexivity) Hstep)
    as (_ & Hc & _ & _ & _ & Hping & _).
  refine (conj Hr (conj _ (conj _ (conj Hstep (conj _ (conj Hc Hping))))));
    vm_compute; reflexivity.
Defined.

(** ** The connection indicator *)

Lemma keeps_up_on_terminal f : keeps_up (on_terminal f).
Proof. intros s H. exact H. Qed.

Lemma keeps_up_close code : keeps_up (on_websocket (WebSocket_close code)).
Proof.
  intros s [H|H]; unfold socket_up, WebSocket_close, live_socket; simpl; rewrite H; auto.
Qed.

Lemma keeps_up_resizeObserver b : keeps_up (set_resizeObserver b).
Proof. intros s H. exact H. Qed.

Lemma keeps_up_resizeTimeout b : keeps_up (set_resizeTimeout b).
Proof. intros s H. exact H. Qed.

#[export] Hint Resolve keeps_up_on_terminal keeps_up_close keeps_up_resizeObserver
  keeps_up_resizeTimeout : callbacks.

Lemma up_frame st st' :
  indicator_ok st -> sessions st' = sessions st ->
  isConnected st' = isConnected st \/ isConnected st' = false ->
  indicator_ok st'.
Proof.
  intros H E [Hc|Hc] Hon; [|congruence]. rewrite E. apply H. congruence.
Qed.

Lemma up_on_session k g : keeps_up g -> preserves indicator_ok (on_session k g).
Proof.
  intros Hg st H Hon. destruct (H Hon) as (j & s & Hj & Hup). simpl.
  destruct (decide (j = k)) as [->|Hne].
  - exists k, (g s). split; [by rewrite list_lookup_alter_eq, Hj | by apply Hg].
  - exists j, s. split; [by rewrite list_lookup_alter_ne | done].
Qed.

Lemma up_websocket_send k msg : preserves indicator_ok (websocket_send k msg).
Proof.
  intros st H. unfold websocket_send.
  destruct (sessions st !! k) as [s|] eqn:Hs; [|done].
  destruct (WebSocket_send msg (websocket s)) as [w|e] eqn:Hw; [|done].
  intros Hon. destruct (H Hon) as (j & sj & Hj & Hup). simpl.
  destruct (decide (j = k)) as [->|Hne].
  - exists k, (on_websocket (fun _ => w) s).
    split; [apply list_lookup_insert_eq; by eapply lookup_lt_Some|].
    rewrite Hs in Hj. injection Hj as <-. unfold socket_up in *. simpl.
    unfold WebSocket_send in Hw.
    destruct Hup as [Hup|Hup]; rewrite Hup in Hw; injection Hw as <-; simpl; auto.
  - exists j, sj. split; [by rewrite list_lookup_insert_ne | done].
Qed.

Lemma up_append st x :
  indicator_ok st -> indicator_ok (set_sessions (sessions st ++ [x]) st).
Proof.
  intros H Hon. destruct (H Hon) as (j & s & Hj & Hup).
  exists j, s. split; [by apply lookup_app_l_Some | done].
Qed.

Lemma up_setInterval kd ms : preserves indicator_ok (setInterval kd ms).
Proof. intros st H. eapply up_frame; [exact H | reflexivity | by left]. Qed.

Ltac up_leaf :=
  idtac;
  match goal with
  | |- preserves _ (on_session _ _) => apply up_on_session; solve [auto with callbacks]
  | |- preserves _ (websocket_send _ _) => apply up_websocket_send
  | |- preserves _ (setInterval _ _) => apply up_setInterval
  | |- preserves _ (modify (fun st => set_sessions (sessions st ++ _) st)) =>
      apply preserves_modify; intros ? ?; by apply up_append
  | |- preserves _ (modify _) =>
      apply preserves_modify; intros ? ?; eapply up_frame;
      [eassumption | reflexivity | first [by left | by right]]
  end.

(** Every callback but the open and close handlers of a socket keeps the
    indicator right. *)
Lemma up_handler rt ev :
  match ev with
  | WsOpen _ _ | WsClose _ _ _ => True
  | _ => preserves indicator_ok (handler rt ev)
  end.
Proof.
  destruct ev; try exact I; simpl;
    unfold render, unmount, run_effects, runCleanup, cleanup, lifecycle, dispose_previous,
      construct, initSelection, handlePodChange, handleContainerChange, clearTerminal,
      onmessage, dispatch, speedTick, pingTick, onData,
      handleTerminalResize, send_frame, clear_if_set, clearInterval, updateNetworkStats,
      console_error, terminal_write, terminal_writeln, terminal_dispose, websocket_close,
      websocket_readyState, setIsConnected, setNetworkSpeed, setSelectedPod,
      setSelectedContainer;
    walk up_leaf.
Qed.

Lemma indicator_step rt ev st st' :
  indicator_ok st -> step rt ev st = Some st' -> indicator_ok st'.
Proof.
  intros H Hstep. unfold step in Hstep. destruct (enabled ev st) eqn:Hen; [|done].
  assert (Est : st' = (handler rt ev st).2) by (by injection Hstep).
  clear Hstep. subst st'. pose proof (up_handler rt ev) as Hh.
  destruct ev; try (by apply Hh); clear Hh.
  - simpl in Hen. apply bool_decide_eq_true in Hen. unfold socket_state in Hen.
    destruct (sessions st !! k) as [s|] eqn:Hs; [|done].
    intros _. simpl handler. rewrite run_seq by apply returns_on_session.
    rewrite onopen_run. simpl.
    exists k. eexists. split; [by rewrite !list_lookup_alter_eq, Hs|]. by left.
  - intros Hon. rewrite closing_run, onclose_run in Hon. done.
Qed.

(** X6.  The indicator shows connected only while some socket of the
    component is open or closing: it is switched on by the open handler
    alone, and the close handler of any socket switches it off.  It never
    shows connected when every socket is still connecting or closed. *)
Theorem indicator_needs_a_socket rt st :
  reachable rt st ->
  isConnected st = true ->
  exists k s, sessions st !! k = Some s
              /\ (readyState (websocket s) = OPEN \/ readyState (websocket s) = CLOSING).
Proof.
  intros Hr. change (indicator_ok st).
  induction Hr as [now | ev st st' _ IH Hstep]; [done|].
  by eapply indicator_step.
Qed.

Lemma indicator_needs_a_socket_witness :
  let st := Sample.after Sample.connect in
  reachable Sample.rt st /\ isConnected st = true
  /\ exists k s, sessions st !! k = Some s
                 /\ (readyState (websocket s) = OPEN \/ readyState (websocket s) = CLOSING).
Proof.
  intros st.
  assert (Hr : reachable Sample.rt st).
  { apply (run_reachable Sample.rt Sample.connect (initial 0));
      [apply reachable_initial | vm_compute; reflexivity]. }
  assert (Hc : isConnected st = true) by (vm_compute; reflexivity).
  exact (conj Hr (conj Hc (indicator_needs_a_socket Sample.rt st Hr Hc))).
Defined.

(** ** The object references *)

Lemma refs_frame st st' :
  refs_newest st ->
  xtermRef st' = xtermRef st -> wsRef st' = wsRef st -> fitAddonRef st' = fitAddonRef st ->
  length (sessions st') = length (sessions st) ->
  refs_newest st'.
Proof.
  intros (H1 & H2 & H3) Ex Ew Ef El. unfold refs_newest.
  rewrite Ex, Ew, Ef. split; [done|]. split; [done|].
  destruct (xtermRef st) as [k|]; [by rewrite El|].
  rewrite H3 in El. by destruct (sessions st').
Qed.

Lemma refs_on_session k g : preserves refs_newest (on_session k g).
Proof.
  intros st H. eapply refs_frame; [exact H | reflexivity .. |]. simpl. apply length_alter.
Qed.

Lemma refs_websocket_send k msg : preserves refs_newest (websocket_send k msg).
Proof.
  intros st H. unfold websocket_send.
  destruct (sessions st !! k) as [s|]; [|done].
  destruct (WebSocket_send msg (websocket s)); [|done].
  eapply refs_frame; [exact H | reflexivity .. |]. simpl. apply length_insert.
Qed.

Lemma refs_setInterval kd ms : preserves refs_newest (setInterval kd ms).
Proof. intros st H. eapply refs_frame; [exact H | reflexivity ..]. Qed.

Lemma refs_construct rt p sp sc fit : preserves refs_newest (construct rt p sp sc fit).
Proof.
  intros st _. rewrite construct_run. unfold refs_newest. simpl.
  split; [done|]. split; [done|]. rewrite length_app. simpl. lia.
Qed.

Ltac refs_leaf :=
  idtac;
  match goal with
  | |- preserves _ (on_session _ _) => apply refs_on_session
  | |- preserves _ (websocket_send _ _) => apply refs_websocket_send
  | |- preserves _ (setInterval _ _) => apply refs_setInterval
  | |- preserves _ (construct _ _ _ _ _) => apply refs_construct
  | |- preserves _ (modify _) =>
      apply preserves_modify; intros ? ?; eapply refs_frame; [eassumption | reflexivity ..]
  end.

Lemma refs_handler rt ev : preserves refs_newest (handler rt ev).
Proof.
  destruct ev; simpl;
    unfold render, unmount, run_effects, runCleanup, cleanup, lifecycle, dispose_previous,
      initSelection, handlePodChange, handleContainerChange, clearTerminal,
      onopen, onmessage, dispatch, onerror, onclose, speedTick, pingTick, onData,
      handleTerminalResize, send_frame, clear_if_set, clearInterval, updateNetworkStats,
      console_error, terminal_write, terminal_writeln, terminal_dispose, websocket_close,
      websocket_readyState, setIsConnected, setNetworkSpeed, setSelectedPod,
      setSelectedContainer;
    walk refs_leaf.
Qed.

Lemma reachable_refs_newest rt st : reachable rt st -> refs_newest st.
Proof.
  induction 1 as [now | ev st st' _ IH Hstep]; [done|].
  unfold step in Hstep. destruct (enabled ev st); [|done].
  assert (Est : st' = (handler rt ev st).2) by (by injection Hstep).
  subst st'. by apply refs_handler.
Qed.

(** X7.  The three references [xtermRef], [fitAddonRef] and [wsRef]
    always hold the objects of one session, the one built last, and are
    never reset: they are empty exactly while no session was built.  So
    the Clear button clears the emulator built last (also after it was
    disposed) and no other, does nothing before the first session, and the
    resize handler's test of [fitAddonRef.current] holds whenever a
    session exists. *)
Theorem references_hold_the_newest_session rt st :
  reachable rt st ->
  wsRef st = xtermRef st /\ fitAddonRef st = xtermRef st
  /\ (sessions st = [] -> xtermRef st = None /\ clearTerminal st = (Normal tt, st))
  /\ (forall k s, sessions st !! k = Some s ->
        is_Some (fitAddonRef st)
        /\ (S k = length (sessions st) ->
            xtermRef st = Some k
            /\ terminal_calls k (clearTerminal st).2 = calls (terminal s) ++ [Clear]
            /\ forall j, j <> k -> sessions (clearTerminal st).2 !! j = sessions st !! j)).
Proof.
  intros Hr. destruct (reachable_refs_newest rt st Hr) as (Hw & Hf & Hx).
  split; [exact Hw|]. split; [exact Hf|]. split.
  - intros Hnil. destruct (xtermRef st) as [k|] eqn:E.
    + rewrite Hnil in Hx. done.
    + split; [done|]. unfold clearTerminal. rewrite run_bind. simpl. by rewrite E.
  - intros k s Hs. destruct (xtermRef st) as [n|] eqn:E; [|by rewrite Hx in Hs].
    split; [rewrite Hf; eauto|]. intros Hk.
    assert (n = k) as -> by lia. split; [done|].
    assert (Ec : clearTerminal st
                 = (Normal tt,
                    set_sessions (alter (on_terminal (XTerm_call Clear)) k (sessions st)) st)).
    { unfold clearTerminal. rewrite run_bind. simpl. by rewrite E. }
    rewrite Ec. simpl. split.
    + unfold terminal_calls. simpl. by rewrite list_lookup_alter_eq, Hs.
    + intros j Hj. by rewrite list_lookup_alter_ne.
Qed.

Lemma references_hold_the_newest_session_witness :
  let st := Sample.after Sample.switch_pod in
  reachable Sample.rt st
  /\ length (sessions st) = 2
  /\ xtermRef st = Some 1
  /\ wsRef st = Some 1
  /\ terminal_calls 1 (clearTerminal st).2 = [Clear]
  /\ sessions (clearTerminal st).2 !! 0 = sessions st !! 0.
Proof.
  intros st.
  assert (Hr : reachable Sample.rt st).
  { apply (run_reachable Sample.rt Sample.switch_pod (initial 0));
      [apply reachable_initial | vm_compute; reflexivity]. }
  assert (Hs : sessions st !! 1
               = Some (default (new_session Sample.props "" Sample.fit) (sessions st !! 1)))
    by (vm_compute; reflexivity).
  destruct (references_hold_the_newest_session Sample.rt st Hr) as (Hw & _ & _ & Hk).
  destruct (Hk 1 _ Hs) as (_ & Hnew).
  destruct (Hnew ltac:(vm_compute; reflexivity)) as (Hx & Hc & Hother).
  refine (conj Hr (conj _ (conj Hx (conj _ (conj _ (Hother 0 ltac:(lia))))))).
  - vm_compute; reflexivity.
  - by rewrite Hw.
  - rewrite Hc. vm_compute; reflexivity.
Defined.

(** ** Mounting *)

Lemma run_effects_run rt p sp sc fit a b st :
  run_effects rt p sp sc fit a b st
  = (Normal tt,
     set_rendered (Some {| r_props := p; r_selectedPod := sp; r_selectedContainer := sc |})
       (when b (lifecycle rt p sp sc fit) (when a (initSelection p) st).2).2).
Proof.
  unfold run_effects.
  rewrite run_seq by (apply returns_when, returns_initSelection).
  rewrite run_seq by (apply returns_when, returns_lifecycle). reflexivity.
Qed.

(** The first commit of a pod terminal: the selection is initialised from
    the props, nothing is built. *)
Lemma first_commit_pod rt p fit now :
  type_of p = pod ->
  (render rt p fit (initial now)).2
  = set_rendered (Some {| r_props := p; r_selectedPod := ""; r_selectedContainer := "" |})
      (set_selectedContainer (initial_container p)
         (set_selectedPod (initial_pod p)
            (set_terminalRef true (initial now)))).
Proof.
  intros Hty. rewrite render_run. simpl. rewrite run_effects_run. simpl.
  rewrite lifecycle_run. simpl.
  assert (E : returns_early p "" "" true = true).
  { unfold returns_early. rewrite Hty. simpl.
    change (falsy "") with true. by rewrite orb_true_r. }
  by rewrite E.
Qed.

(** X8.  Mounting a pod terminal takes two commits.  The first one only
    initialises the selection from the props (the lifecycle effect sees
    the empty selection of the first render and returns early).  The
    second one sees that selection and, when the entry guard lets it
    through, builds the one session: a fresh emulator and a connecting
    socket whose URL names the initial pod and container. *)
Theorem pod_terminal_connects_on_second_commit rt p fit now :
  type_of p = pod ->
  let st1 := (render rt p fit (initial now)).2 in
  let st2 := (render rt p fit st1).2 in
  sessions st1 = []
  /\ selectedPod st1 = initial_pod p /\ selectedContainer st1 = initial_container p
  /\ selectedPod st2 = initial_pod p /\ selectedContainer st2 = initial_container p
  /\ (if returns_early p (initial_pod p) (initial_container p) true
      then sessions st2 = []
      else sessions st2
           = [new_session p (wsUrl rt p (initial_pod p) (initial_container p)) fit]
           /\ xtermRef st2 = Some 0 /\ wsRef st2 = Some 0 /\ cleanupFn st2 = Some 0
           /\ isConnected st2 = false).
Proof.
  intros Hty st1 st2. subst st2 st1. rewrite (first_commit_pod rt p fit now Hty).
  split; [done|]. split; [done|]. split; [done|].
  rewrite render_run. simpl. rewrite run_effects_run. simpl.
  set (sp := initial_pod p). set (sc := initial_container p).
  assert (Hsel : forall (b : bool) st,
            selectedPod st = sp -> selectedContainer st = sc ->
            selectedPod (when b (initSelection p) st).2 = sp
            /\ selectedContainer (when b (initSelection p) st).2 = sc
            /\ sessions (when b (initSelection p) st).2 = sessions st
            /\ terminalRef (when b (initSelection p) st).2 = terminalRef st
            /\ xtermRef (when b (initSelection p) st).2 = xtermRef st
            /\ wsRef (when b (initSelection p) st).2 = wsRef st).
  { intros [] st H1 H2; simpl; auto 10. }
  destruct (returns_early p sp sc true) eqn:Hearly.
  - destruct (negb _) eqn:Hre; simpl.
    + rewrite lifecycle_run. simpl.
      match goal with |- context [when ?b (initSelection p) ?s] =>
        destruct (Hsel b s eq_refl eq_refl) as (E1 & E2 & E3 & E4 & E5 & E6) end.
      rewrite E4. simpl. rewrite Hearly. auto.
    + match goal with |- context [when ?b (initSelection p) ?s] =>
        destruct (Hsel b s eq_refl eq_refl) as (E1 & E2 & E3 & E4 & E5 & E6) end.
      auto.
  - assert (Hsc : sc <> "").
    { intros E. unfold returns_early in Hearly. rewrite Hty, E in Hearly.
      change (falsy "") with true in Hearly. by rewrite orb_true_r in Hearly. }
    rewrite (bool_decide_eq_false_2 ("" = sc)) by done. rewrite andb_false_r. simpl.
    rewrite lifecycle_run. simpl.
    match goal with |- context [when ?b (initSelection p) ?s] =>
      destruct (Hsel b s eq_refl eq_refl) as (E1 & E2 & E3 & E4 & E5 & E6);
      set (st1 := (when b (initSelection p) s).2) in * end.
    rewrite E4. simpl. rewrite Hearly. rewrite ?construct_run. simpl.
    assert (Hd : sessions (dispose_previous st1).2 = []
                 /\ selectedPod (dispose_previous st1).2 = sp
                 /\ selectedContainer (dispose_previous st1).2 = sc).
    { unfold dispose_previous. msimpl. rewrite E5. simpl. msimpl. rewrite E6. simpl.
      auto. }
    destruct Hd as (D1 & D2 & D3). rewrite D1. auto 10.
Qed.

Lemma pod_terminal_connects_on_second_commit_witness :
  let st2 := Sample.after Sample.mount in
  type_of Sample.props = pod
  /\ exists s, sessions st2 = [s]
     /\ url (websocket s)
        = "wss://kite.example.com/api/v1/terminal/default/web-1/ws?container=app&x-cluster-name=prod"
     /\ readyState (websocket s) = CONNECTING.
Proof.
  intros st2.
  assert (Hty : type_of Sample.props = pod) by reflexivity.
  destruct (pod_terminal_connects_on_second_commit Sample.rt Sample.props Sample.fit 0 Hty)
    as (_ & _ & _ & _ & _ & Hs).
  change (returns_early _ _ _ _) with false in Hs. destruct Hs as (Hs & _).
  split; [exact Hty|]. eexists. split; [exact Hs|]. split; vm_compute; reflexivity.
Defined.

(** ** Renders that do not rebuild *)

(** X9.  The lifecycle effect depends on the selected pod, the selected
    container, the namespace and the type only.  A render in which these
    four are what they were at the last commit leaves the session alone,
    whatever else changed in the props: emulators, sockets, intervals,
    references, the indicator and the counters stay as they are.  In
    particular a node terminal whose [nodeName] prop changes keeps its
    connection to the old node. *)
Theorem unrelated_props_do_not_reconnect rt p fit st r :
  rendered st = Some r ->
  r_selectedPod r = selectedPod st ->
  r_selectedContainer r = selectedContainer st ->
  namespace (r_props r) = namespace p ->
  type_of (r_props r) = type_of p ->
  let st' := (render rt p fit st).2 in
  sessions st' = sessions st /\ timers st' = timers st
  /\ cleanupFn st' = cleanupFn st
  /\ xtermRef st' = xtermRef st /\ wsRef st' = wsRef st
  /\ speedUpdateTimerRef st' = speedUpdateTimerRef st
  /\ pingTimerRef st' = pingTimerRef st
  /\ isConnected st' = isConnected st
  /\ networkStatsRef st' = networkStatsRef st.
Proof.
  intros Hr Hp Hc Hn Ht st'. subst st'. rewrite render_run.
  assert (E : lifecycle_deps_changed (rendered st) p (selectedPod st) (selectedContainer st)
              = false).
  { rewrite Hr. unfold lifecycle_deps_changed.
    by rewrite !bool_decide_eq_true_2 by done. }
  rewrite E. simpl. rewrite run_effects_run. simpl.
  by destruct (selection_deps_changed (rendered st) p).
Qed.

Lemma unrelated_props_do_not_reconnect_witness :
  let p := {| type := Some node; namespace := None; podName := None;
              nodeName := Some "node-a"; pods := None; containers := None |} in
  let p' := {| type := Some node; namespace := None; podName := None;
               nodeName := Some "node-b"; pods := None; containers := None |} in
  let st := default (initial 0) (run Sample.rt [Render p Sample.fit] (initial 0)) in
  let st' := (render Sample.rt p' Sample.fit st).2 in
  (url ∘ websocket <$> sessions st)
  = ["wss://kite.example.com/api/v1/node-terminal/node-a/ws?x-cluster-name=prod"]
  /\ sessions st' = sessions st
  /\ wsUrl Sample.rt p' (selectedPod st') (selectedContainer st')
     = "wss://kite.example.com/api/v1/node-terminal/node-b/ws?x-cluster-name=prod".
Proof.
  intros p p' st st'.
  assert (Hr : rendered st = Some {| r_props := p; r_selectedPod := "";
                                     r_selectedContainer := "" |})
    by (vm_compute; reflexivity).
  destruct (unrelated_props_do_not_reconnect Sample.rt p' Sample.fit st _ Hr
              ltac:(vm_compute; reflexivity) ltac:(vm_compute; reflexivity)
              ltac:(reflexivity) ltac:(reflexivity)) as (Hs & _).
  split; [vm_compute; reflexivity|]. split; [exact Hs|]. vm_compute; reflexivity.
Defined.

(** ** What the message handler counts *)

(** The handler after [JSON.parse] has accepted the text. *)
Lemma onmessage_parsed rt k data m st :
  JSON_parse rt data = Some m ->
  onmessage rt k data st
  = try_catch (ty ← lift (get_field "type" m); dispatch k m ty)
      (fun err => console_error ("Failed to parse WebSocket message: " +:+ err))
      (updateNetworkStats (Blob_size data) false st).2.
Proof.
  intros Hp. unfold onmessage, try_catch. rewrite run_bind, Hp. simpl.
  by rewrite run_bind.
Qed.

Lemma onmessage_unparsed rt k data st :
  JSON_parse rt data = None ->
  onmessage rt k data st
  = console_error ("Failed to parse WebSocket message: " +:+ "SyntaxError") st.
Proof. intros Hp. unfold onmessage, try_catch. by rewrite run_bind, Hp. Qed.

Lemma stats_dispatched k m x :
  preserves (fun st => networkStatsRef st = x)
    (try_catch (ty ← lift (get_field "type" m); dispatch k m ty)
       (fun err => console_error ("Failed to parse WebSocket message: " +:+ err))).
Proof.
  unfold dispatch, console_error, terminal_write, terminal_writeln, setIsConnected, on_session.
  walk ltac:(idtac; match goal with
             | |- preserves _ (modify _) => apply preserves_modify; intros ? E; exact E
             end).
Qed.

(** X10.  The counter of received bytes grows by the byte length of every
    inbound text that [JSON.parse] accepts, before the frame is looked at:
    whatever its type, also when it is no record at all and the handler
    fails on it later.  A text that [JSON.parse] rejects is not counted.
    The handler never touches the counter of sent bytes. *)
Theorem received_bytes_count_parsed_texts rt k datas st :
  let counted := filter (fun data => is_Some (JSON_parse rt data)) datas in
  let st' := deliver rt k datas st in
  bytesReceived (networkStatsRef st')
  = (bytesReceived (networkStatsRef st) + foldr Z.add 0 (Blob_size <$> counted))%Z
  /\ bytesSent (networkStatsRef st') = bytesSent (networkStatsRef st)
  /\ lastReset (networkStatsRef st') = lastReset (networkStatsRef st).
Proof.
  simpl. revert st. induction datas as [|data datas IH]; intros st.
  - simpl. repeat split. lia.
  - change (deliver rt k (data :: datas) st)
      with (deliver rt k datas (onmessage rt k data st).2).
    destruct (IH (onmessage rt k data st).2) as (H1 & H2 & H3).
    rewrite H1, H2, H3. clear IH H1 H2 H3.
    destruct (JSON_parse rt data) as [m|] eqn:Hp.
    + rewrite filter_cons_True by eauto.
      rewrite (onmessage_parsed rt k data m st Hp).
      rewrite (stats_dispatched k m _ _ eq_refl). rewrite fmap_cons. cbn [foldr].
      generalize (foldr Z.add 0%Z
                    (Blob_size <$> filter (fun d => is_Some (JSON_parse rt d)) datas)).
      generalize (Blob_size data). intros b z. simpl. repeat split. lia.
    + rewrite filter_cons_False by (rewrite Hp; by intros [? ?]).
      rewrite (onmessage_unparsed rt k data st Hp). simpl. repeat split.
Qed.

(** X11.  The frames that are neither output nor errors.  An [info] frame
    writes its text as one blue line and a [connected] frame as one green
    line, and neither touches the indicator or anything else; when the
    text cannot be converted to a string the failure is logged and nothing
    is written.  A [pong] frame, and a frame of any type the handler does
    not know, is counted and otherwise ignored. *)
Theorem status_frames_write_one_line rt k data fields t st :
  JSON_parse rt data = Some (JObj fields) ->
  own_property "type" fields = Some (JStr t) ->
  let counted := (updateNetworkStats (Blob_size data) false st).2 in
  let st' := (onmessage rt k data st).2 in
  let written line :=
    set_sessions (alter (on_terminal (XTerm_call (Writeln line))) k (sessions st)) counted in
  (forall line, template (own_property "data" fields) = Normal line ->
     (t = "info" -> st' = written (blue line))
     /\ (t = "connected" -> st' = written (green line)))
  /\ (forall e, template (own_property "data" fields) = Throw e ->
        t = "info" \/ t = "connected" ->
        st' = set_console (console st ++ ["Failed to parse WebSocket message: " +:+ e])
                counted)
  /\ (t <> "stdout" -> t <> "stderr" -> t <> "info" -> t <> "connected" -> t <> "error" ->
      st' = counted).
Proof.
  intros Hp Hty counted st' written. subst counted st' written.
  rewrite (onmessage_parsed rt k data _ st Hp).
  destruct st as [? ? ? ? ? ? ? ? ? ? ? ? ? ? ? ? ?].
  unfold try_catch. rewrite run_bind. simpl. rewrite Hty. unfold dispatch.
  split; [|split].
  - intros line Hl. split; intros ->; simpl; msimpl; rewrite Hl; reflexivity.
  - intros e He [-> | ->]; simpl; msimpl; rewrite He; reflexivity.
  - intros H1 H2 H3 H4 H5. unfold is_stdio.
    by rewrite !bool_decide_eq_false_2 by done.
Qed.

Lemma status_frames_write_one_line_witness :
  let st := Sample.after Sample.connect in
  let st' := (onmessage Sample.rt 0 (Sample.frame_text "info" "resized") st).2 in
  terminal_calls 0 st' = terminal_calls 0 st ++ [Writeln (blue "resized")]
  /\ isConnected st' = isConnected st.
Proof.
  intros st st'.
  assert (Hp : JSON_parse Sample.rt (Sample.frame_text "info" "resized")
               = Some (JObj [("type", JStr "info"); ("data", JStr "resized")]))
    by (vm_compute; reflexivity).
  destruct (status_frames_write_one_line Sample.rt 0 _ _ "info" st Hp eq_refl)
    as (Hline & _).
  destruct (Hline "resized" eq_refl) as (Hinfo & _).
  subst st'. rewrite (Hinfo eq_refl). split; vm_compute; reflexivity.
Defined.

(** * The breadcrumb *)

Import Breadcrumb.

(** ** Splitting and joining *)

Lemma split_slash rest : split ("/" +:+ rest) = EmptyString :: split rest.
Proof. reflexivity. Qed.

Lemma split_cons_segment seg rest :
  slash_free seg = true -> split (seg +:+ "/" +:+ rest) = seg :: split rest.
Proof.
  induction seg as [|c seg IH]; intros H; [reflexivity|].
  simpl in H. apply andb_true_iff in H as [Hc Hs].
  simpl. destruct (Ascii.eqb c "/"); [done|]. by rewrite (IH Hs).
Qed.

Lemma split_one_segment seg : slash_free seg = true -> split seg = [seg].
Proof.
  induction seg as [|c seg IH]; intros H; [reflexivity|].
  simpl in H. apply andb_true_iff in H as [Hc Hs].
  simpl. destruct (Ascii.eqb c "/"); [done|]. by rewrite (IH Hs).
Qed.

Lemma split_join segs :
  segs <> [] -> Forall (fun seg => slash_free seg = true) segs -> split (join segs) = segs.
Proof.
  induction segs as [|seg segs IH]; intros Hne H; [done|].
  apply Forall_cons in H as [Hseg H].
  destruct segs as [|seg' segs]; [by apply split_one_segment|].
  change (join (seg :: seg' :: segs)) with (seg +:+ "/" +:+ join (seg' :: segs)).
  rewrite split_cons_segment by done. f_equal. by apply IH.
Qed.

Lemma split_slash_free s : Forall (fun seg => slash_free seg = true) (split s).
Proof.
  induction s as [|c s IH]; [by repeat constructor|].
  simpl. destruct (Ascii.eqb c "/") eqn:Hc; [by constructor|].
  destruct (split s) as [|seg segs]; [by repeat constructor; simpl; rewrite Hc|].
  apply Forall_cons in IH as [Hseg IH]. constructor; [|done]. simpl. by rewrite Hc.
Qed.

Lemma pathSegments_segment pathname : Forall segment (pathSegments pathname).
Proof.
  unfold pathSegments. apply Forall_forall. intros seg Hin.
  apply list_elem_of_filter in Hin as [Hne Hin]. split; [done|].
  pose proof (split_slash_free pathname) as H. rewrite Forall_forall in H. by apply H.
Qed.

Lemma filter_segments segs :
  Forall segment segs -> filter (fun seg => seg <> EmptyString) segs = segs.
Proof.
  induction 1 as [|seg segs [Hne _] _ IH]; [done|].
  by rewrite filter_cons_True, IH.
Qed.

Lemma pathSegments_join segs :
  Forall segment segs -> pathSegments ("/" +:+ join segs) = segs.
Proof.
  intros H. unfold pathSegments. rewrite split_slash.
  rewrite filter_cons_False by (intros E; by apply E).
  destruct segs as [|seg segs]; [reflexivity|].
  rewrite split_join; [by apply filter_segments | done |].
  eapply Forall_impl; [exact H|]. by intros ? [_ ?].
Qed.

(** ** The crumbs *)

Lemma generateBreadcrumbs_imap pathname :
  generateBreadcrumbs pathname
  = imap (fun index seg =>
            createBreadcrumb seg (getSafeLink (pathSegments pathname) index))
      (pathSegments pathname).
Proof.
  unfold generateBreadcrumbs. destruct (pathSegments pathname) as [|seg segs] eqn:E; done.
Qed.

Lemma crumb_lookup pathname i c :
  generateBreadcrumbs pathname !! i = Some c ->
  exists seg, pathSegments pathname !! i = Some seg
              /\ c = createBreadcrumb seg (getSafeLink (pathSegments pathname) i).
Proof.
  rewrite generateBreadcrumbs_imap, list_lookup_imap.
  destruct (pathSegments pathname !! i) as [seg|]; simpl; [|done].
  intros [= <-]. eauto.
Qed.

Lemma crumbs_length pathname :
  length (generateBreadcrumbs pathname) = length (pathSegments pathname).
Proof. by rewrite generateBreadcrumbs_imap, length_imap. Qed.

Lemma crumbs_labels pathname :
  label <$> generateBreadcrumbs pathname = lookup_label <$> pathSegments pathname.
Proof.
  rewrite generateBreadcrumbs_imap. apply list_eq. intros i.
  rewrite !list_lookup_fmap, list_lookup_imap.
  by destruct (pathSegments pathname !! i).
Qed.

(** X12.  Only the non-empty pieces between the slashes of the path
    count: every segment is non-empty and holds no slash, the segments of
    a path written from segments are those segments, and leading,
    trailing or doubled slashes change nothing of the breadcrumb.  A path
    without segments has no crumbs; otherwise there is one crumb per
    segment, labelled from its segment, in order. *)
Theorem breadcrumb_follows_the_segments pathname :
  Forall segment (pathSegments pathname)
  /\ (forall segs, Forall segment segs -> pathSegments ("/" +:+ join segs) = segs)
  /\ generateBreadcrumbs ("/" +:+ join (pathSegments pathname))
     = generateBreadcrumbs pathname
  /\ (pathSegments pathname = [] -> generateBreadcrumbs pathname = [])
  /\ length (generateBreadcrumbs pathname) = length (pathSegments pathname)
  /\ label <$> generateBreadcrumbs pathname = lookup_label <$> pathSegments pathname.
Proof.
  split; [apply pathSegments_segment|]. split; [apply pathSegments_join|]. split.
  { rewrite !generateBreadcrumbs_imap.
    by rewrite pathSegments_join by apply pathSegments_segment. }
  split; [by intros E; rewrite generateBreadcrumbs_imap, E|].
  split; [apply crumbs_length | apply crumbs_labels].
Qed.

Lemma breadcrumb_follows_the_segments_witness :
  pathSegments "//pods//default/web-1/" = ["pods"; "default"; "web-1"]
  /\ generateBreadcrumbs "//pods//default/web-1/" = generateBreadcrumbs "/pods/default/web-1"
  /\ generateBreadcrumbs "/" = [].
Proof.
  destruct (breadcrumb_follows_the_segments "//pods//default/web-1/")
    as (_ & _ & Hnorm & _).
  destruct (breadcrumb_follows_the_segments "/") as (_ & _ & _ & Hnil & _).
  split; [vm_compute; reflexivity|]. split; [|by apply Hnil].
  rewrite <- Hnorm. vm_compute; reflexivity.
Defined.

(** ** The links *)

Lemma getSafeLink_last segs i : S i = length segs -> getSafeLink segs i = None.
Proof. intros H. unfold getSafeLink. by rewrite bool_decide_eq_true_2 by lia. Qed.

Lemma getSafeLink_Some segs i h :
  getSafeLink segs i = Some h -> S i <> length segs /\ exists rest, h = "/" +:+ rest.
Proof.
  unfold getSafeLink. destruct (bool_decide _) eqn:E; [done|].
  apply bool_decide_eq_false in E. intros H. split; [lia|].
  repeat (destruct (bool_decide _) in H; simpl in H); try done;
    injection H as <-; eexists; reflexivity.
Qed.

Lemma getSafeLink_plain segs i :
  segs !! 0 <> Some "crds" -> S i <> length segs ->
  getSafeLink segs i
  = Some (if bool_decide (length segs = 3) && bool_decide (i = 1)
          then "/" +:+ show (segs !! 0)
          else "/" +:+ join (take (i + 1) segs)).
Proof.
  intros Hc Hi. unfold getSafeLink.
  rewrite bool_decide_eq_false_2 by lia. rewrite (bool_decide_eq_false_2 _ Hc).
  by destruct (bool_decide (length segs = 3) && bool_decide (i = 1)).
Qed.

(** X13.  The last crumb is the current page: it never has a link.  A
    crumb that has a link is not the last one, its link starts with a
    slash (so it is truthy and the crumb is rendered as a link), and away
    from the CRD pages every crumb but the last has one. *)
Theorem last_crumb_is_the_current_page pathname i c :
  generateBreadcrumbs pathname !! i = Some c ->
  (S i = length (generateBreadcrumbs pathname) ->
     href c = None /\ render_crumb c = Page (label c))
  /\ (forall h, href c = Some h ->
        S i < length (generateBreadcrumbs pathname)
        /\ render_crumb c = LinkTo h (label c)
        /\ exists rest, h = "/" +:+ rest)
  /\ (S i < length (generateBreadcrumbs pathname) ->
      pathSegments pathname !! 0 <> Some "crds" -> is_Some (href c)).
Proof.
  intros Hc. pose proof (lookup_lt_Some _ _ _ Hc) as Hlt.
  destruct (crumb_lookup pathname i c Hc) as (seg & Hseg & ->).
  rewrite crumbs_length in *. simpl. split; [|split].
  - intros Hi. unfold render_crumb. simpl. by rewrite getSafeLink_last.
  - intros h Hh. destruct (getSafeLink_Some _ _ _ Hh) as (Hi & rest & ->).
    split; [lia|]. split; [|eauto]. unfold render_crumb. simpl. by rewrite Hh.
  - intros Hi Hcrd. rewrite getSafeLink_plain by (done || lia). eauto.
Qed.

Lemma last_crumb_is_the_current_page_witness :
  exists c, generateBreadcrumbs "/deployments/default/web" !! 2 = Some c
            /\ label c = Text "web" /\ href c = None
            /\ render_crumb c = Page (Text "web").
Proof.
  destruct (last_crumb_is_the_current_page "/deployments/default/web" 2
              {| label := Text "web"; href := None |} ltac:(vm_compute; reflexivity))
    as (Hlast & _).
  destruct (Hlast ltac:(vm_compute; reflexivity)) as (Hh & Hr).
  eexists. split; [vm_compute; reflexivity|]. split; [reflexivity|].
  split; [exact Hh | exact Hr].
Defined.

(** X14.  Away from the CRD pages a link leads up the current path: the
    link of crumb [i] is the path of the first [i + 1] segments, and the
    page it leads to shows exactly the first [i + 1] crumbs.  The one
    exception is the path of three segments (resource, namespace, name),
    whose namespace crumb links to the resource list, the path of the
    first segment alone. *)
Theorem links_lead_up_the_path pathname i c :
  pathSegments pathname !! 0 <> Some "crds" ->
  generateBreadcrumbs pathname !! i = Some c ->
  S i < length (generateBreadcrumbs pathname) ->
  let n := if bool_decide (length (pathSegments pathname) = 3) && bool_decide (i = 1)
           then 1 else S i in
  let target := "/" +:+ join (take n (pathSegments pathname)) in
  href c = Some target
  /\ pathSegments target = take n (pathSegments pathname)
  /\ label <$> generateBreadcrumbs target
     = take n (label <$> generateBreadcrumbs pathname).
Proof.
  intros Hcrd Hc Hi n target. subst target.
  destruct (crumb_lookup pathname i c Hc) as (seg & Hseg & ->).
  rewrite crumbs_length in Hi. simpl.
  assert (Hsegs : pathSegments ("/" +:+ join (take n (pathSegments pathname)))
                  = take n (pathSegments pathname)).
  { apply pathSegments_join. apply Forall_take, pathSegments_segment. }
  split; [|split; [exact Hsegs|]].
  - rewrite getSafeLink_plain by (done || lia). subst n.
    destruct (bool_decide (length _ = 3) && bool_decide (i = 1)).
    + destruct (pathSegments pathname) as [|seg0 segs]; [simpl in Hi; lia|]. reflexivity.
    + by rewrite Nat.add_1_r.
  - by rewrite !crumbs_labels, Hsegs, fmap_take.
Qed.

Lemma links_lead_up_the_path_witness :
  exists c1 c2,
    generateBreadcrumbs "/pods/default/web-1" !! 1 = Some c1
    /\ href c1 = Some "/pods"
    /\ generateBreadcrumbs "/crs/widgets/default/w1" !! 2 = Some c2
    /\ href c2 = Some "/crs/widgets/default"
    /\ label <$> generateBreadcrumbs "/crs/widgets/default"
       = [Text "Custom Resources"; Text "widgets"; Text "default"].
Proof.
  destruct (links_lead_up_the_path "/pods/default/web-1" 1
              {| label := Text "default"; href := Some "/pods" |}
              ltac:(vm_compute; discriminate) ltac:(vm_compute; reflexivity)
              ltac:(vm_compute; lia)) as (H1 & _).
  destruct (links_lead_up_the_path "/crs/widgets/default/w1" 2
              {| label := Text "default"; href := Some "/crs/widgets/default" |}
              ltac:(vm_compute; discriminate) ltac:(vm_compute; reflexivity)
              ltac:(vm_compute; lia)) as (H2 & _ & Hl).
  eexists _, _. split; [vm_compute; reflexivity|]. split; [exact H1|].
  split; [vm_compute; reflexivity|]. split; [exact H2|]. vm_compute; reflexivity.
Defined.

(** X15.  On the CRD pages (first segment [crds]) the first crumb links
    to the list of definitions, the second and the third both link to the
    definition named by the second segment, and deeper crumbs have no
    link: they are rendered as plain text like the last one. *)
Theorem crd_crumbs_link_to_the_definition pathname i c :
  pathSegments pathname !! 0 = Some "crds" ->
  generateBreadcrumbs pathname !! i = Some c ->
  S i < length (generateBreadcrumbs pathname) ->
  (i = 0 -> href c = Some "/crds")
  /\ (i = 1 \/ i = 2 ->
      exists name, pathSegments pathname !! 1 = Some name
                   /\ href c = Some ("/crds/" +:+ name))
  /\ (3 <= i -> href c = None /\ render_crumb c = Page (label c)).
Proof.
  intros Hcrd Hc Hi.
  destruct (crumb_lookup pathname i c Hc) as (seg & Hseg & ->).
  rewrite crumbs_length in Hi. simpl. unfold render_crumb, getSafeLink. simpl.
  rewrite bool_decide_eq_false_2 by lia. rewrite (bool_decide_eq_true_2 _ Hcrd).
  split; [by intros ->|]. split.
  - intros Hi12. destruct (pathSegments pathname !! 1) as [name|] eqn:Hname.
    + exists name. split; [done|]. by destruct Hi12 as [-> | ->].
    + apply lookup_ge_None in Hname. lia.
  - intros Hi3. unfold getSafeLink. rewrite !bool_decide_eq_false_2 by lia. done.
Qed.

Lemma crd_crumbs_link_to_the_definition_witness :
  href <$> generateBreadcrumbs "/crds/widgets.example.com/default/w1/status"
  = [Some "/crds"; Some "/crds/widgets.example.com"; Some "/crds/widgets.example.com";
     None; None]
  /\ exists c, generateBreadcrumbs "/crds/widgets.example.com/default/w1/status" !! 3 = Some c
               /\ render_crumb c = Page (Text "w1").
Proof.
  destruct (crd_crumbs_link_to_the_definition
              "/crds/widgets.example.com/default/w1/status" 3
              {| label := Text "w1"; href := None |}
              ltac:(vm_compute; reflexivity) ltac:(vm_compute; reflexivity)
              ltac:(vm_compute; lia))
    as (_ & _ & Hdeep).
  split; [vm_compute; reflexivity|]. eexists. split; [vm_compute; reflexivity|].
  exact (proj2 (Hdeep ltac:(lia))).
Defined.

(** ** The labels *)

Lemma own_resourceLabels seg l :
  own seg resourceLabels = Some l -> l <> EmptyString /\ seg ∉ Object_prototype.
Proof.
  unfold resourceLabels. simpl.
  repeat (destruct (decide _) as [->|_];
          [intros [= <-]; split; [done | by apply (bool_decide_eq_false_1 _); vm_compute]|]).
  done.
Qed.

(** X16.  The label of a crumb is the display name of its segment when
    the segment is one of the fifteen resource names, and the segment
    itself otherwise: always a non-empty string, with one exception.  The
    table of display names is an object literal, so a segment that names a
    member of [Object.prototype] (such as [constructor]) finds that
    member, and the label is then no string at all. *)
Theorem labels_are_text_unless_inherited pathname i c :
  generateBreadcrumbs pathname !! i = Some c ->
  exists seg, pathSegments pathname !! i = Some seg
    /\ (forall l, own seg resourceLabels = Some l -> label c = Text l /\ l <> EmptyString)
    /\ (own seg resourceLabels = None -> seg ∉ Object_prototype ->
        label c = Text seg /\ seg <> EmptyString)
    /\ (seg ∈ Object_prototype -> label c = Inherited seg)
    /\ ((exists s, label c = Text s /\ s <> EmptyString) \/ seg ∈ Object_prototype).
Proof.
  intros Hc. destruct (crumb_lookup pathname i c Hc) as (seg & Hseg & ->).
  exists seg. split; [done|]. unfold createBreadcrumb. cbn [label].
  assert (Hne : seg <> EmptyString).
  { pose proof (pathSegments_segment pathname) as H. rewrite Forall_forall in H.
    apply (H seg). by eapply list_elem_of_lookup_2. }
  unfold lookup_label.
  destruct (own seg resourceLabels) as [l|] eqn:Hl.
  - destruct (own_resourceLabels seg l Hl) as (Hl1 & Hl2).
    assert (Ef : falsy l = false) by (by apply bool_decide_eq_false).
    rewrite Ef. split; [intros l0 E; by assert (l0 = l) as -> by congruence|]. split; [done|]. split; [done|]. eauto.
  - split; [done|]. destruct (bool_decide (seg ∈ Object_prototype)) eqn:Hp.
    + apply bool_decide_eq_true in Hp.
      split; [by intros _ Hn|]. split; [done|]. by right.
    + apply bool_decide_eq_false in Hp. split; [done|]. split; [done|]. eauto.
Qed.

Lemma labels_are_text_unless_inherited_witness :
  label <$> generateBreadcrumbs "/configmaps/default/constructor"
  = [Text "ConfigMaps"; Text "default"; Inherited "constructor"]
  /\ exists c, generateBreadcrumbs "/configmaps/default/constructor" !! 2 = Some c
               /\ label c = Inherited "constructor".
Proof.
  destruct (labels_are_text_unless_inherited "/configmaps/default/constructor" 2
              {| label := Inherited "constructor"; href := None |}
              ltac:(vm_compute; reflexivity)) as (seg & Hseg & _ & _ & Hin & _).
  assert (seg = "constructor") as -> by (vm_compute in Hseg; congruence).
  split; [vm_compute; reflexivity|]. eexists. split; [vm_compute; reflexivity|].
  apply Hin. apply (bool_decide_eq_true_1 _). vm_compute. reflexivity.
Defined.

(** ** Display names and list pages *)

(** X17.  The breadcrumb's table of display names and the router's table
    of list pages name the resources independently.  Every resource with
    a list page of its own has a display name, so the crumb of its list
    reads that name, with one exception: the page of persistent volume
    claims is routed as [persistentvolumeclaims], while the display name
    is filed under [pvcs].  So the crumb of that page shows the raw
    segment, and the path [/pvcs], whose crumb reads PVCs, leads to the
    generic list page. *)
Theorem dedicated_pages_and_display_names resource :
  (forall r, Pages.ResourceList (Some resource) <> Pages.SimpleListPage r) ->
  (resource <> "persistentvolumeclaims" ->
     exists l, own resource resourceLabels = Some l /\ l <> resource
               /\ generateBreadcrumbs ("/" +:+ resource)
                  = [{| label := Text l; href := None |}])
  /\ (resource = "persistentvolumeclaims" ->
      generateBreadcrumbs ("/" +:+ resource)
      = [{| label := Text "persistentvolumeclaims"; href := None |}])
  /\ Pages.ResourceList (Some "pvcs") = Pages.SimpleListPage (Some "pvcs")
  /\ generateBreadcrumbs "/pvcs" = [{| label := Text "PVCs"; href := None |}].
Proof.
  intros Hpage. split; [|split; [intros ->; vm_compute; reflexivity|split; vm_compute; reflexivity]].
  intros Hne. revert Hpage. unfold Pages.ResourceList, Pages.dedicated. simpl.
  repeat (destruct (decide _) as [->|_];
          [intros _;
           first [ by destruct Hne
                 | eexists; split; [reflexivity|]; split; [done|]; vm_compute; reflexivity ]
          |]).
  simpl. intros H. by destruct (H (Some resource) eq_refl).
Qed.

Lemma dedicated_pages_and_display_names_witness :
  Pages.ResourceList (Some "statefulsets") = Pages.StatefulSetListPage
  /\ exists l, own "statefulsets" resourceLabels = Some l /\ l <> "statefulsets"
               /\ generateBreadcrumbs "/statefulsets" = [{| label := Text l; href := None |}].
Proof.
  split; [reflexivity|].
  apply (dedicated_pages_and_display_names "statefulsets"); [|done].
  intros r. vm_compute. discriminate.
Defined.

(** ** Cycling through the themes *)

Lemma indexOf_lookup themes j t :
  NoDup themes -> themes !! j = Some t -> Theme.indexOf themes t = Z.of_nat j.
Proof.
  revert j. induction themes as [|x themes IH]; intros j Hnd Hj; [done|].
  apply NoDup_cons in Hnd as [Hx Hnd]. simpl. destruct j as [|j]; simpl in Hj.
  - injection Hj as ->. by rewrite decide_True.
  - rewrite decide_False.
    + rewrite (IH j Hnd Hj). rewrite bool_decide_eq_false_2 by lia. lia.
    + intros ->. apply Hx. by eapply list_elem_of_lookup_2.
Qed.

Lemma next_theme_lookup themes j t :
  NoDup themes -> themes !! j = Some t ->
  Theme.next_theme themes (Some t) = themes !! ((j + 1) mod length themes).
Proof.
  intros Hnd Hj. pose proof (lookup_lt_Some _ _ _ Hj) as Hlt.
  unfold Theme.next_theme. rewrite (indexOf_lookup themes j t Hnd Hj).
  rewrite bool_decide_eq_false_2 by lia. f_equal.
  rewrite Z.rem_mod_nonneg by lia.
  replace (Z.of_nat j + 1)%Z with (Z.of_nat (j + 1)) by lia.
  rewrite <- Nat2Z.inj_mod. apply Nat2Z.id.
Qed.

Lemma cycle_lookup themes j t s k :
  NoDup themes -> themes !! j = Some t -> Theme.terminalTheme s = Some t ->
  Theme.terminalTheme (Nat.iter k (Theme.cycleTheme themes) s)
  = themes !! ((j + k) mod length themes).
Proof.
  intros Hnd Hj Hs. pose proof (lookup_lt_Some _ _ _ Hj) as Hlt.
  induction k as [|k IH].
  - simpl. by rewrite Nat.add_0_r, Nat.mod_small, Hs.
  - simpl. rewrite IH.
    destruct (themes !! ((j + k) mod length themes)) as [u|] eqn:Hu.
    + rewrite (next_theme_lookup themes _ u Hnd Hu). f_equal.
      rewrite Nat.Div0.add_mod_idemp_l. f_equal. lia.
    + apply lookup_ge_None in Hu.
      pose proof (Nat.mod_upper_bound (j + k) (length themes)). lia.
Qed.

(** X18.  The palette button walks through the themes in the order of
    the table and wraps around: from the theme at index [j], [k] presses
    show the theme at index [(j + k) mod n].  So every theme is reached
    within [n] presses and [n] presses lead back to the start.  After
    every press the saved value is the theme shown, and it is the value
    the initialiser of the state reads back at the next mount. *)
Theorem cycling_visits_every_theme themes j t s :
  NoDup themes -> themes !! j = Some t -> Theme.terminalTheme s = Some t ->
  let pressed k := Nat.iter k (Theme.cycleTheme themes) s in
  (forall k, Theme.terminalTheme (pressed k) = themes !! ((j + k) mod length themes))
  /\ Theme.terminalTheme (pressed (length themes)) = Some t
  /\ (forall u, u ∈ themes ->
        exists k, k < length themes /\ Theme.terminalTheme (pressed k) = Some u)
  /\ (forall k, 0 < k ->
        Theme.saved (pressed k) = Theme.terminalTheme (pressed k)
        /\ Theme.terminalTheme (pressed k) ∈ (Some <$> themes)
        /\ (EmptyString ∉ themes ->
            Some (Theme.initial_theme (Theme.saved (pressed k)))
            = Theme.terminalTheme (pressed k))).
Proof.
  intros Hnd Hj Hs pressed. pose proof (lookup_lt_Some _ _ _ Hj) as Hlt.
  assert (Hk : forall k, Theme.terminalTheme (pressed k)
                         = themes !! ((j + k) mod length themes))
    by (intros k; by apply (cycle_lookup themes j t s k)).
  split; [exact Hk|]. split; [|split].
  - rewrite Hk. replace (j + length themes) with (j + 1 * length themes) by lia.
    by rewrite Nat.Div0.mod_add, Nat.mod_small.
  - intros u Hu. apply list_elem_of_lookup_1 in Hu as [i Hi].
    pose proof (lookup_lt_Some _ _ _ Hi) as Hil.
    exists ((i + (length themes - j)) mod length themes).
    split; [apply Nat.mod_upper_bound; lia|].
    rewrite Hk, Nat.Div0.add_mod_idemp_r.
    replace (j + (i + (length themes - j))) with (i + 1 * length themes) by lia.
    by rewrite Nat.Div0.mod_add, Nat.mod_small.
  - intros k Hpos. destruct k as [|k]; [lia|].
    assert (Hsome : is_Some (Theme.terminalTheme (pressed (S k)))).
    { rewrite Hk. apply lookup_lt_is_Some, Nat.mod_upper_bound. lia. }
    destruct Hsome as [u Hu].
    assert (Hin : u ∈ themes) by (rewrite Hk in Hu; by eapply list_elem_of_lookup_2).
    assert (Hsaved : Theme.saved (pressed (S k)) = Some u).
    { change (pressed (S k)) with (Theme.cycleTheme themes (pressed k)) in *.
      unfold Theme.cycleTheme, Theme.handleThemeChange in *. simpl in *. by rewrite Hu. }
    rewrite Hsaved, Hu. split; [done|]. split; [by apply list_elem_of_fmap_2|].
    intros Hempty. unfold Theme.initial_theme, falsy_opt, falsy.
    rewrite bool_decide_eq_false_2; [done|]. by intros ->.
Qed.

Lemma cycling_visits_every_theme_witness :
  let themes := ["classic"; "dracula"; "solarized"] in
  let s := {| Theme.terminalTheme := Some "dracula"; Theme.saved := Some "dracula" |} in
  NoDup themes
  /\ Theme.terminalTheme (Theme.cycleTheme themes s) = Some "solarized"
  /\ Theme.terminalTheme (Theme.cycleTheme themes (Theme.cycleTheme themes s))
     = Some "classic"
  /\ Theme.terminalTheme (Nat.iter 3 (Theme.cycleTheme themes) s) = Some "dracula".
Proof.
  intros themes s.
  assert (Hnd : NoDup themes) by (by apply (bool_decide_eq_true_1 _); vm_compute).
  destruct (cycling_visits_every_theme themes 1 "dracula" s Hnd eq_refl eq_refl)
    as (Hk & Hback & _).
  split; [exact Hnd|]. split; [exact (Hk 1)|]. split; [exact (Hk 2) | exact Hback].
Defined.

(** ** After the unmount *)

Lemma same_sent_trans st0 st1 st2 :
  same_sent st0 st1 -> same_sent st1 st2 -> same_sent st0 st2.
Proof.
  intros H1 H2 k s0 Hs0. destruct (H1 k s0 Hs0) as (s1 & Hs1 & E1).
  destruct (H2 k s1 Hs1) as (s2 & Hs2 & E2). exists s2. split; [done|]. congruence.
Qed.

Lemma unmounted_frame n st st' :
  (mounted st = false /\ cleanupFn st = None /\ length (sessions st) = n) ->
  mounted st' = mounted st \/ mounted st' = false ->
  cleanupFn st' = cleanupFn st \/ cleanupFn st' = None ->
  length (sessions st') = length (sessions st) ->
  mounted st' = false /\ cleanupFn st' = None /\ length (sessions st') = n.
Proof. intros (H1 & H2 & H3) [E1|E1] [E2|E2] E3; repeat split; congruence. Qed.

Ltac unmounted_leaf :=
  idtac;
  match goal with
  | |- preserves _ (on_session _ _) =>
      intros ? ?; eapply unmounted_frame;
      [eassumption | by left | by left | simpl; apply length_alter]
  | |- preserves _ (websocket_send ?k ?m) =>
      let st := fresh "st" in
      let H := fresh "H" in
      intros st H; unfold websocket_send;
      destruct (sessions st !! k) as [?s|]; [|exact H];
      match goal with
      | |- context [WebSocket_send m ?w] => destruct (WebSocket_send m w); [|exact H]
      end;
      eapply unmounted_frame; [exact H | by left | by left | simpl; apply length_insert]
  | |- preserves _ (setInterval _ _) =>
      intros ? ?; eapply unmounted_frame; [eassumption | by left | by left | reflexivity]
  | |- preserves _ (modify _) =>
      apply preserves_modify; intros ? ?; eapply unmounted_frame;
      [eassumption | first [by left | by right] | first [by left | by right] | reflexivity]
  end.

(** No callback but the commit of a render revives an unmounted
    component or adds a session to it. *)
Lemma unmounted_handler rt ev n :
  match ev with
  | Render _ _ => True
  | _ => preserves (fun st => mounted st = false /\ cleanupFn st = None
                              /\ length (sessions st) = n) (handler rt ev)
  end.
Proof.
  destruct ev; try exact I; simpl;
    unfold unmount, runCleanup, cleanup, handlePodChange, handleContainerChange,
      clearTerminal, onopen, onmessage, dispatch, onerror, onclose, speedTick, pingTick,
      onData, handleTerminalResize, send_frame, clear_if_set, clearInterval,
      updateNetworkStats, console_error, terminal_write, terminal_writeln,
      terminal_dispose, websocket_close, websocket_readyState, setIsConnected,
      setNetworkSpeed, setSelectedPod, setSelectedContainer;
    walk unmounted_leaf.
Qed.

Ltac mounted_leaf :=
  idtac;
  match goal with
  | |- preserves _ (websocket_send ?k ?m) =>
      let st := fresh "st" in
      let H := fresh "H" in
      intros st H; unfold websocket_send;
      destruct (sessions st !! k) as [?s|]; [|exact H];
      match goal with
      | |- context [WebSocket_send m ?w] => destruct (WebSocket_send m w); exact H
      end
  | |- preserves _ (setInterval _ _) => intros ? H; exact H
  | |- preserves _ (modify _) => apply preserves_modify; intros ? H; exact H
  end.

(** Only the unmount unmounts. *)
Lemma mounted_handler rt ev :
  match ev with
  | Unmount => True
  | _ => preserves (fun st => mounted st = true) (handler rt ev)
  end.
Proof.
  destruct ev; try exact I; simpl;
    unfold render, run_effects, runCleanup, cleanup, lifecycle, dispose_previous,
      construct, initSelection, handlePodChange, handleContainerChange,
      clearTerminal, onopen, onmessage, dispatch, onerror, onclose, speedTick, pingTick,
      onData, handleTerminalResize, send_frame, clear_if_set, clearInterval,
      updateNetworkStats, console_error, terminal_write, terminal_writeln,
      terminal_dispose, websocket_close, websocket_readyState, setIsConnected,
      setNetworkSpeed, setSelectedPod, setSelectedContainer, on_session;
    walk mounted_leaf.
Qed.

Lemma unmount_run st :
  mounted (unmount st).2 = false /\ cleanupFn (unmount st).2 = None.
Proof.
  unfold unmount. rewrite run_seq by apply returns_runCleanup.
  rewrite runCleanup_run. simpl. destruct (cleanupFn st) eqn:E; simpl; auto.
Qed.

Lemma unmounted_step rt ev st st' :
  mounted st = false -> cleanupFn st = None ->
  step rt ev st = Some st' ->
  mounted st' = false /\ cleanupFn st' = None
  /\ length (sessions st') = length (sessions st).
Proof.
  intros Hm Hc Hstep. unfold step in Hstep.
  destruct (enabled ev st) eqn:Hen; [|done].
  assert (Est : st' = (handler rt ev st).2) by (by injection Hstep).
  clear Hstep. subst st'.
  pose proof (unmounted_handler rt ev (length (sessions st))) as Hh.
  destruct ev; try (by apply Hh).
  simpl in Hen. congruence.
Qed.

Lemma reachable_unmounted rt st :
  reachable rt st -> mounted st = false -> cleanupFn st = None.
Proof.
  induction 1 as [now | ev st st' Hr IH Hstep]; [done|]. intros Hm.
  destruct (mounted st) eqn:Hst.
  - unfold step in Hstep. destruct (enabled ev st); [|done].
    assert (Est : st' = (handler rt ev st).2) by (by injection Hstep).
    clear Hstep. subst st'. pose proof (mounted_handler rt ev) as Hh.
    destruct ev; try (rewrite (Hh st Hst) in Hm; discriminate).
    apply unmount_run.
  - by destruct (unmounted_step rt ev st st' Hst (IH eq_refl) Hstep) as (_ & ? & _).
Qed.

(** X19.  Once the component is unmounted it stays torn down whatever the
    browser still delivers (the close events of its sockets, a pending
    resize timeout): every emulator is disposed, every socket is closing
    or closed, no interval runs, no session is built and not one more
    message is handed to any socket. *)
Theorem unmounted_component_stays_silent rt st :
  reachable rt st -> mounted st = false ->
  torn_down st
  /\ forall evs st', run rt evs st = Some st' ->
       mounted st' = false /\ torn_down st'
       /\ length (sessions st') = length (sessions st)
       /\ same_sent st st'.
Proof.
  intros Hr Hm.
  assert (Hdead : forall s, reachable rt s -> mounted s = false -> torn_down s).
  { intros s Hs Hms. apply Inv_dead; [by eapply reachable_Inv | by eapply reachable_unmounted]. }
  split; [by apply Hdead|].
  intros evs. revert st Hr Hm. induction evs as [|ev evs IH]; intros st Hr Hm st' Hrun.
  - injection Hrun as <-. split; [done|]. split; [by apply Hdead|]. split; [done|].
    intros k s Hs. eauto.
  - simpl in Hrun. destruct (step rt ev st) as [st1|] eqn:Hstep; [|done].
    assert (Hr1 : reachable rt st1) by (by eapply reachable_step).
    destruct (unmounted_step rt ev st st1 Hm (reachable_unmounted rt st Hr Hm) Hstep)
      as (Hm1 & _ & Hl1).
    destruct (IH st1 Hr1 Hm1 st' Hrun) as (Hm' & Hd' & Hl' & Hsent').
    split; [done|]. split; [done|]. split; [congruence|].
    eapply same_sent_trans; [|exact Hsent'].
    intros k s Hs. destruct (step_sends_only_open rt ev st st1 Hstep k s Hs)
      as (s1 & Hs1 & [E|Hopen]); [eauto|].
    destruct (Hdead st Hr Hm) as [Hdown _]. destruct (Hdown k s Hs) as [_ Hlive].
    unfold live_socket in Hlive. rewrite Hopen in Hlive. done.
Qed.

Lemma unmounted_component_stays_silent_witness :
  let st := Sample.after (Sample.connect ++ [TermData 0 "ls"; Unmount]) in
  let st' := Sample.after (Sample.connect ++ [TermData 0 "ls"; Unmount; ResizeTimeout 0;
                                              WsClose 0 false 1005]) in
  reachable Sample.rt st /\ mounted st = false
  /\ run Sample.rt [ResizeTimeout 0; WsClose 0 false 1005] st = Some st'
  /\ torn_down st' /\ same_sent st st'.
Proof.
  intros st st'.
  assert (Hr : reachable Sample.rt st).
  { apply (run_reachable Sample.rt (Sample.connect ++ [TermData 0 "ls"; Unmount])
             (initial 0)); [apply reachable_initial | vm_compute; reflexivity]. }
  assert (Hm : mounted st = false) by (vm_compute; reflexivity).
  assert (Hrun : run Sample.rt [ResizeTimeout 0; WsClose 0 false 1005] st = Some st')
    by (vm_compute; reflexivity).
  destruct (unmounted_component_stays_silent Sample.rt st Hr Hm) as (_ & Hlater).
  destruct (Hlater _ st' Hrun) as (_ & Hd & _ & Hs).
  exact (conj Hr (conj Hm (conj Hrun (conj Hd Hs)))).
Defined.

(** ** The selection and the props *)

Lemma selection_kept rt p sp sc fit a b :
  preserves (fun st => selectedPod st = a /\ selectedContainer st = b) runCleanup
  /\ preserves (fun st => selectedPod st = a /\ selectedContainer st = b)
       (lifecycle rt p sp sc fit).
Proof.
  split;
    unfold runCleanup, cleanup, lifecycle, dispose_previous, construct, clear_if_set,
      clearInterval, terminal_dispose, websocket_close, setIsConnected, on_session;
    walk mounted_leaf.
Qed.

(** X20.  The selection follows the props.  When [podName], [pods] or
    [containers] changed since the last commit, the commit overwrites what
    the user picked with the pod and the container the props name; the
    lifecycle effect of that commit still sees the old selection, the new
    one is seen by the next render.  Otherwise a commit leaves the
    selection alone.  A parent that passes no [containers] makes every
    commit such a change, because the default [[]] is a new array each
    time. *)
Theorem props_change_resets_the_selection rt p fit st :
  let st' := (render rt p fit st).2 in
  (selection_deps_changed (rendered st) p = true ->
     selectedPod st' = initial_pod p /\ selectedContainer st' = initial_container p)
  /\ (selection_deps_changed (rendered st) p = false ->
      selectedPod st' = selectedPod st /\ selectedContainer st' = selectedContainer st)
  /\ (containers p = None -> selection_deps_changed (rendered st) p = true)
  /\ rendered st'
     = Some {| r_props := p; r_selectedPod := selectedPod st;
               r_selectedContainer := selectedContainer st |}.
Proof.
  intros st'. subst st'. rewrite render_run. simpl. rewrite run_effects_run. simpl.
  set (rebuild := lifecycle_deps_changed _ _ _ _).
  set (st0 := if rebuild then (runCleanup (set_terminalRef true st)).2
              else set_terminalRef true st).
  assert (H0 : selectedPod st0 = selectedPod st
               /\ selectedContainer st0 = selectedContainer st).
  { subst st0. destruct rebuild; [|done].
    by apply (proj1 (selection_kept rt p "" "" fit _ _)). }
  assert (Hlife : forall s a b, selectedPod s = a /\ selectedContainer s = b ->
            selectedPod (when rebuild
                           (lifecycle rt p (selectedPod st) (selectedContainer st) fit) s).2 = a
            /\ selectedContainer
                 (when rebuild
                    (lifecycle rt p (selectedPod st) (selectedContainer st) fit) s).2 = b).
  { intros s a b Hs. apply preserves_when; [|exact Hs].
    apply (proj2 (selection_kept rt p _ _ fit a b)). }
  split; [|split; [|split; [|done]]].
  - intros ->. simpl. by apply Hlife.
  - intros ->. simpl. by apply Hlife.
  - intros Hc. unfold selection_deps_changed. destruct (rendered st) as [r|]; [|done].
    rewrite Hc. destruct (containers (r_props r)); by rewrite andb_false_r.
Qed.

Lemma props_change_resets_the_selection_witness :
  let st := Sample.after (Sample.connect ++ [PodChange (Some "web-2")]) in
  let p := {| type := None; namespace := Some "default"; podName := None;
              nodeName := None;
              pods := Some {| identity := 3;
                              elems := [ {| metadata_name := Some "web-1" |};
                                         {| metadata_name := Some "web-2" |} ] |};
              containers := containers Sample.props |} in
  selectedPod st = "web-2"
  /\ selection_deps_changed (rendered st) p = true
  /\ selectedPod (render Sample.rt p Sample.fit st).2 = "web-1".
Proof.
  intros st p.
  assert (Hd : selection_deps_changed (rendered st) p = true) by (vm_compute; reflexivity).
  destruct (props_change_resets_the_selection Sample.rt p Sample.fit st) as (Hreset & _).
  split; [vm_compute; reflexivity|]. split; [exact Hd|].
  exact (proj1 (Hreset Hd)).
Defined.
